(** * modeling.py: the BERT encoder, embedded in Rocq

    The Python module builds its model with TensorFlow 1.x.  The embedding
    merges building the graph and running it: a tensor is a static shape
    together with its row-major buffer, every TensorFlow primitive the
    source calls is written out on that representation, and a Python
    function that creates variables, adds dropout nodes or touches a
    [BertConfig] object is a computation over an explicit state (type
    [build]) that returns or raises.

    Floating-point arithmetic is abstracted by the class [Scalar]; a
    theorem that needs a law of the arithmetic says so through the class
    [ScalarLaws], whose laws are those of IEEE 754 arithmetic and hold in
    exact arithmetic as well.  The random draws of TensorFlow are the
    functions of the class [Sampler], their range is the law of the class
    [SamplerLaws].  The definitions are run on two instances: the
    rationals, and the binary64 numbers of Rocq.

    The file has two parts: the model (the functions of the source, the
    TensorFlow primitives they call, and the vocabulary of the
    statements), then the lemmas and theorems. *)

From Stdlib Require Import ZArith List String Ascii Bool Lia Arith.
From Stdlib Require Import QArith Qcanon Qround.
From Stdlib Require PrimFloat SpecFloat FloatOps.
From stdpp Require Import gmap strings list pretty.

Close Scope Q_scope.
Close Scope Qc_scope.
Open Scope nat_scope.
Open Scope list_scope.

#[global] Unset Default Proof Using.

(* ===================================================================== *)
(** ** Python exceptions and results *)
(* ===================================================================== *)

(** The exceptions the module (and the TensorFlow calls it makes) can
    raise.  [ValueError] carries the message template of the source; the
    values Python substitutes into it are not modelled.  The errors of
    TensorFlow's own shape checks are [InvalidArgumentError]. *)
Inductive exn : Type :=
| ValueError (msg : string)
| ZeroDivisionError
| IndexError
| TypeError
| OverflowError
| InvalidArgumentError (msg : string).

Inductive res (A : Type) : Type :=
| Ok (a : A)
| Raise (e : exn).
Arguments Ok {A} a.
Arguments Raise {A} e.

Definition rbind {A B : Type} (m : res A) (k : A -> res B) : res B :=
  match m with
  | Ok a => k a
  | Raise e => Raise e
  end.

Declare Scope res_scope.
Delimit Scope res_scope with res.
Notation "x <- m ;; k" := (rbind m (fun x => k))
  (at level 100, m at next level, right associativity) : res_scope.

Definition is_ok {A : Type} (r : res A) : bool :=
  match r with Ok _ => true | Raise _ => false end.

(* ===================================================================== *)
(** ** Scalars *)
(* ===================================================================== *)

(** The arithmetic of [tf.float32] tensors and of Python floats.  Nothing
    is assumed about the operations here. *)
Class Scalar : Type := {
  F : Type;
  fzero : F;                      (* 0.0 *)
  fone : F;                       (* 1.0 *)
  fadd : F -> F -> F;
  fsub : F -> F -> F;
  fmul : F -> F -> F;
  fdiv : F -> F -> F;
  feqb : F -> F -> bool;          (* Python [==] on floats *)
  fltb : F -> F -> bool;          (* Python [<] *)
  fleb : F -> F -> bool;          (* Python [<=] *)
  of_Z : Z -> F;                  (* [float(n)], [tf.cast(_, tf.float32)] *)
  of_dec : Z -> nat -> F;         (* the literal [m * 10^-e] *)
  ffloor : F -> F;                (* [tf.floor] *)
  fsqrt : F -> F;                 (* [math.sqrt], [np.sqrt] *)
  frsqrt : F -> F;                (* [tf.rsqrt] *)
  fexp : F -> F;                  (* [tf.exp] *)
  ftanh : F -> F;                 (* [tf.tanh] *)
  fpow : F -> F -> F;             (* [tf.pow] *)
  fmax : F -> F -> F;             (* [max], as in [tf.nn.relu] *)
  fpi : F;                        (* [np.pi] *)
  ftruediv : Z -> Z -> option F;  (* [a / b] on Python integers, [b] not 0:
                                     the float nearest to the quotient,
                                     [None] when it is out of range *)
  ftrunc : F -> Z                 (* [int(x)] on a finite float *)
}.

(** [finite x]: [x - x == 0.0].  In IEEE arithmetic this holds of the
    finite numbers and fails for the infinities and NaN. *)
Definition finite {S : Scalar} (x : F) : Prop := feqb (fsub x x) fzero = true.

(** [not_negative_zero x]: if [x == 0.0] then [x] is [0.0] itself, and not
    the negative zero that compares equal to it. *)
Definition not_negative_zero {S : Scalar} (x : F) : Prop :=
  feqb x fzero = true -> x = fzero.

(** [regular x]: a finite number other than the negative zero. *)
Definition regular {S : Scalar} (x : F) : Prop := finite x /\ not_negative_zero x.

(** The laws some theorems rely on.  Each of them holds in IEEE 754
    arithmetic with rounding to nearest, and in exact arithmetic: one is
    neutral for the product; zero times a finite number is a zero; adding
    a zero to a number other than the negative zero leaves it as it is;
    the sum of a number in (0, 1) and a number in [0, 1) lies in (0, 2),
    so that its floor is 1 or 0; the quotient of two integers is exact
    when it is an integer of at most 53 bits. *)
Class ScalarLaws (S : Scalar) : Prop := {
  fmul_1_l : forall x : F, fmul fone x = x;
  fmul_1_r : forall x : F, fmul x fone = x;
  fmul_0_l : forall x : F, finite x -> feqb (fmul fzero x) fzero = true;
  fmul_0_r : forall x : F, finite x -> feqb (fmul x fzero) fzero = true;
  fadd_0_l : forall x : F, not_negative_zero x -> fadd fzero x = x;
  fadd_0_r : forall x z : F,
    not_negative_zero x -> feqb z fzero = true -> fadd x z = x;
  feqb_0_0 : feqb fzero fzero = true;
  feqb_1_0 : feqb fone fzero = false;
  fsub_1_1 : fsub fone fone = fzero;
  fltb_0_0 : fltb fzero fzero = false;
  ffloor_sum : forall keep u : F,
    fltb fzero keep = true -> fleb keep fone = true -> feqb keep fone = false ->
    fleb fzero u = true -> fltb u fone = true ->
    ffloor (fadd keep u) = if fleb fone (fadd keep u) then fone else fzero;
  ftruediv_exact : forall n q : Z,
    n <> 0%Z -> (Z.abs q <= 2 ^ 53)%Z ->
    exists x, ftruediv (n * q) n = Some x /\ ftrunc x = q
}.

(* ===================================================================== *)
(** ** Tensors: static shape and row-major buffer *)
(* ===================================================================== *)

Record tensor (A : Type) : Type := mk_tensor {
  shape : list nat;
  data : list A
}.
Arguments mk_tensor {A} shape data.
Arguments shape {A} t.
Arguments data {A} t.

Definition numel (sh : list nat) : nat := fold_right Nat.mul 1 sh.

Definition rank {A : Type} (t : tensor A) : nat := length (shape t).

(** A tensor is well formed when its buffer has one cell per index. *)
Definition wf {A : Type} (t : tensor A) : Prop :=
  length (data t) = numel (shape t).

(** Row-major offset of a multi-index, and its inverse. *)
Fixpoint ravel (sh idx : list nat) : nat :=
  match sh, idx with
  | _ :: sh', i :: idx' => i * numel sh' + ravel sh' idx'
  | _, _ => 0
  end.

Fixpoint unravel (sh : list nat) (off : nat) : list nat :=
  match sh with
  | [] => []
  | _ :: sh' => off / numel sh' :: unravel sh' (off mod numel sh')
  end.

(** [in_bounds idx sh]: [idx] is a valid multi-index of shape [sh]. *)
Definition in_bounds (idx sh : list nat) : Prop := Forall2 lt idx sh.

Definition tget {A : Type} (d : A) (t : tensor A) (idx : list nat) : A :=
  nth (ravel (shape t) idx) (data t) d.

(** The tensor of shape [sh] whose cell at [idx] is [f idx]. *)
Definition tabulate {A : Type} (sh : list nat) (f : list nat -> A) : tensor A :=
  mk_tensor sh (map (fun off => f (unravel sh off)) (seq 0 (numel sh))).

(* ===================================================================== *)
(** ** The TensorFlow primitives the module calls *)
(* ===================================================================== *)

Definition tmap {A B : Type} (f : A -> B) (t : tensor A) : tensor B :=
  mk_tensor (shape t) (map f (data t)).

Definition dims_of (sh : list nat) : list Z := map Z.of_nat sh.

(** Python's [l[-1]] and [l[0:-1]]. *)
Definition py_last (l : list nat) : res nat :=
  match l with
  | [] => Raise IndexError
  | _ => Ok (List.last l 0)
  end.

Definition py_init (l : list nat) : list nat := removelast l.

(** Python's [l[i]] for a non-negative [i]. *)
Definition py_nth (l : list nat) (i : nat) : res nat :=
  match nth_error l i with
  | Some x => Ok x
  | None => Raise IndexError
  end.

Section Reshape.
Context {A : Type}.

(** [tf.reshape(t, dims)], as the reshape kernel of TensorFlow 1.x has
    it.  At most one entry of [dims] is [-1]; it stands for the extent
    that makes the number of cells agree, and the kernel computes it only
    when the product of the other entries is positive: beside a zero
    entry it raises. *)
Definition sizes_product (dims : list Z) : nat :=
  fold_right (fun d acc => if (d =? -1)%Z then acc else Z.to_nat d * acc) 1 dims.

Definition count_infer (dims : list Z) : nat :=
  length (List.filter (Z.eqb (-1)) dims).

Definition fill_dims (missing : nat) (dims : list Z) : list nat :=
  map (fun d => if (d =? -1)%Z then missing else Z.to_nat d) dims.

Definition tf_reshape (t : tensor A) (dims : list Z) : res (tensor A) :=
  if existsb (fun d => (d <? -1)%Z) dims then
    Raise (InvalidArgumentError "Size must be non-negative")
  else if 1 <? count_infer dims then
    Raise (InvalidArgumentError "Only one input size may be -1")
  else
    let product := sizes_product dims in
    let n := numel (shape t) in
    if (count_infer dims =? 1) && (product =? 0) then
      Raise (InvalidArgumentError "Reshape cannot infer the missing input size for an empty tensor unless all specified input sizes are non-zero")
    else
      let missing := n / product in
      if (count_infer dims =? 1) && negb (product * missing =? n) then
        Raise (InvalidArgumentError "The requested shape requires a multiple of the known sizes")
      else
        let sh := fill_dims missing dims in
        if numel sh =? n then Ok (mk_tensor sh (data t))
        else Raise (InvalidArgumentError "Input to reshape has a different number of values")
.

(** [tf.expand_dims(t, axis)]: a dimension of extent 1 is inserted at
    [axis]; a negative axis counts from the end. *)
Definition tf_expand_dims (t : tensor A) (axis : Z) : res (tensor A) :=
  let r := Z.of_nat (rank t) in
  if ((axis <? - r - 1) || (r <? axis))%Z then
    Raise (InvalidArgumentError "Tried to expand dim index out of range")
  else
    let p := Z.to_nat (if (axis <? 0)%Z then axis + r + 1 else axis)%Z in
    Ok (mk_tensor (firstn p (shape t) ++ 1 :: skipn p (shape t)) (data t)).

(** [tf.transpose(t, perm)]: axis [i] of the result is axis [perm[i]] of
    the input. *)
Fixpoint index_of (j : nat) (perm : list nat) : nat :=
  match perm with
  | [] => 0
  | p :: perm' => if p =? j then 0 else S (index_of j perm')
  end.

Definition is_perm (r : nat) (perm : list nat) : bool :=
  (length perm =? r) && forallb (fun j => existsb (Nat.eqb j) perm) (seq 0 r).

Definition tf_transpose (d : A) (t : tensor A) (perm : list nat) : res (tensor A) :=
  if is_perm (rank t) perm then
    Ok (tabulate (map (fun p => nth p (shape t) 0) perm)
          (fun idx => tget d t (map (fun j => nth (index_of j perm) idx 0)
                                    (seq 0 (rank t)))))
  else Raise (InvalidArgumentError "perm is not a permutation of the axes").

End Reshape.

(* ===================================================================== *)
(** ** ShapeUtil: [assert_rank], [get_shape_list], [reshape_to_matrix],
       [reshape_from_matrix] *)
(* ===================================================================== *)

(** [expected_rank] is a Python integer or a list of integers. *)
Inductive rank_spec : Type :=
| RankInt (r : nat)
| RankList (rs : list nat).

Definition assert_rank_msg : string :=
  "For the tensor `%s` in scope `%s`, the actual rank `%d` (shape = %s) is not equal to the expected rank `%s`".

Definition assert_rank {A : Type} (tensor : tensor A) (expected_rank : rank_spec) : res unit :=
  let expected_rank_dict : gset nat :=
    match expected_rank with
    | RankInt r => {[ r ]}
    | RankList rs => list_to_set rs
    end in
  let actual_rank := rank tensor in
  if bool_decide (actual_rank ∈ expected_rank_dict) then Ok tt
  else Raise (ValueError assert_rank_msg).

(** All shapes are static here, so the list returned is [tensor.shape]. *)
Definition get_shape_list {A : Type} (tensor : tensor A)
    (expected_rank : option rank_spec) : res (list nat) :=
  (_ <- match expected_rank with
        | Some r => assert_rank tensor r
        | None => Ok tt
        end ;;
   Ok (shape tensor))%res.

Definition reshape_to_matrix_msg : string :=
  "Input tensor must have at least rank 2. Shape = %s".

Definition reshape_to_matrix {A : Type} (input_tensor : tensor A) : res (tensor A) :=
  let ndims := rank input_tensor in
  if ndims <? 2 then Raise (ValueError reshape_to_matrix_msg)
  else if ndims =? 2 then Ok input_tensor
  else
    (width <- py_last (shape input_tensor) ;;
     tf_reshape input_tensor [(-1)%Z; Z.of_nat width])%res.

Definition reshape_from_matrix {A : Type} (output_tensor : tensor A)
    (orig_shape_list : list nat) : res (tensor A) :=
  if length orig_shape_list =? 2 then Ok output_tensor
  else
    (output_shape <- get_shape_list output_tensor None ;;
     let orig_dims := py_init orig_shape_list in
     width <- py_last output_shape ;;
     tf_reshape output_tensor (dims_of (orig_dims ++ [width])))%res.

(* ===================================================================== *)
(** ** Arithmetic primitives on float tensors *)
(* ===================================================================== *)

Section TensorOps.
Context {S : Scalar}.

(** Read a cell of a float tensor. *)
Definition fget (t : tensor F) (idx : list nat) : F := tget fzero t idx.

(** The sum of products that [tf.matmul] accumulates for one output cell:
    the terms [a 0 * b 0], ..., [a (k-1) * b (k-1)] are added in order to
    an accumulator that starts at zero. *)
Definition dot (k : nat) (a b : nat -> F) : F :=
  fold_left (fun acc l => fadd acc (fmul (a l) (b l))) (seq 0 k) fzero.

(** [tf.matmul(a, b, transpose_b=...)] on tensors of equal rank >= 2: the
    leading axes are batch axes and must agree, the last two are
    multiplied as matrices. *)
Definition tf_matmul (a b : tensor F) (transpose_b : bool) : res (tensor F) :=
  let r := rank a in
  if (r <? 2) || negb (r =? rank b) then
    Raise (InvalidArgumentError "matmul: ranks must be equal and at least 2")
  else
    let batch := firstn (r - 2) (shape a) in
    let m := nth (r - 2) (shape a) 0 in
    let k := nth (r - 1) (shape a) 0 in
    let kb := nth (if transpose_b then r - 1 else r - 2) (shape b) 0 in
    let p := nth (if transpose_b then r - 2 else r - 1) (shape b) 0 in
    if negb (bool_decide (batch = firstn (r - 2) (shape b))) || negb (k =? kb) then
      Raise (InvalidArgumentError "matmul: incompatible shapes")
    else
      Ok (tabulate (batch ++ [m; p]) (fun idx =>
            let bi := firstn (r - 2) idx in
            let i := nth (r - 2) idx 0 in
            let j := nth (r - 1) idx 0 in
            dot k (fun l => fget a (bi ++ [i; l]))
                  (fun l => fget b (bi ++ (if transpose_b then [j; l] else [l; j]))))).

(** [tf.one_hot(indices, depth)] with the default on and off values [1.0]
    and [0.0]; an index outside [0, depth) gives a row of zeros. *)
Definition tf_one_hot (indices : tensor Z) (depth : Z) : res (tensor F) :=
  if (depth <? 0)%Z then Raise (InvalidArgumentError "depth must be non-negative")
  else
    Ok (tabulate (shape indices ++ [Z.to_nat depth]) (fun idx =>
          let i := tget 0%Z indices (py_init idx) in
          if (i =? Z.of_nat (List.last idx 0%nat))%Z then fone else fzero)).

(** [tf.gather(params, indices)] along axis 0; an index outside the first
    extent of [params] is an error. *)
Definition tf_gather (params : tensor F) (indices : tensor Z) : res (tensor F) :=
  match shape params with
  | [] => Raise (InvalidArgumentError "params must be at least 1 dimensional")
  | n :: inner =>
      if forallb (fun i => (0 <=? i)%Z && (i <? Z.of_nat n)%Z) (data indices) then
        Ok (tabulate (shape indices ++ inner) (fun idx =>
              let r := rank indices in
              let i := tget 0%Z indices (firstn r idx) in
              fget params (Z.to_nat i :: skipn r idx)))
      else Raise (InvalidArgumentError "indices out of range")
  end.

(** [tf.cast(t, tf.float32)] of an integer tensor. *)
Definition tf_cast_float (t : tensor Z) : tensor F := tmap of_Z t.

Definition tf_ones (sh : list nat) : tensor F := tabulate sh (fun _ => fone).
Definition tf_zeros (sh : list nat) : tensor F := tabulate sh (fun _ => fzero).

(** Broadcasting of two shapes, aligned at their last axes. *)
Fixpoint broadcast_rev (a b : list nat) : option (list nat) :=
  match a, b with
  | [], _ => Some b
  | _, [] => Some a
  | x :: a', y :: b' =>
      if x =? y then option_map (cons x) (broadcast_rev a' b')
      else if x =? 1 then option_map (cons y) (broadcast_rev a' b')
      else if y =? 1 then option_map (cons x) (broadcast_rev a' b')
      else None
  end.

Definition broadcast_shape (a b : list nat) : option (list nat) :=
  option_map (@rev nat) (broadcast_rev (rev a) (rev b)).

(** The index at which an operand of shape [sh] is read for the output
    index [idx]: leading output axes the operand lacks are dropped, and an
    axis of extent 1 is read at 0. *)
Fixpoint clip_index (sh idx : list nat) : list nat :=
  match sh, idx with
  | d :: sh', i :: idx' => (if d =? 1 then 0 else i) :: clip_index sh' idx'
  | _, _ => []
  end.

Definition broadcast_index (sh idx : list nat) : list nat :=
  clip_index sh (skipn (length idx - length sh) idx).

(** An elementwise binary operation with broadcasting ([+], [*], ...). *)
Definition tf_binop (op : F -> F -> F) (a b : tensor F) : res (tensor F) :=
  match broadcast_shape (shape a) (shape b) with
  | Some sh =>
      Ok (tabulate sh (fun idx =>
            op (fget a (broadcast_index (shape a) idx))
               (fget b (broadcast_index (shape b) idx))))
  | None => Raise (InvalidArgumentError "Incompatible shapes")
  end.

Definition tf_add : tensor F -> tensor F -> res (tensor F) := tf_binop fadd.
Definition tf_sub : tensor F -> tensor F -> res (tensor F) := tf_binop fsub.
Definition tf_mul : tensor F -> tensor F -> res (tensor F) := tf_binop fmul.

(** [tf.slice(t, [0, 0], [n, -1])] of a matrix: its first [n] rows. *)
Definition tf_slice_rows (t : tensor F) (n : nat) : res (tensor F) :=
  match shape t with
  | [rows; width] =>
      if n <=? rows then Ok (mk_tensor [n; width] (firstn (n * width) (data t)))
      else Raise (InvalidArgumentError "slice: size exceeds the input")
  | _ => Raise (InvalidArgumentError "slice: begin and size must match the rank")
  end.

End TensorOps.

(* ===================================================================== *)
(** ** The graph under construction *)
(* ===================================================================== *)

(** The random draws of TensorFlow, as functions of the place they are
    made at: the initial value of cell [off] of the variable [name] under
    [tf.truncated_normal_initializer(stddev)], and cell [off] of the
    uniform sample of the [n]-th dropout node. *)
Class Sampler (S : Scalar) : Type := {
  truncated_normal : F -> string -> nat -> F;
  random_uniform : nat -> nat -> F
}.

(** [tf.random_uniform] draws from [0, 1). *)
Class SamplerLaws (S : Scalar) (R : Sampler S) : Prop := {
  random_uniform_range : forall node off : nat,
    fleb fzero (random_uniform node off) = true
    /\ fltb (random_uniform node off) fone = true
}.

Section Model.
Context {S : Scalar} {R : Sampler S}.

(** The Python values an activation argument can be: [None], a string, or
    a callable on tensors. *)
Inductive pyval : Type :=
| PyNone
| PyStr (s : string)
| PyCallable (f : tensor F -> tensor F).

(** [BertConfig]: one field per attribute set by [__init__]. *)
Record BertConfig : Type := mk_config {
  vocab_size : Z;
  hidden_size : Z;
  num_hidden_layers : Z;
  num_attention_heads : Z;
  intermediate_size : Z;
  hidden_act : pyval;
  hidden_dropout_prob : option F;
  attention_probs_dropout_prob : option F;
  max_position_embeddings : Z;
  type_vocab_size : Z;
  initializer_range : F
}.

(** The state the Python code acts on: the heap of [BertConfig] objects,
    the variables created so far with their initial values, the keep
    probability of every dropout node added so far, and the current
    variable scope. *)
Record graph : Type := mk_graph {
  heap : gmap nat BertConfig;
  variables : list (string * tensor F);
  dropouts : list F;
  scope : list string
}.

Definition set_heap (h : gmap nat BertConfig) (g : graph) : graph :=
  mk_graph h (variables g) (dropouts g) (scope g).
Definition set_variables (v : list (string * tensor F)) (g : graph) : graph :=
  mk_graph (heap g) v (dropouts g) (scope g).
Definition set_dropouts (d : list F) (g : graph) : graph :=
  mk_graph (heap g) (variables g) d (scope g).
Definition set_scope (sc : list string) (g : graph) : graph :=
  mk_graph (heap g) (variables g) (dropouts g) sc.

(** A Python computation: it returns or raises, and leaves a state. *)
Definition build (A : Type) : Type := graph -> res A * graph.

Definition ret {A : Type} (a : A) : build A := fun g => (Ok a, g).

Definition raise {A : Type} (e : exn) : build A := fun g => (Raise e, g).

Definition lift {A : Type} (r : res A) : build A := fun g => (r, g).

Definition bind {A B : Type} (m : build A) (k : A -> build B) : build B :=
  fun g =>
    match m g with
    | (Ok a, g') => k a g'
    | (Raise e, g') => (Raise e, g')
    end.

(** [with tf.variable_scope(name): body]; the scope is restored when the
    block is left, also by an exception. *)
Definition variable_scope {A : Type} (name : string) (body : build A) : build A :=
  fun g =>
    let '(r, g') := body (set_scope (scope g ++ [name]) g) in
    (r, set_scope (scope g) g').

End Model.

Declare Scope build_scope.
Delimit Scope build_scope with build.
Notation "x <- m ;; k" := (bind m (fun x => k))
  (at level 100, m at next level, right associativity) : build_scope.

Section Layers.
Context {S : Scalar} {R : Sampler S}.

Inductive initializer : Type :=
| TruncatedNormal (stddev : F)
| ZerosInit
| OnesInit.

(** [create_initializer(initializer_range)] *)
Definition create_initializer (initializer_range : F) : initializer :=
  TruncatedNormal initializer_range.

Definition scoped_name (sc : list string) (name : string) : string :=
  String.concat "/" (sc ++ [name]).

Definition static_shape (dims : list Z) : res (list nat) :=
  if existsb (fun d => (d <? 0)%Z) dims
  then Raise (ValueError "Shape must have non-negative dimensions")
  else Ok (map Z.to_nat dims).

Definition initial_value (i : initializer) (name : string) (sh : list nat) : tensor F :=
  match i with
  | TruncatedNormal stddev =>
      mk_tensor sh (map (truncated_normal stddev name) (seq 0 (numel sh)))
  | ZerosInit => tf_zeros sh
  | OnesInit => tf_ones sh
  end.

(** [tf.get_variable(name, shape, initializer)]: the variable is created
    in the current scope with its initial value; a name already in use is
    an error. *)
Definition get_variable (name : string) (dims : list Z) (i : initializer)
  : build (tensor F) :=
  fun g =>
    match static_shape dims with
    | Raise e => (Raise e, g)
    | Ok sh =>
        let full := scoped_name (scope g) name in
        if existsb (String.eqb full) (map fst (variables g)) then
          (Raise (ValueError "Variable %s already exists, disallowed."), g)
        else
          let v := initial_value i full sh in
          (Ok v, set_variables (variables g ++ [(full, v)]) g)
    end.

(** Calling the value passed as [activation]. *)
Definition apply_activation (activation : pyval) (x : tensor F) : res (tensor F) :=
  match activation with
  | PyNone => Ok x
  | PyCallable f => Ok (f x)
  | PyStr _ => Raise TypeError
  end.

(** [tf.layers.dense(inputs, units, activation, name, kernel_initializer)]
    on a matrix: [activation(inputs . kernel + bias)], with the bias
    initialised to zeros.  The module applies it to matrices only. *)
Definition tf_layers_dense (inputs : tensor F) (units : Z) (activation : pyval)
    (name : option string) (kernel_initializer : initializer) : build (tensor F) :=
  variable_scope (default "dense" name) (
    in_width <- lift (py_last (shape inputs)) ;;
    kernel <- get_variable "kernel" [Z.of_nat in_width; units] kernel_initializer ;;
    bias <- get_variable "bias" [units] ZerosInit ;;
    outputs <- lift (tf_matmul inputs kernel false) ;;
    outputs <- lift (tf_add outputs bias) ;;
    lift (apply_activation activation outputs))%build.

(** Sum of [f 0 .. f (k-1)], as [tf.reduce_sum] over one axis. *)
Definition fsum (k : nat) (f : nat -> F) : F :=
  fold_left (fun acc l => fadd acc (f l)) (seq 0 k) fzero.

(** [tf.nn.softmax(logits)], over the last axis. *)
Definition tf_nn_softmax (logits : tensor F) : tensor F :=
  let w := List.last (shape logits) 0 in
  tabulate (shape logits) (fun idx =>
    fdiv (fexp (fget logits idx))
         (fsum w (fun j => fexp (fget logits (py_init idx ++ [j]))))).

(** [tf.contrib.layers.layer_norm(inputs, begin_norm_axis=-1,
    begin_params_axis=-1, scope=name)]: mean and variance over the last
    axis, then scale [gamma] and shift [beta]. *)
Definition tf_layer_norm_values (x beta gamma : tensor F) : tensor F :=
  let w := List.last (shape x) 0 in
  let mean idx := fdiv (fsum w (fun j => fget x (py_init idx ++ [j]))) (of_Z (Z.of_nat w)) in
  let variance idx :=
    fdiv (fsum w (fun j =>
            let dlt := fsub (fget x (py_init idx ++ [j])) (mean idx) in fmul dlt dlt))
         (of_Z (Z.of_nat w)) in
  tabulate (shape x) (fun idx =>
    let j := List.last idx 0 in
    let inv := fmul (frsqrt (fadd (variance idx) (of_dec 1 12))) (fget gamma [j]) in
    fadd (fmul (fget x idx) inv) (fsub (fget beta [j]) (fmul (mean idx) inv))).

Definition layer_norm (input_tensor : tensor F) (name : option string) : build (tensor F) :=
  variable_scope (default "LayerNorm" name) (
    width <- lift (py_last (shape input_tensor)) ;;
    beta <- get_variable "beta" [Z.of_nat width] ZerosInit ;;
    gamma <- get_variable "gamma" [Z.of_nat width] OnesInit ;;
    ret (tf_layer_norm_values input_tensor beta gamma))%build.

(** [tf.nn.dropout(x, keep_prob)] of TensorFlow 1.x: a Python float
    outside (0, 1] is rejected, [keep_prob == 1] returns [x], and
    otherwise [x / keep_prob * floor(keep_prob + uniform)]. *)
Definition tf_nn_dropout_msg : string :=
  "keep_prob must be a scalar tensor or a float in the range (0, 1], got %g".

Definition tf_nn_dropout (x : tensor F) (keep_prob : F) : build (tensor F) :=
  fun g =>
    if negb (fltb fzero keep_prob && fleb keep_prob fone) then
      (Raise (ValueError tf_nn_dropout_msg), g)
    else if feqb keep_prob fone then (Ok x, g)
    else
      let node := length (dropouts g) in
      let cell off xi :=
        fmul (fdiv xi keep_prob) (ffloor (fadd keep_prob (random_uniform node off))) in
      (Ok (mk_tensor (shape x) (imap cell (data x))),
       set_dropouts (dropouts g ++ [keep_prob]) g).

(** [dropout(input_tensor, dropout_prob)] *)
Definition dropout (input_tensor : tensor F) (dropout_prob : option F) : build (tensor F) :=
  match dropout_prob with
  | None => ret input_tensor
  | Some p =>
      if feqb p fzero then ret input_tensor
      else
        (output <- tf_nn_dropout input_tensor (fsub fone p) ;;
         ret output)%build
  end.

(** [layer_norm_and_dropout(input_tensor, dropout_prob, name)] *)
Definition layer_norm_and_dropout (input_tensor : tensor F) (dropout_prob : option F)
    (name : option string) : build (tensor F) :=
  (output_tensor <- layer_norm input_tensor name ;;
   output_tensor <- dropout output_tensor dropout_prob ;;
   ret output_tensor)%build.

(** [gelu(x)]: every operand has the shape of [x] or is a Python scalar,
    so the expression is computed cell by cell. *)
Definition gelu_cell (x : F) : F :=
  let cdf :=
    fmul (of_dec 5 1)
         (fadd fone
               (ftanh (fmul (fsqrt (fdiv (of_Z 2) fpi))
                            (fadd x (fmul (of_dec 44715 6) (fpow x (of_Z 3))))))) in
  fmul x cdf.

Definition gelu (x : tensor F) : tensor F := tmap gelu_cell x.

Definition tf_nn_relu (x : tensor F) : tensor F := tmap (fun v => fmax v fzero) x.

Definition tf_tanh (x : tensor F) : tensor F := tmap ftanh x.

(** [str.lower()], on the ASCII letters. *)
Definition lower_ascii (c : ascii) : ascii :=
  let n := nat_of_ascii c in
  if (65 <=? n) && (n <=? 90) then ascii_of_nat (n + 32) else c.

Fixpoint lower (s : string) : string :=
  match s with
  | EmptyString => EmptyString
  | String c s' => String (lower_ascii c) (lower s')
  end.

Definition unsupported_activation_msg : string := "Unsupported activation: %s".

(** [get_activation(activation_string)] *)
Definition get_activation (activation_string : pyval) : res pyval :=
  match activation_string with
  | PyStr s =>
      if String.eqb s "" then Ok PyNone
      else
        let act := lower s in
        if String.eqb act "linear" then Ok PyNone
        else if String.eqb act "relu" then Ok (PyCallable tf_nn_relu)
        else if String.eqb act "gelu" then Ok (PyCallable gelu)
        else if String.eqb act "tanh" then Ok (PyCallable tf_tanh)
        else Raise (ValueError unsupported_activation_msg)
  | _ => Ok activation_string
  end.

End Layers.

(* ===================================================================== *)
(** ** The functions of the module *)
(* ===================================================================== *)

Section Bert.
Context {S : Scalar} {R : Sampler S}.

(** [embedding_lookup(input_ids, vocab_size, embedding_size,
    initializer_range, word_embedding_name, use_one_hot_embeddings)] *)
Definition embedding_lookup (input_ids : tensor Z) (vocab_size embedding_size : Z)
    (initializer_range : F) (word_embedding_name : string)
    (use_one_hot_embeddings : bool) : build (tensor F * tensor F) :=
  (input_ids <- lift (if rank input_ids =? 2
                      then tf_expand_dims input_ids (-1)
                      else Ok input_ids) ;;
   embedding_table <- get_variable word_embedding_name [vocab_size; embedding_size]
                        (create_initializer initializer_range) ;;
   flat_input_ids <- lift (tf_reshape input_ids [(-1)%Z]) ;;
   output <- lift (if use_one_hot_embeddings then
                     (one_hot_input_ids <- tf_one_hot flat_input_ids vocab_size ;;
                      tf_matmul one_hot_input_ids embedding_table false)%res
                   else tf_gather embedding_table flat_input_ids) ;;
   input_shape <- lift (get_shape_list input_ids None) ;;
   last_dim <- lift (py_last input_shape) ;;
   output <- lift (tf_reshape output
                     (dims_of (py_init input_shape)
                      ++ [(Z.of_nat last_dim * embedding_size)%Z])) ;;
   ret (output, embedding_table))%build.

Definition token_type_ids_msg : string :=
  "`token_type_ids` must be specified if`use_token_type` is True.".

(** [embedding_postprocessor(...)] *)
Definition embedding_postprocessor (input_tensor : tensor F) (use_token_type : bool)
    (token_type_ids : option (tensor Z)) (token_type_vocab_size : Z)
    (token_type_embedding_name : string) (use_position_embeddings : bool)
    (position_embedding_name : string) (initializer_range : F)
    (max_position_embeddings : Z) (dropout_prob : option F) : build (tensor F) :=
  (input_shape <- lift (get_shape_list input_tensor (Some (RankInt 3))) ;;
   batch_size <- lift (py_nth input_shape 0) ;;
   seq_length <- lift (py_nth input_shape 1) ;;
   width <- lift (py_nth input_shape 2) ;;
   let output := input_tensor in
   output <-
     (if use_token_type then
        match token_type_ids with
        | None => raise (ValueError token_type_ids_msg)
        | Some token_type_ids =>
            token_type_table <- get_variable token_type_embedding_name
                                  [token_type_vocab_size; Z.of_nat width]
                                  (create_initializer initializer_range) ;;
            flat_token_type_ids <- lift (tf_reshape token_type_ids [(-1)%Z]) ;;
            one_hot_ids <- lift (tf_one_hot flat_token_type_ids token_type_vocab_size) ;;
            token_type_embeddings <- lift (tf_matmul one_hot_ids token_type_table false) ;;
            token_type_embeddings <- lift (tf_reshape token_type_embeddings
                                             (dims_of [batch_size; seq_length; width])) ;;
            lift (tf_add output token_type_embeddings)
        end
      else ret output) ;;
   output <-
     (if use_position_embeddings then
        _ <- (if (Z.of_nat seq_length <=? max_position_embeddings)%Z then ret tt
              else raise (InvalidArgumentError "assertion failed: x <= y")) ;;
        full_position_embeddings <- get_variable position_embedding_name
                                      [max_position_embeddings; Z.of_nat width]
                                      (create_initializer initializer_range) ;;
        position_embeddings <- lift (tf_slice_rows full_position_embeddings seq_length) ;;
        let num_dims := rank output in
        let position_broadcast_shape :=
          repeat 1 (num_dims - 2) ++ [seq_length; width] in
        position_embeddings <- lift (tf_reshape position_embeddings
                                       (dims_of position_broadcast_shape)) ;;
        lift (tf_add output position_embeddings)
      else ret output) ;;
   layer_norm_and_dropout output dropout_prob None)%build.

(** [create_attention_mask_from_input_mask(from_tensor, to_mask)] *)
Definition create_attention_mask_from_input_mask {A : Type}
    (from_tensor : tensor A) (to_mask : tensor Z) : res (tensor F) :=
  (from_shape <- get_shape_list from_tensor (Some (RankList [2; 3])) ;;
   batch_size <- py_nth from_shape 0 ;;
   from_seq_length <- py_nth from_shape 1 ;;
   to_shape <- get_shape_list to_mask (Some (RankInt 2)) ;;
   to_seq_length <- py_nth to_shape 1 ;;
   to_mask <- tf_reshape to_mask (dims_of [batch_size; 1; to_seq_length]) ;;
   let to_mask := tf_cast_float to_mask in
   let broadcast_ones := tf_ones [batch_size; from_seq_length; 1] in
   let mask := tf_mul broadcast_ones to_mask in
   mask)%res.

(** The local function [transpose_for_scores] of [attention_layer]. *)
Definition transpose_for_scores (input_tensor : tensor F)
    (batch_size num_attention_heads seq_length width : Z) : res (tensor F) :=
  (output_tensor <- tf_reshape input_tensor
                      [batch_size; seq_length; num_attention_heads; width] ;;
   output_tensor <- tf_transpose fzero output_tensor [0; 2; 1; 3] ;;
   Ok output_tensor)%res.

(** [1.0 / math.sqrt(float(size_per_head))]: [math.sqrt] rejects a
    negative argument and the division rejects a zero divisor. *)
Definition inv_sqrt (size_per_head : Z) : res F :=
  if (size_per_head <? 0)%Z then Raise (ValueError "math domain error")
  else if (size_per_head =? 0)%Z then Raise ZeroDivisionError
  else Ok (fdiv fone (fsqrt (of_Z size_per_head))).

(** The part of [attention_layer] from the two calls of
    [transpose_for_scores] to the scores handed to [tf.nn.softmax].  The
    mask reaches this function as a float tensor, on which the cast to
    [tf.float32] changes nothing. *)
Definition attention_scores (query_layer key_layer : tensor F)
    (attention_mask : option (tensor F))
    (num_attention_heads size_per_head batch_size from_seq_length to_seq_length : Z)
  : res (tensor F) :=
  (query_layer <- transpose_for_scores query_layer batch_size num_attention_heads
                    from_seq_length size_per_head ;;
   key_layer <- transpose_for_scores key_layer batch_size num_attention_heads
                  to_seq_length size_per_head ;;
   attention_scores <- tf_matmul query_layer key_layer true ;;
   scale <- inv_sqrt size_per_head ;;
   let attention_scores := tmap (fun v => fmul v scale) attention_scores in
   match attention_mask with
   | Some attention_mask =>
       attention_mask <- tf_expand_dims attention_mask 1 ;;
       let adder :=
         tmap (fun m => fmul (fsub fone m) (of_Z (-10000))) attention_mask in
       tf_add attention_scores adder
   | None => Ok attention_scores
   end)%res.

Definition rank_mismatch_msg : string :=
  "The rank of `from_tensor` must match the rank of `to_tensor`.".

Definition missing_hints_msg : string :=
  "When passing in rank 2 tensors to attention_layer, the values for `batch_size`, `from_seq_length`, and `to_seq_length` must all be specified.".

(** Using a hint that is still [None] as a dimension. *)
Definition need (hint : option Z) : res Z :=
  match hint with
  | Some z => Ok z
  | None => Raise TypeError
  end.

(** [attention_layer(...)] *)
Definition attention_layer (from_tensor to_tensor : tensor F)
    (attention_mask : option (tensor F))
    (num_attention_heads size_per_head : Z)
    (query_act key_act value_act : pyval)
    (attention_probs_dropout_prob : option F) (initializer_range : F)
    (do_return_2d_tensor : bool)
    (batch_size from_seq_length to_seq_length : option Z) : build (tensor F) :=
  (from_shape <- lift (get_shape_list from_tensor (Some (RankList [2; 3]))) ;;
   to_shape <- lift (get_shape_list to_tensor (Some (RankList [2; 3]))) ;;
   _ <- (if negb (length from_shape =? length to_shape)
         then raise (ValueError rank_mismatch_msg) else ret tt) ;;
   hints <-
     (if length from_shape =? 3 then
        b <- lift (py_nth from_shape 0) ;;
        f <- lift (py_nth from_shape 1) ;;
        t <- lift (py_nth to_shape 1) ;;
        ret (Some (Z.of_nat b), Some (Z.of_nat f), Some (Z.of_nat t))
      else if length from_shape =? 2 then
        match batch_size, from_seq_length, to_seq_length with
        | Some _, Some _, Some _ => ret (batch_size, from_seq_length, to_seq_length)
        | _, _, _ => raise (ValueError missing_hints_msg)
        end
      else ret (batch_size, from_seq_length, to_seq_length)) ;;
   let '(batch_size, from_seq_length, to_seq_length) := hints in
   from_tensor_2d <- lift (reshape_to_matrix from_tensor) ;;
   to_tensor_2d <- lift (reshape_to_matrix to_tensor) ;;
   query_layer <- tf_layers_dense from_tensor_2d (num_attention_heads * size_per_head)
                    query_act (Some "query") (create_initializer initializer_range) ;;
   key_layer <- tf_layers_dense to_tensor_2d (num_attention_heads * size_per_head)
                  key_act (Some "key") (create_initializer initializer_range) ;;
   value_layer <- tf_layers_dense to_tensor_2d (num_attention_heads * size_per_head)
                    value_act (Some "value") (create_initializer initializer_range) ;;
   batch_size <- lift (need batch_size) ;;
   from_seq_length <- lift (need from_seq_length) ;;
   to_seq_length <- lift (need to_seq_length) ;;
   scores <- lift (attention_scores query_layer key_layer attention_mask
                     num_attention_heads size_per_head
                     batch_size from_seq_length to_seq_length) ;;
   let attention_probs := tf_nn_softmax scores in
   attention_probs <- dropout attention_probs attention_probs_dropout_prob ;;
   value_layer <- lift (tf_reshape value_layer
                          [batch_size; to_seq_length; num_attention_heads; size_per_head]) ;;
   value_layer <- lift (tf_transpose fzero value_layer [0; 2; 1; 3]) ;;
   context_layer <- lift (tf_matmul attention_probs value_layer false) ;;
   context_layer <- lift (tf_transpose fzero context_layer [0; 2; 1; 3]) ;;
   context_layer <-
     lift (if do_return_2d_tensor then
             tf_reshape context_layer
               [(batch_size * from_seq_length)%Z; (num_attention_heads * size_per_head)%Z]
           else
             tf_reshape context_layer
               [batch_size; from_seq_length; (num_attention_heads * size_per_head)%Z]) ;;
   ret context_layer)%build.

End Bert.

Section Encoder.
Context {S : Scalar} {R : Sampler S}.

(** Python's [a % b] and [int(a / b)] on integers.  Under the
    [division] import of the module the quotient [a / b] is a float, the
    one nearest to the quotient of the two integers; there is none when
    the quotient is out of range, which is an [OverflowError].  [int]
    truncates the float. *)
Definition py_mod (a b : Z) : res Z :=
  if (b =? 0)%Z then Raise ZeroDivisionError else Ok (a mod b)%Z.

Definition py_int_div (a b : Z) : res Z :=
  if (b =? 0)%Z then Raise ZeroDivisionError
  else match ftruediv a b with
       | Some q => Ok (ftrunc q)
       | None => Raise OverflowError
       end.

Definition hidden_size_msg : string :=
  "The hidden size (%d) is not a multiple of the number of attention heads (%d)".

Definition input_width_msg : string :=
  "The width of the input tensor (%d) != hidden size (%d)".

(** What [transformer_model] returns: the list of all layer outputs, or
    the last one. *)
Inductive encoder_output : Type :=
| AllLayers (final_outputs : list (tensor F))
| FinalLayer (final_output : tensor F).

(** The body of the loop over the layers of [transformer_model]: from
    the output of the previous layer to the output of layer [layer_idx]. *)
Definition transformer_layer (layer_idx : nat) (prev_output : tensor F)
    (attention_mask : option (tensor F))
    (hidden_size num_attention_heads attention_head_size intermediate_size : Z)
    (intermediate_act_fn : pyval)
    (hidden_dropout_prob attention_probs_dropout_prob : option F)
    (initializer_range : F) (batch_size seq_length : nat) : build (tensor F) :=
  variable_scope ("layer_" ++ pretty layer_idx) (
    let layer_input := prev_output in
    attention_output <- variable_scope "attention" (
      attention_heads <- variable_scope "self" (
        attention_head <- attention_layer layer_input layer_input attention_mask
                            num_attention_heads attention_head_size
                            PyNone PyNone PyNone
                            attention_probs_dropout_prob initializer_range true
                            (Some (Z.of_nat batch_size)) (Some (Z.of_nat seq_length))
                            (Some (Z.of_nat seq_length)) ;;
        ret [attention_head]) ;;
      attention_output <-
        match attention_heads with
        | [attention_head] => ret attention_head
        | _ => raise (InvalidArgumentError "concat of several attention heads")
        end ;;
      variable_scope "output" (
        attention_output <- tf_layers_dense attention_output hidden_size PyNone None
                              (create_initializer initializer_range) ;;
        attention_output <- dropout attention_output hidden_dropout_prob ;;
        residual <- lift (tf_add attention_output layer_input) ;;
        layer_norm residual None)) ;;
    intermediate_output <- variable_scope "intermediate" (
      tf_layers_dense attention_output intermediate_size intermediate_act_fn None
        (create_initializer initializer_range)) ;;
    variable_scope "output" (
      layer_output <- tf_layers_dense intermediate_output hidden_size PyNone None
                        (create_initializer initializer_range) ;;
      layer_output <- dropout layer_output hidden_dropout_prob ;;
      residual <- lift (tf_add layer_output attention_output) ;;
      layer_norm residual None))%build.

(** [for layer_idx in range(num_hidden_layers)]: the loop threads
    [prev_output] and appends to [all_layer_outputs]. *)
Fixpoint transformer_layers (layer_idxs : list nat)
    (prev_output : tensor F) (all_layer_outputs : list (tensor F))
    (attention_mask : option (tensor F))
    (hidden_size num_attention_heads attention_head_size intermediate_size : Z)
    (intermediate_act_fn : pyval)
    (hidden_dropout_prob attention_probs_dropout_prob : option F)
    (initializer_range : F) (batch_size seq_length : nat)
  : build (tensor F * list (tensor F)) :=
  match layer_idxs with
  | [] => ret (prev_output, all_layer_outputs)
  | layer_idx :: rest =>
      (layer_output <- transformer_layer layer_idx prev_output attention_mask
                         hidden_size num_attention_heads attention_head_size
                         intermediate_size intermediate_act_fn
                         hidden_dropout_prob attention_probs_dropout_prob
                         initializer_range batch_size seq_length ;;
       transformer_layers rest layer_output (all_layer_outputs ++ [layer_output])
         attention_mask hidden_size num_attention_heads attention_head_size
         intermediate_size intermediate_act_fn
         hidden_dropout_prob attention_probs_dropout_prob
         initializer_range batch_size seq_length)%build
  end.

Fixpoint map_res {A B : Type} (f : A -> res B) (l : list A) : res (list B) :=
  match l with
  | [] => Ok []
  | a :: l' => (b <- f a ;; bs <- map_res f l' ;; Ok (b :: bs))%res
  end.

(** The statements of [transformer_model] that follow the computation of
    [attention_head_size]. *)
Definition transformer_model_body (attention_head_size : Z) (input_tensor : tensor F)
    (attention_mask : option (tensor F))
    (hidden_size num_hidden_layers num_attention_heads intermediate_size : Z)
    (intermediate_act_fn : pyval)
    (hidden_dropout_prob attention_probs_dropout_prob : option F)
    (initializer_range : F) (do_return_all_layers : bool) : build encoder_output :=
  (input_shape <- lift (get_shape_list input_tensor (Some (RankInt 3))) ;;
   batch_size <- lift (py_nth input_shape 0) ;;
   seq_length <- lift (py_nth input_shape 1) ;;
   input_width <- lift (py_nth input_shape 2) ;;
   _ <- (if negb (Z.of_nat input_width =? hidden_size)%Z
         then raise (ValueError input_width_msg) else ret tt) ;;
   prev_output <- lift (reshape_to_matrix input_tensor) ;;
   layers <- transformer_layers (seq 0 (Z.to_nat num_hidden_layers)) prev_output []
               attention_mask hidden_size num_attention_heads attention_head_size
               intermediate_size intermediate_act_fn
               hidden_dropout_prob attention_probs_dropout_prob
               initializer_range batch_size seq_length ;;
   let '(prev_output, all_layer_outputs) := layers in
   if do_return_all_layers then
     final_outputs <- lift (map_res (fun layer_output =>
                                       reshape_from_matrix layer_output input_shape)
                                    all_layer_outputs) ;;
     ret (AllLayers final_outputs)
   else
     final_output <- lift (reshape_from_matrix prev_output input_shape) ;;
     ret (FinalLayer final_output))%build.

(** [transformer_model(...)]: the divisibility check, the head width, and
    then the statements above. *)
Definition transformer_model (input_tensor : tensor F)
    (attention_mask : option (tensor F))
    (hidden_size num_hidden_layers num_attention_heads intermediate_size : Z)
    (intermediate_act_fn : pyval)
    (hidden_dropout_prob attention_probs_dropout_prob : option F)
    (initializer_range : F) (do_return_all_layers : bool) : build encoder_output :=
  (remainder <- lift (py_mod hidden_size num_attention_heads) ;;
   _ <- (if negb (remainder =? 0)%Z then raise (ValueError hidden_size_msg)
         else ret tt) ;;
   attention_head_size <- lift (py_int_div hidden_size num_attention_heads) ;;
   transformer_model_body attention_head_size input_tensor attention_mask
     hidden_size num_hidden_layers num_attention_heads intermediate_size
     intermediate_act_fn hidden_dropout_prob attention_probs_dropout_prob
     initializer_range do_return_all_layers)%build.

(** The attributes [BertModel.__init__] sets on [self]. *)
Record BertModel : Type := mk_model {
  embedding_output : tensor F;
  embedding_table : tensor F;
  all_encoder_layers : list (tensor F);
  sequence_output : tensor F;
  pooled_output : tensor F
}.

(** [copy.deepcopy(config)]: a new object with the same attributes. *)
Definition deepcopy (config : nat) : build nat :=
  fun g =>
    match heap g !! config with
    | Some c =>
        let l := fresh (dom (heap g)) in
        (Ok l, set_heap (<[l := c]> (heap g)) g)
    | None => (Raise TypeError, g)
    end.

(** Reading and updating the object a reference points to. *)
Definition read (config : nat) : build BertConfig :=
  fun g =>
    match heap g !! config with
    | Some c => (Ok c, g)
    | None => (Raise TypeError, g)
    end.

Definition update (config : nat) (f : BertConfig -> BertConfig) : build unit :=
  fun g =>
    match heap g !! config with
    | Some c => (Ok tt, set_heap (<[config := f c]> (heap g)) g)
    | None => (Raise TypeError, g)
    end.

Definition set_hidden_dropout_prob (p : option F) (c : BertConfig) : BertConfig :=
  mk_config (vocab_size c) (hidden_size c) (num_hidden_layers c)
    (num_attention_heads c) (intermediate_size c) (hidden_act c)
    p (attention_probs_dropout_prob c)
    (max_position_embeddings c) (type_vocab_size c) (initializer_range c).

Definition set_attention_probs_dropout_prob (p : option F) (c : BertConfig) : BertConfig :=
  mk_config (vocab_size c) (hidden_size c) (num_hidden_layers c)
    (num_attention_heads c) (intermediate_size c) (hidden_act c)
    (hidden_dropout_prob c) p
    (max_position_embeddings c) (type_vocab_size c) (initializer_range c).

(** The first statements of [BertModel.__init__]: the configuration is
    copied and, outside training, both dropout rates of the copy are set
    to [0.0].  The result is the reference the rest of the constructor
    uses as [config]. *)
Definition working_config (config : nat) (is_training : bool) : build nat :=
  (config <- deepcopy config ;;
   _ <- (if negb is_training then
           _ <- update config (set_hidden_dropout_prob (Some fzero)) ;;
           update config (set_attention_probs_dropout_prob (Some fzero))
         else ret tt) ;;
   ret config)%build.

(** [sequence_output[:, 0:1, :]] squeezed on axis 1. *)
Definition first_token (sequence_output : tensor F) : res (tensor F) :=
  match shape sequence_output with
  | [b; s; h] =>
      if s =? 0 then Raise (InvalidArgumentError "Can not squeeze dim[1], expected a dimension of 1")
      else Ok (tabulate [b; h] (fun idx =>
                 fget sequence_output [nth 0 idx 0; 0; nth 1 idx 0]))
  | _ => Raise (InvalidArgumentError "Index out of range using input dim 2")
  end.

(** [BertModel.__init__(self, config, is_training, input_ids, input_mask,
    token_type_ids, use_one_hot_embeddings, scope)] *)
Definition BertModel_init (config : nat) (is_training : bool)
    (input_ids : tensor Z) (input_mask token_type_ids : option (tensor Z))
    (use_one_hot_embeddings : bool) (scope : option string) : build BertModel :=
  (config <- working_config config is_training ;;
   input_shape <- lift (get_shape_list input_ids (Some (RankInt 2))) ;;
   batch_size <- lift (py_nth input_shape 0) ;;
   seq_length <- lift (py_nth input_shape 1) ;;
   let input_mask :=
     match input_mask with
     | Some m => m
     | None => tabulate [batch_size; seq_length] (fun _ => 1%Z)
     end in
   let token_type_ids :=
     match token_type_ids with
     | Some t => t
     | None => tabulate [batch_size; seq_length] (fun _ => 0%Z)
     end in
   variable_scope (default "bert" scope) (
     embeddings <- variable_scope "embeddings" (
       c <- read config ;;
       looked_up <- embedding_lookup input_ids (vocab_size c) (hidden_size c)
                      (initializer_range c) "word_embeddings" use_one_hot_embeddings ;;
       let '(embedding_output, embedding_table) := looked_up in
       c <- read config ;;
       embedding_output <- embedding_postprocessor embedding_output true
                             (Some token_type_ids) (type_vocab_size c)
                             "token_type_embeddings" true "position_embeddings"
                             (initializer_range c) (max_position_embeddings c)
                             (hidden_dropout_prob c) ;;
       ret (embedding_output, embedding_table)) ;;
     let '(embedding_output, embedding_table) := embeddings in
     all_encoder_layers <- variable_scope "encoder" (
       attention_mask <- lift (create_attention_mask_from_input_mask input_ids input_mask) ;;
       c <- read config ;;
       intermediate_act_fn <- lift (get_activation (hidden_act c)) ;;
       encoded <- transformer_model embedding_output (Some attention_mask)
                    (hidden_size c) (num_hidden_layers c) (num_attention_heads c)
                    (intermediate_size c) intermediate_act_fn
                    (hidden_dropout_prob c) (attention_probs_dropout_prob c)
                    (initializer_range c) true ;;
       match encoded with
       | AllLayers final_outputs => ret final_outputs
       | FinalLayer final_output => ret [final_output]
       end) ;;
     sequence_output <- match all_encoder_layers with
                        | [] => raise IndexError
                        | _ => ret (List.last all_encoder_layers (tf_zeros []))
                        end ;;
     pooled_output <- variable_scope "pooler" (
       first_token_tensor <- lift (first_token sequence_output) ;;
       c <- read config ;;
       tf_layers_dense first_token_tensor (hidden_size c) (PyCallable tf_tanh) None
         (create_initializer (initializer_range c))) ;;
     ret (mk_model embedding_output embedding_table all_encoder_layers
            sequence_output pooled_output)))%build.

End Encoder.

(* ===================================================================== *)
(** ** Exact rational arithmetic as an instance *)
(* ===================================================================== *)

(** The definitions are run on small inputs over the canonical rationals.
    The operations that leave the rationals (square root, exponential,
    hyperbolic tangent, pi) are represented by rational approximations;
    no theorem depends on their values. *)
Module Rational.

Definition of_int (z : Z) : Qc := Q2Qc (inject_Z z).

Definition eqb (x y : Qc) : bool := Qeq_bool x y.
Definition leb (x y : Qc) : bool := Qle_bool x y.
Definition ltb (x y : Qc) : bool := negb (Qle_bool y x).

Definition dec (m : Z) (e : nat) : Qc := Q2Qc (m # Pos.pow 10 (Pos.of_nat e)) .

Definition floor (x : Qc) : Qc := of_int (Qfloor x).

Definition sqrt (x : Qc) : Qc := Q2Qc (Z.sqrt (Qnum x) # Pos.sqrt (Qden x)).

Definition abs (x : Qc) : Qc := if leb (of_int 0) x then x else Qcopp x.

Definition tanh (x : Qc) : Qc := Qcdiv x (Qcplus (of_int 1) (abs x)).

Definition exp (x : Qc) : Qc :=
  Qcplus (of_int 1) (Qcplus x (Qcdiv (Qcmult x x) (of_int 2))).

Definition pow (x y : Qc) : Qc := Qcpower x (Z.to_nat (Qfloor y)).

Definition max (x y : Qc) : Qc := if leb x y then y else x.

#[export] Instance scalar : Scalar := {|
  F := Qc;
  fzero := of_int 0;
  fone := of_int 1;
  fadd := Qcplus;
  fsub := Qcminus;
  fmul := Qcmult;
  fdiv := Qcdiv;
  feqb := eqb;
  fltb := ltb;
  fleb := leb;
  of_Z := of_int;
  of_dec := dec;
  ffloor := floor;
  fsqrt := sqrt;
  frsqrt := fun x => Qcdiv (of_int 1) (sqrt x);
  fexp := exp;
  ftanh := tanh;
  fpow := pow;
  fmax := max;
  fpi := Q2Qc (355 # 113);
  ftruediv := fun a b => Some (Qcdiv (of_int a) (of_int b));
  ftrunc := fun x => Z.quot (Qnum x) (Zpos (Qden x))
|}.

(** A sampler for the examples: variables start at multiples of their
    spread and every uniform draw is one half. *)
#[export] Instance sampler : Sampler scalar := {|
  truncated_normal := fun stddev _ off => Qcmult stddev (of_int (Z.of_nat (off mod 3) - 1));
  random_uniform := fun _ _ => dec 5 1
|}.

Definition vec (sh : list nat) (l : list Z) : tensor Qc := mk_tensor sh (map of_int l).

End Rational.

(* ===================================================================== *)
(** ** Binary64 arithmetic as an instance *)
(* ===================================================================== *)

(** The definitions are also run on the binary64 numbers of Rocq, which
    follow IEEE 754 as the float32 numbers of the source do.  The
    exponential, the hyperbolic tangent and the power are short series,
    good enough for small arguments; no statement depends on them. *)
Module Binary64.

Definition float : Type := PrimFloat.float.

(** The float nearest to [m * 2 ^ e]. *)
Definition nearest (m e : Z) : float :=
  FloatOps.SF2Prim (SpecFloat.binary_normalize 53 1024 m e false).

Definition of_int (z : Z) : float := nearest z 0.

(** The float nearest to [a / b], for [b] other than 0: the quotient is
    computed to 64 bits and more, with a last bit that says whether
    anything was left, so that rounding it rounds [a / b]. *)
Definition ratio (a b : Z) : float :=
  let s := Z.max 0 (Z.log2 (Z.abs b) - Z.log2 (Z.abs a) + 64) in
  let n := (Z.abs a * 2 ^ s)%Z in
  let q := (n / Z.abs b)%Z in
  let sticky := if (n mod Z.abs b =? 0)%Z then 0%Z else 1%Z in
  let r := nearest (2 * q + sticky) (- s - 1) in
  if Bool.eqb (a <? 0)%Z (b <? 0)%Z then r else PrimFloat.opp r.

Definition is_finite (x : float) : bool :=
  PrimFloat.eqb (PrimFloat.sub x x) (of_int 0).

Definition true_div (a b : Z) : option float :=
  let q := ratio a b in if is_finite q then Some q else None.

Definition dec (m : Z) (e : nat) : float := ratio m (10 ^ Z.of_nat e).

(** [int(x)]: the integer part of a finite [x]. *)
Definition trunc (x : float) : Z :=
  match FloatOps.Prim2SF x with
  | SpecFloat.S754_finite s m e =>
      let v := if (0 <=? e)%Z then (Z.pos m * 2 ^ e)%Z
               else (Z.pos m / 2 ^ (- e))%Z in
      if s then (- v)%Z else v
  | _ => 0%Z
  end.

Definition floor (x : float) : float :=
  if negb (is_finite x) then x
  else if PrimFloat.leb (of_int (2 ^ 52)) (PrimFloat.abs x) then x
  else if PrimFloat.eqb x (of_int 0) then x
  else
    let n := of_int (trunc x) in
    if PrimFloat.ltb x n then PrimFloat.sub n (of_int 1) else n.

Definition max (x y : float) : float := if PrimFloat.leb x y then y else x.

Fixpoint power (x : float) (n : nat) : float :=
  match n with
  | O => of_int 1
  | Datatypes.S n' => PrimFloat.mul x (power x n')
  end.

Definition pow (x y : float) : float := power x (Z.to_nat (trunc y)).

Definition exp (x : float) : float :=
  fold_right (fun k acc =>
                PrimFloat.add (of_int 1)
                  (PrimFloat.mul (PrimFloat.div x (of_int (Z.of_nat k))) acc))
             (of_int 1) (seq 1 20).

Definition tanh (x : float) : float :=
  let e := exp (PrimFloat.mul (of_int 2) x) in
  PrimFloat.div (PrimFloat.sub e (of_int 1)) (PrimFloat.add e (of_int 1)).

#[export] Instance scalar : Scalar := {|
  F := float;
  fzero := of_int 0;
  fone := of_int 1;
  fadd := PrimFloat.add;
  fsub := PrimFloat.sub;
  fmul := PrimFloat.mul;
  fdiv := PrimFloat.div;
  feqb := PrimFloat.eqb;
  fltb := PrimFloat.ltb;
  fleb := PrimFloat.leb;
  of_Z := of_int;
  of_dec := dec;
  ffloor := floor;
  fsqrt := PrimFloat.sqrt;
  frsqrt := fun x => PrimFloat.div (of_int 1) (PrimFloat.sqrt x);
  fexp := exp;
  ftanh := tanh;
  fpow := pow;
  fmax := max;
  fpi := ratio 884279719003555 281474976710656;
  ftruediv := true_div;
  ftrunc := trunc
|}.

(** A sampler for the examples: variables start at their spread times
    -1, 0 or 1, and the uniform draws are one quarter at the even offsets
    and three quarters at the odd ones. *)
#[export] Instance sampler : Sampler scalar := {|
  truncated_normal := fun stddev _ off =>
    PrimFloat.mul stddev (of_int (Z.of_nat (off mod 3) - 1));
  random_uniform := fun _ off => if Nat.even off then dec 25 2 else dec 75 2
|}.

Definition vec (sh : list nat) (l : list Z) : tensor float :=
  mk_tensor sh (map of_int l).

(** The kinds of numbers, to tell the cells of two tensors apart. *)
Inductive kind : Type :=
| NaN
| PlusInfinity
| MinusInfinity
| PlusZero
| MinusZero
| Finite (negative : bool) (mantissa : positive) (exponent : Z).

Definition kind_of (x : float) : kind :=
  match FloatOps.Prim2SF x with
  | SpecFloat.S754_nan => NaN
  | SpecFloat.S754_infinity s => if s then MinusInfinity else PlusInfinity
  | SpecFloat.S754_zero s => if s then MinusZero else PlusZero
  | SpecFloat.S754_finite s m e => Finite s m e
  end.

(** The whole numbers among them. *)
Definition whole (z : Z) : kind := kind_of (of_int z).

End Binary64.

(* ===================================================================== *)
(** ** The vocabulary of the statements *)
(* ===================================================================== *)

Section Vocabulary.
Context {S : Scalar} {R : Sampler S}.

(** The value the source computes for one cell of the scores before the
    mask is applied: the dot product over the head width, times the
    scale. *)
Definition scaled_dot (q k : tensor F) (L T H b n f t : nat) : F :=
  fmul (dot H (fun h => fget q [b * L + f; n * H + h])
              (fun h => fget k [b * T + t; n * H + h]))
       (fdiv fone (fsqrt (of_Z (Z.of_nat H)))).

(** The additive bias of one cell: [(1.0 - mask) * -10000.0]. *)
Definition mask_bias (m : tensor F) (b f t : nat) : F :=
  fmul (fsub fone (fget m [b; f; t])) (of_Z (-10000)).

(** [survives keep node off]: cell [off] of the dropout node [node] is
    kept, which it is when the keep probability plus the uniform draw
    reaches 1. *)
Definition survives (keep : F) (node off : nat) : bool :=
  fleb fone (fadd keep (random_uniform node off)).

(** The nodes a call of [dropout] with probability [p] adds to the graph
    when it returns: none for [None], for [0.0] and for a keep probability
    equal to [1.0], and one, with keep probability [1 - p], otherwise. *)
Definition dropout_node (p : option F) : list F :=
  match p with
  | None => []
  | Some x =>
      if feqb x fzero then []
      else if feqb (fsub fone x) fone then [] else [fsub fone x]
  end.

(** The dropout nodes of one layer of the encoder, in the order they are
    added: on the attention probabilities, on the attention output, on
    the layer output. *)
Definition layer_dropout_nodes (hidden attention : option F) : list F :=
  dropout_node attention ++ dropout_node hidden ++ dropout_node hidden.

(** The dropout nodes of the whole model: on the embeddings, then layer
    by layer. *)
Definition model_dropout_nodes (hidden attention : option F) (layers : nat)
  : list F :=
  dropout_node hidden ++ concat (repeat (layer_dropout_nodes hidden attention) layers).

(** The state after creating the variables [new], in this order. *)
Definition with_variables (new : list (string * tensor F)) (g : graph) : graph :=
  set_variables (variables g ++ new) g.

(** [is_free name g]: no variable of [g] has the name [name]. *)
Definition is_free (name : string) (g : graph) : Prop :=
  ~ In name (map fst (variables g)).

(** The names [get_activation] knows, after lower-casing. *)
Definition activation_names : list string := ["linear"; "relu"; "gelu"; "tanh"].

(** The configuration with both dropout rates set to [0.0]. *)
Definition without_dropout (c : BertConfig) : BertConfig :=
  set_attention_probs_dropout_prob (Some fzero) (set_hidden_dropout_prob (Some fzero) c).

(** The two exceptions of [attention_layer]'s own checks on its inputs. *)
Definition is_rank_or_hint_error (e : exn) : bool :=
  match e with
  | ValueError msg =>
      String.eqb msg rank_mismatch_msg || String.eqb msg missing_hints_msg
  | _ => false
  end.

(** [clean r]: if [r] is an exception, it is not one of those two. *)
Definition clean {A : Type} (r : res A) : Prop :=
  forall e, r = Raise e -> is_rank_or_hint_error e = false.

(** [cleanb m]: from any state, the result of [m] is [clean]. *)
Definition cleanb {A : Type} (m : build A) : Prop :=
  forall g, clean (fst (m g)).

(** [keeps Rel m]: from any state, [m] ends in a state related to it by
    [Rel], whether it returns or raises. *)
Definition keeps (Rel : graph -> graph -> Prop) {A : Type} (m : build A) : Prop :=
  forall g, Rel g (snd (m g)).

(** The heap is the same, and the dropout log has grown by nodes whose
    keep probability satisfies [P]. *)
Definition steady (P : F -> Prop) (g g' : graph) : Prop :=
  heap g' = heap g
  /\ exists new, dropouts g' = dropouts g ++ new /\ Forall P new.

(** The probabilities for which [dropout] respects [steady P]: those that
    switch it off, and those whose keep probability satisfies [P]. *)
Definition allows (P : F -> Prop) (p : option F) : Prop :=
  match p with
  | None => True
  | Some x => feqb x fzero = true \/ P (fsub fone x)
  end.

(** [from P g1 m]: started in a state that is [steady P] with respect to
    [g1], [m] ends in one. *)
Definition from (P : F -> Prop) (g1 : graph) {A : Type} (m : build A) : Prop :=
  forall g, steady P g1 g -> steady P g1 (snd (m g)).

(** [same g g']: the heap and the dropout log are the same. *)
Definition same (g g' : graph) : Prop :=
  heap g' = heap g /\ dropouts g' = dropouts g.

(** [logs g1 new m]: started in a state with the heap of [g1], [m], when
    it returns, has left the heap as it was and added to the dropout log
    the nodes [new], in this order, and no other. *)
Definition logs (g1 : graph) (new : list F) {A : Type} (m : build A) : Prop :=
  forall g a g', heap g = heap g1 -> m g = (Ok a, g') ->
    heap g' = heap g1 /\ dropouts g' = dropouts g ++ new.

(** [rank_expected r expected_rank]: the rank [r] is the expected one, or
    one of the expected ones; without an expectation every rank is. *)
Definition rank_expected (r : nat) (expected_rank : option rank_spec) : Prop :=
  match expected_rank with
  | None => True
  | Some (RankInt n) => r = n
  | Some (RankList rs) => In r rs
  end.

(** [yields m Q]: whenever [m] returns, from whatever state, the value it
    returns satisfies [Q]. *)
Definition yields {A : Type} (m : build A) (Q : A -> Prop) : Prop :=
  forall g a, fst (m g) = Ok a -> Q a.

(** [matrix_of_width w t]: [t] is a matrix with [w] columns. *)
Definition matrix_of_width (w : nat) (t : tensor F) : Prop :=
  exists rows, shape t = [rows; w].

End Vocabulary.

(** A relation between the state before and after a computation that
    every statement of the module respects: it is a preorder, blind to
    the variable scope and to the creation of variables ([Frame]), and
    respected by [dropout] for the probabilities [ok] allows
    ([DropoutFrame]). *)
Class Frame {S : Scalar} (Rel : graph -> graph -> Prop) : Prop := {
  rel_refl : forall g, Rel g g;
  rel_trans : forall g1 g2 g3, Rel g1 g2 -> Rel g2 g3 -> Rel g1 g3;
  rel_scope : forall g sc, Rel g (set_scope sc g);
  rel_variables : forall g v, Rel g (set_variables v g)
}.

Class DropoutFrame {S : Scalar} {R : Sampler S}
    (Rel : graph -> graph -> Prop) (ok : option F -> Prop) : Prop := {
  rel_dropout : forall x p g, ok p -> Rel g (snd (dropout x p g))
}.

(* ===================================================================== *)
(** ** Concrete inputs *)
(* ===================================================================== *)

Module Examples.
Import Rational.

(** An empty graph. *)
Definition g0 : graph := mk_graph ∅ [] [] [].

(** A small configuration: a vocabulary of 3, width 2, one layer with one
    head, both dropout rates at one half. *)
Definition tiny_config : BertConfig :=
  mk_config 3 2 1 1 2 (PyStr "relu") (Some (dec 5 1)) (Some (dec 5 1)) 4 2
    (dec 1 0).

(** A graph whose heap holds that configuration at reference 0. *)
Definition g_config : graph := mk_graph {[ 0 := tiny_config ]} [] [] [].

(** The same with two layers and two different rates: one half on the
    hidden states, one quarter on the attention probabilities. *)
Definition two_rate_config : BertConfig :=
  mk_config 3 2 2 1 2 (PyStr "relu") (Some (dec 5 1)) (Some (dec 25 2)) 4 2
    (dec 1 0).

Definition g_two_rates : graph := mk_graph {[ 0 := two_rate_config ]} [] [] [].

Definition ids_1x2 : tensor Z := mk_tensor [1; 2] [2; 0]%Z.
Definition ids_2x3 : tensor Z := mk_tensor [2; 3] [5; 10; 99; 1; 2; 0]%Z.
Definition mask_1x5 : tensor Z := mk_tensor [1; 5] [1; 1; 1; 0; 0]%Z.
Definition from_1x2 : tensor Z := mk_tensor [1; 2] [7; 8]%Z.

Definition q_2x2 : tensor Qc := vec [2; 2] [1; 2; 3; 4]%Z.
Definition k_3x2 : tensor Qc := vec [3; 2] [1; 0; 0; 1; 1; 1]%Z.
Definition m_1x2x3 : tensor Qc := vec [1; 2; 3] [1; 1; 0; 1; 0; 1]%Z.
Definition x_2 : tensor Qc := vec [2] [3; 4]%Z.

(** The shape and the cells of a result, as plain fractions. *)
Definition cells (r : res (tensor Qc)) : res (list nat * list Q) :=
  match r with
  | Ok t => Ok (shape t, map (fun q : Qc => this q) (data t))
  | Raise e => Raise e
  end.

(** An empty graph of binary64 tensors, and the shape and the cells of a
    result on them. *)
Definition g0_binary64 : graph (S := Binary64.scalar) := mk_graph ∅ [] [] [].

Definition kinds (r : res (tensor Binary64.float))
  : res (list nat * list Binary64.kind) :=
  match r with
  | Ok t => Ok (shape t, map Binary64.kind_of (data t))
  | Raise e => Raise e
  end.

Definition ids_1_2 : tensor Z := mk_tensor [1; 2] [1; 2]%Z.

(** The first of two results. *)
Definition first_of {A B : Type} (r : res (A * B)) : res A :=
  match r with
  | Ok (a, _) => Ok a
  | Raise e => Raise e
  end.

(** A batch of one sequence of two positions of width 2, and what the
    encoder of two layers with one head returns on it. *)
Definition encoder_input : tensor Qc := vec [1; 2; 2] [1; 2; 3; 4]%Z.

Definition encoder_layers : encoder_output :=
  match fst (transformer_model encoder_input None 2 2 1 2 PyNone None None
               (dec 1 0) true g0) with
  | Ok out => out
  | Raise _ => FinalLayer encoder_input
  end.

End Examples.

(* ===================================================================== *)
(** ** The other functions of the module *)
(* ===================================================================== *)

(** *** [get_assignment_map_from_checkpoint] *)

(** Names are strings of bytes, on which [\d] is an ASCII digit. *)
Definition is_digit (c : ascii) : bool :=
  let n := nat_of_ascii c in (48 <=? n) && (n <=? 57).

Definition newline : ascii := ascii_of_nat 10.

Definition colon : ascii := ascii_of_nat 58.

Definition is_newline (c : ascii) : bool := Ascii.eqb c newline.

Fixpoint span_digits (l : list ascii) : list ascii * list ascii :=
  match l with
  | c :: l' =>
      if is_digit c then let '(ds, rest) := span_digits l' in (c :: ds, rest)
      else ([], l)
  | [] => ([], [])
  end.

(** The match of the name against the pattern "group, colon, digits,
    end", giving [m.group(1)]: the end is the end of the name or the
    place before a newline that ends it, the digits (one at least) run up
    to there, and the group, which the dot of the pattern keeps free of
    newlines, is what precedes the colon before the digits.  The name is
    scanned from its end. *)
Definition match_index_suffix (name : string) : option string :=
  let rev_name := rev (list_ascii_of_string name) in
  let rev_body :=
    match rev_name with
    | c :: rest => if is_newline c then rest else rev_name
    | [] => rev_name
    end in
  match span_digits rev_body with
  | (_ :: _, c :: rev_prefix) =>
      if Ascii.eqb c colon && negb (existsb is_newline rev_prefix)
      then Some (string_of_list_ascii (rev rev_prefix))
      else None
  | _ => None
  end.

(** A [tf.Variable], of which the function reads the name. *)
Record variable : Type := mk_variable {
  var_name : string;
  var_shape : list nat
}.

(** An [OrderedDict]: the items in the order their keys were first set. *)
Fixpoint od_set {V : Type} (k : string) (v : V) (d : list (string * V))
  : list (string * V) :=
  match d with
  | [] => [(k, v)]
  | (k', v') :: d' =>
      if String.eqb k' k then (k, v) :: d' else (k', v') :: od_set k v d'
  end.

Definition od_mem {V : Type} (k : string) (d : list (string * V)) : bool :=
  existsb (fun kv => String.eqb (fst kv) k) d.

(** The name under which a variable is entered in [name_to_variable]. *)
Definition checkpoint_name (var : variable) : string :=
  match match_index_suffix (var_name var) with
  | Some name => name
  | None => var_name var
  end.

(** The first loop: [name_to_variable]. *)
Definition name_to_variable (tvars : list variable) : list (string * variable) :=
  fold_left (fun d var => od_set (checkpoint_name var) var d) tvars [].

(** [get_assignment_map_from_checkpoint(tvars, init_checkpoint)], with
    the list [tf.train.list_variables(init_checkpoint)] returns as its
    second argument. *)
Definition get_assignment_map_from_checkpoint (tvars : list variable)
    (init_vars : list (string * list nat))
  : list (string * string) * gmap string Z :=
  let name_to_variable := name_to_variable tvars in
  fold_left
    (fun '(assignment_map, initialized_variable_names) x =>
       let name := fst x in
       if negb (od_mem name name_to_variable)
       then (assignment_map, initialized_variable_names)
       else (od_set name name assignment_map,
             <[ (name ++ ":0")%string := 1%Z ]>
               (<[ name := 1%Z ]> initialized_variable_names)))
    init_vars ([], ∅).

(** [digits s]: [s] is a non-empty string of ASCII digits. *)
Definition digits (s : string) : Prop :=
  s <> EmptyString /\ forallb is_digit (list_ascii_of_string s) = true.

(** [single_line s]: no character of [s] is a newline. *)
Definition single_line (s : string) : Prop :=
  existsb is_newline (list_ascii_of_string s) = false.

(** [indexed name prefix]: [name] is [prefix], a colon and digits, with
    at most a newline after them, and [prefix] is a single line. *)
Definition indexed (name prefix : string) : Prop :=
  single_line prefix
  /\ exists ds, digits ds
       /\ (name = (prefix ++ ":" ++ ds)%string
           \/ name = (prefix ++ ":" ++ ds ++ String newline EmptyString)%string).

(** *** [BertConfig.from_dict] and [BertConfig.to_dict] *)

Section ConfigDict.
Context {S : Scalar}.

(** The values a configuration attribute or a decoded JSON document can
    hold. *)
#[local] Set Warnings "-register-all".
Inductive pyobj : Type :=
| ONone
| OBool (b : bool)
| OInt (z : Z)
| OFloat (x : F)
| OStr (s : string)
| OList (l : list pyobj)
| ODict (d : list (string * pyobj)).

(** A [BertConfig] object as its [__dict__]. *)
Definition BertConfig___init__
    (vocab_size hidden_size num_hidden_layers num_attention_heads
     intermediate_size hidden_act hidden_dropout_prob
     attention_probs_dropout_prob max_position_embeddings type_vocab_size
     initializer_range : pyobj) : gmap string pyobj :=
  <[ "initializer_range"%string := initializer_range ]>
  (<[ "type_vocab_size"%string := type_vocab_size ]>
  (<[ "max_position_embeddings"%string := max_position_embeddings ]>
  (<[ "attention_probs_dropout_prob"%string := attention_probs_dropout_prob ]>
  (<[ "hidden_dropout_prob"%string := hidden_dropout_prob ]>
  (<[ "intermediate_size"%string := intermediate_size ]>
  (<[ "hidden_act"%string := hidden_act ]>
  (<[ "num_attention_heads"%string := num_attention_heads ]>
  (<[ "num_hidden_layers"%string := num_hidden_layers ]>
  (<[ "hidden_size"%string := hidden_size ]>
  (<[ "vocab_size"%string := vocab_size ]> ∅)))))))))).

(** [BertConfig(vocab_size)], the other parameters at their defaults. *)
Definition BertConfig_defaults (vocab_size : pyobj) : gmap string pyobj :=
  BertConfig___init__ vocab_size (OInt 768) (OInt 12) (OInt 12) (OInt 3072)
    (OStr "gelu") (OFloat (of_dec 1 1)) (OFloat (of_dec 1 1)) (OInt 512)
    (OInt 16) (OFloat (of_dec 2 2)).

(** [BertConfig.from_dict(json_object)] *)
Definition from_dict (json_object : gmap string pyobj) : gmap string pyobj :=
  let config := BertConfig_defaults ONone in
  map_fold (fun key value config => <[ key := value ]> config) config json_object.

(** [config.to_dict()]: a deep copy of [__dict__]; values are immutable
    here, so the copy is the dictionary itself. *)
Definition to_dict (config : gmap string pyobj) : gmap string pyobj := config.

(** The attributes [__init__] sets. *)
Definition config_attributes : list string :=
  ["vocab_size"; "hidden_size"; "num_hidden_layers"; "num_attention_heads";
   "intermediate_size"; "hidden_act"; "hidden_dropout_prob";
   "attention_probs_dropout_prob"; "max_position_embeddings";
   "type_vocab_size"; "initializer_range"]%string.

End ConfigDict.

(* ===================================================================== *)
(** * Lemmas and theorems *)
(* ===================================================================== *)

(* ===================================================================== *)
(** ** Indexing, reshaping and the round trip through a matrix *)
(* ===================================================================== *)

Section Indexing.

Lemma numel_cons d sh : numel (d :: sh) = d * numel sh.
Proof. reflexivity. Qed.

Lemma numel_app sh1 sh2 : numel (sh1 ++ sh2) = numel sh1 * numel sh2.
Proof.
  induction sh1 as [|d sh1 IH]; simpl.
  - lia.
  - rewrite IH. lia.
Qed.

Lemma in_bounds_numel_pos idx sh : in_bounds idx sh -> 0 < numel sh.
Proof.
  induction 1 as [|i d idx sh Hlt _ IH]; simpl; [lia|].
  apply Nat.mul_pos_pos; lia.
Qed.

Lemma ravel_lt idx sh : in_bounds idx sh -> ravel sh idx < numel sh.
Proof.
  induction 1 as [|i d idx sh Hlt _ IH]; simpl; [lia|].
  assert (i * numel sh + numel sh <= d * numel sh) by nia.
  lia.
Qed.

Lemma unravel_ravel idx sh : in_bounds idx sh -> unravel sh (ravel sh idx) = idx.
Proof.
  induction 1 as [|i d idx sh Hlt Hb IH]; simpl; [reflexivity|].
  pose proof (ravel_lt _ _ Hb) as Hr.
  assert (Hn : numel sh <> 0) by lia.
  rewrite Nat.div_add_l by exact Hn.
  rewrite (Nat.div_small _ _ Hr), Nat.add_0_r.
  rewrite Nat.add_comm, Nat.Div0.mod_add, (Nat.mod_small _ _ Hr), IH.
  reflexivity.
Qed.

Lemma unravel_in_bounds sh off : off < numel sh -> in_bounds (unravel sh off) sh.
Proof.
  revert off. induction sh as [|d sh IH]; intros off Hoff; simpl.
  - constructor.
  - rewrite numel_cons in Hoff.
    assert (Hn : numel sh <> 0) by (intros E; rewrite E in Hoff; lia).
    constructor.
    + apply Nat.Div0.div_lt_upper_bound. lia.
    + apply IH. apply Nat.mod_upper_bound. exact Hn.
Qed.

Lemma ravel_unravel sh off : off < numel sh -> ravel sh (unravel sh off) = off.
Proof.
  revert off. induction sh as [|d sh IH]; intros off Hoff; simpl.
  - simpl in Hoff. lia.
  - rewrite numel_cons in Hoff.
    assert (Hn : numel sh <> 0) by (intros E; rewrite E in Hoff; lia).
    rewrite IH by (apply Nat.mod_upper_bound; exact Hn).
    pose proof (Nat.div_mod_eq off (numel sh)). lia.
Qed.

Lemma tabulate_wf {A} sh (f : list nat -> A) : wf (tabulate sh f).
Proof. unfold wf, tabulate; simpl. rewrite length_map, length_seq. reflexivity. Qed.

Lemma tget_tabulate {A} (d : A) sh f idx :
  in_bounds idx sh -> tget d (tabulate sh f) idx = f idx.
Proof.
  intros Hb. unfold tget, tabulate; simpl.
  pose proof (ravel_lt _ _ Hb) as Hr.
  rewrite (nth_indep _ d (f (unravel sh 0))) by (rewrite length_map, length_seq; exact Hr).
  rewrite (map_nth (fun off => f (unravel sh off))).
  rewrite seq_nth by exact Hr. simpl.
  rewrite unravel_ravel by exact Hb. reflexivity.
Qed.

Lemma shape_tabulate {A} sh (f : list nat -> A) : shape (tabulate sh f) = sh.
Proof. reflexivity. Qed.

Lemma tabulate_ext {A} sh (f g : list nat -> A) :
  (forall idx, in_bounds idx sh -> f idx = g idx) -> tabulate sh f = tabulate sh g.
Proof.
  intros H. unfold tabulate. f_equal.
  apply map_ext_in. intros off Hin. apply in_seq in Hin.
  apply H. apply unravel_in_bounds. lia.
Qed.

End Indexing.

(** Split a bounds hypothesis on a shape of known rank into one bound per
    axis. *)
Ltac invert_bounds H :=
  unfold in_bounds in H;
  repeat match type of H with
         | Forall2 lt _ (_ :: _) =>
             let i := fresh "i" in
             let Hi := fresh "Hi" in
             let H' := fresh "Hb" in
             inversion H as [|i ? ? ? Hi H']; subst; clear H; rename H' into H
         | Forall2 lt _ [] => inversion H; subst; clear H
         end.

Lemma sizes_product_dims_of sh : sizes_product (dims_of sh) = numel sh.
Proof.
  induction sh as [|d sh IH]; cbn [dims_of map sizes_product fold_right numel];
    [reflexivity|].
  destruct (Z.eqb_spec (Z.of_nat d) (-1)) as [E|_]; [lia|].
  rewrite Nat2Z.id. f_equal. exact IH.
Qed.

Lemma fill_dims_dims_of m sh : fill_dims m (dims_of sh) = sh.
Proof.
  unfold fill_dims, dims_of. rewrite map_map.
  rewrite <- (map_id sh) at 2. apply map_ext. intros d.
  replace (Z.of_nat d =? -1)%Z with false by (symmetry; apply Z.eqb_neq; lia).
  apply Nat2Z.id.
Qed.

Lemma count_infer_dims_of sh : count_infer (dims_of sh) = 0.
Proof.
  unfold count_infer, dims_of. induction sh as [|d sh IH]; [reflexivity|].
  cbn [map List.filter].
  destruct (Z.eqb_spec (-1) (Z.of_nat d)) as [E|_]; [lia|exact IH].
Qed.

Lemma no_negative_dims_of sh : existsb (fun d => (d <? -1)%Z) (dims_of sh) = false.
Proof.
  unfold dims_of. induction sh as [|d sh IH]; [reflexivity|].
  cbn [map existsb].
  destruct (Z.ltb_spec (Z.of_nat d) (-1)) as [E|_]; [lia|exact IH].
Qed.

(** A reshape to fully specified extents keeps the buffer and succeeds
    exactly when the number of cells agrees. *)
Lemma tf_reshape_dims_of {A} (t : tensor A) sh :
  tf_reshape t (dims_of sh)
  = if numel sh =? numel (shape t) then Ok (mk_tensor sh (data t))
    else Raise (InvalidArgumentError "Input to reshape has a different number of values").
Proof.
  unfold tf_reshape.
  rewrite no_negative_dims_of, count_infer_dims_of.
  cbn [Nat.ltb Nat.leb Nat.eqb andb]. rewrite fill_dims_dims_of. reflexivity.
Qed.

Lemma tf_reshape_static {A} (t : tensor A) sh :
  numel sh = numel (shape t) ->
  tf_reshape t (dims_of sh) = Ok (mk_tensor sh (data t)).
Proof.
  intros Hn. rewrite tf_reshape_dims_of, Hn, Nat.eqb_refl. reflexivity.
Qed.

(** A reshape to [-1] followed by one extent [w]: the missing extent is
    the quotient of the number of cells by [w], and there is none for a
    [w] of zero. *)
Lemma tf_reshape_rows {A} (t : tensor A) (w : nat) :
  tf_reshape t [(-1)%Z; Z.of_nat w]
  = if w =? 0 then
      Raise (InvalidArgumentError "Reshape cannot infer the missing input size for an empty tensor unless all specified input sizes are non-zero")
    else if w * (numel (shape t) / w) =? numel (shape t) then
      Ok (mk_tensor [numel (shape t) / w; w] (data t))
    else
      Raise (InvalidArgumentError "The requested shape requires a multiple of the known sizes").
Proof.
  unfold tf_reshape. cbn [existsb List.existsb].
  destruct (Z.ltb_spec (-1) (-1)) as [?|_]; [lia|].
  destruct (Z.ltb_spec (Z.of_nat w) (-1)) as [?|_]; [lia|].
  cbn [orb]. unfold count_infer. cbn [List.filter].
  destruct (Z.eqb_spec (-1) (-1)) as [_|?]; [|lia].
  destruct (Z.eqb_spec (-1) (Z.of_nat w)) as [?|_]; [lia|].
  cbn [length Nat.ltb Nat.leb Nat.eqb andb].
  unfold sizes_product, fill_dims. cbn [fold_right map].
  destruct (Z.eqb_spec (-1) (-1)) as [_|?]; [|lia].
  destruct (Z.eqb_spec (Z.of_nat w) (-1)) as [?|_]; [lia|].
  rewrite Nat2Z.id, Nat.mul_1_r.
  destruct (Nat.eqb_spec w 0) as [->|Hw]; [reflexivity|].
  destruct (Nat.eqb_spec (w * (numel (shape t) / w)) (numel (shape t))) as [E|_];
    cbn [negb]; [|reflexivity].
  replace (numel [numel (shape t) / w; w] =? numel (shape t)) with true;
    [reflexivity|].
  symmetry. apply Nat.eqb_eq. cbn [numel fold_right]. lia.
Qed.

Section ShapeUtil.
Context {A : Type}.

Lemma py_last_snoc (l : list nat) w : py_last (l ++ [w]) = Ok w.
Proof.
  unfold py_last. destruct (l ++ [w]) eqn:E.
  - destruct l; discriminate.
  - rewrite <- E, last_last. reflexivity.
Qed.

(** Flattening a tensor of rank above 2 whose last extent is a positive
    [w] gives a matrix of width [w] over the same buffer. *)
Lemma reshape_to_matrix_last (t : tensor A) init w :
  shape t = init ++ [w] -> 2 < length (shape t) -> 0 < w ->
  reshape_to_matrix t = Ok (mk_tensor [numel init; w] (data t)).
Proof.
  intros Hsh Hr Hw. unfold reshape_to_matrix, rank.
  destruct (Nat.ltb_spec (length (shape t)) 2) as [?|_]; [lia|].
  destruct (Nat.eqb_spec (length (shape t)) 2) as [?|_]; [lia|].
  rewrite Hsh at 1. rewrite py_last_snoc. cbn [rbind]. rewrite tf_reshape_rows.
  destruct (Nat.eqb_spec w 0) as [?|_]; [lia|].
  assert (Hn : numel (shape t) = numel init * w).
  { rewrite Hsh, numel_app. cbn [numel fold_right]. lia. }
  assert (Hq : numel (shape t) / w = numel init).
  { rewrite Hn. apply Nat.div_mul. lia. }
  rewrite Hq.
  replace (w * numel init =? numel (shape t)) with true
    by (symmetry; apply Nat.eqb_eq; lia).
  reflexivity.
Qed.

(** With a last extent of zero the width handed to [tf.reshape] is zero,
    beside which the kernel does not compute the number of rows. *)
Lemma reshape_to_matrix_zero_width (t : tensor A) init :
  shape t = init ++ [0] -> 2 < length (shape t) ->
  reshape_to_matrix t
  = Raise (InvalidArgumentError "Reshape cannot infer the missing input size for an empty tensor unless all specified input sizes are non-zero").
Proof.
  intros Hsh Hr. unfold reshape_to_matrix, rank.
  destruct (Nat.ltb_spec (length (shape t)) 2) as [?|_]; [lia|].
  destruct (Nat.eqb_spec (length (shape t)) 2) as [?|_]; [lia|].
  rewrite Hsh at 1. rewrite py_last_snoc. cbn [rbind]. rewrite tf_reshape_rows.
  reflexivity.
Qed.

Lemma shape_snoc (sh : list nat) :
  0 < length sh -> sh = py_init sh ++ [List.last sh 0].
Proof.
  intros H. apply app_removelast_last. destruct sh; [simpl in H; lia|discriminate].
Qed.

(** Unflattening against the tensor's own shape restores it, at rank 2
    and, when the last extent is not zero, at any rank above. *)
Lemma reshape_round_trip_rank_ge_2 (t : tensor A) :
  2 <= rank t ->
  rank t = 2 \/ 0 < List.last (shape t) 0 ->
  (m <- reshape_to_matrix t ;;
   orig_shape <- get_shape_list t None ;;
   reshape_from_matrix m orig_shape)%res = Ok t.
Proof.
  intros Hr Hw. unfold rank in Hr, Hw.
  destruct (Nat.eq_dec (length (shape t)) 2) as [E2|N2].
  - unfold reshape_to_matrix, reshape_from_matrix, get_shape_list, rank.
    rewrite E2. cbn. rewrite E2. reflexivity.
  - destruct Hw as [?|Hw]; [contradiction|].
    pose proof (shape_snoc (shape t) ltac:(lia)) as Hsh.
    rewrite (reshape_to_matrix_last t _ _ Hsh ltac:(lia) Hw).
    cbn [rbind get_shape_list].
    unfold reshape_from_matrix.
    destruct (Nat.eqb_spec (length (shape t)) 2) as [?|_]; [lia|].
    cbn [get_shape_list rbind shape py_last List.last].
    rewrite <- Hsh.
    rewrite tf_reshape_static.
    + destruct t; reflexivity.
    + cbn [shape numel fold_right]. rewrite Hsh at 1. rewrite numel_app.
      cbn [numel fold_right]. lia.
Qed.

End ShapeUtil.

(** C2, as the code has it.  For a tensor [t] of rank 2 or 3,
    [reshape_from_matrix (reshape_to_matrix t) (get_shape_list t)]
    succeeds and returns [t] itself, same shape and same buffer, when the
    rank is 2 or the last extent is not zero; the other extents are
    arbitrary.  At rank 2 both functions return their argument.  At rank 3
    with a last extent of zero [reshape_to_matrix] raises, and so does the
    round trip: the reshape kernel of TensorFlow 1.x does not compute the
    extent [-1] beside an extent of zero. *)
Theorem reshape_round_trip {A : Type} (t : tensor A) :
  rank t = 2 \/ rank t = 3 ->
  (rank t = 2 \/ 0 < List.last (shape t) 0 ->
     (m <- reshape_to_matrix t ;;
      orig_shape <- get_shape_list t None ;;
      reshape_from_matrix m orig_shape)%res = Ok t)
  /\ (rank t = 2 ->
      reshape_to_matrix t = Ok t /\ reshape_from_matrix t (shape t) = Ok t)
  /\ (rank t = 3 -> List.last (shape t) 0 = 0 ->
      exists msg,
        reshape_to_matrix t = Raise (InvalidArgumentError msg)
        /\ (m <- reshape_to_matrix t ;;
            orig_shape <- get_shape_list t None ;;
            reshape_from_matrix m orig_shape)%res
           = Raise (InvalidArgumentError msg)).
Proof.
  intros Hr. split; [|split].
  - intros Hw. apply reshape_round_trip_rank_ge_2; [lia|exact Hw].
  - intros E. unfold reshape_to_matrix, reshape_from_matrix.
    unfold rank in E. unfold rank. rewrite E. split; reflexivity.
  - intros E Hz. unfold rank in E.
    pose proof (shape_snoc (shape t) ltac:(lia)) as Hsh. rewrite Hz in Hsh.
    eexists. rewrite (reshape_to_matrix_zero_width t _ Hsh ltac:(lia)).
    split; reflexivity.
Qed.

Lemma reshape_round_trip_witness :
  let t := mk_tensor [2; 0; 2] (@nil Z) in
  ((m <- reshape_to_matrix t ;;
    orig_shape <- get_shape_list t None ;;
    reshape_from_matrix m orig_shape)%res = Ok t)
  /\ (rank t = 2 ->
      reshape_to_matrix t = Ok t /\ reshape_from_matrix t (shape t) = Ok t)
  /\ (rank t = 3 -> List.last (shape t) 0 = 0 ->
      exists msg,
        reshape_to_matrix t = Raise (InvalidArgumentError msg)
        /\ (m <- reshape_to_matrix t ;;
            orig_shape <- get_shape_list t None ;;
            reshape_from_matrix m orig_shape)%res
           = Raise (InvalidArgumentError msg)).
Proof.
  intros t.
  destruct (reshape_round_trip t ltac:(right; reflexivity)) as (H1 & H2 & H3).
  split; [|split; assumption].
  apply H1. right. vm_compute. lia.
Defined.

(** A tensor of shape [[2, 3, 0]] is not reproduced: flattening it
    raises. *)
Lemma reshape_round_trip_counterexample :
  let t := mk_tensor [2; 3; 0] (@nil Z) in
  rank t = 3
  /\ is_ok (reshape_to_matrix t) = false
  /\ (m <- reshape_to_matrix t ;;
      orig_shape <- get_shape_list t None ;;
      reshape_from_matrix m orig_shape)%res <> Ok t.
Proof. cbv zeta. split; [reflexivity|]. split; [reflexivity|discriminate]. Qed.

Section TensorFacts.
Context {S : Scalar}.

Lemma fget_tmap {A} (f : A -> F) (d : A) (t : tensor A) idx :
  wf t -> in_bounds idx (shape t) ->
  fget (tmap f t) idx = f (tget d t idx).
Proof.
  intros Hwf Hb. unfold fget, tget, tmap; simpl.
  pose proof (ravel_lt _ _ Hb) as Hr. rewrite <- Hwf in Hr.
  rewrite (nth_indep _ fzero (f d)) by (rewrite length_map; exact Hr).
  apply map_nth.
Qed.

Lemma tmap_wf {A B} (f : A -> B) (t : tensor A) : wf t -> wf (tmap f t).
Proof. unfold wf, tmap; simpl. rewrite length_map. auto. Qed.

End TensorFacts.

(** The rational instance satisfies the laws. *)
Module RationalFacts.
Import Rational.

Lemma of_int_0 : of_int 0 = 0%Qc.
Proof. apply Qc_is_canon. reflexivity. Qed.

Lemma of_int_1 : of_int 1 = 1%Qc.
Proof. apply Qc_is_canon. reflexivity. Qed.

Lemma eqb_eq (x y : Qc) : eqb x y = true <-> x = y.
Proof.
  unfold eqb. rewrite Qeq_bool_iff. split.
  - apply Qc_is_canon.
  - intros ->. reflexivity.
Qed.

Lemma of_int_this (z : Z) : this (of_int z) = inject_Z z.
Proof.
  unfold of_int. cbn [this Q2Qc]. apply Qred_identity.
  cbn. apply Z.gcd_1_r.
Qed.

Lemma of_int_mul (a b : Z) : of_int (a * b) = (of_int a * of_int b)%Qc.
Proof.
  apply Qc_is_canon. cbn [this Qcmult Q2Qc]. rewrite !Qred_correct.
  unfold of_int. cbn [this Q2Qc]. rewrite !Qred_correct.
  unfold inject_Z, Qmult, Qeq. cbn. lia.
Qed.

Lemma of_int_neq_0 (n : Z) : n <> 0%Z -> of_int n <> Q2Qc 0.
Proof.
  intros Hn E. apply (f_equal this) in E. rewrite of_int_this in E.
  cbn in E. injection E as E. contradiction.
Qed.

(** The floor of a sum in (0, 2). *)
Lemma floor_sum (keep u : Qc) :
  ltb (of_int 0) keep = true -> leb keep (of_int 1) = true ->
  leb (of_int 0) u = true -> ltb u (of_int 1) = true ->
  floor (keep + u)%Qc = if leb (of_int 1) (keep + u)%Qc then of_int 1 else of_int 0.
Proof.
  unfold ltb, leb, floor. intros Hk0 Hk1 Hu0 Hu1.
  apply negb_true_iff in Hk0, Hu1.
  apply Qle_bool_iff in Hk1, Hu0.
  change (Qle_bool keep 0 = false) in Hk0.
  change (Qle_bool 1 u = false) in Hu1.
  change (keep <= 1)%Q in Hk1. change (0 <= u)%Q in Hu0.
  assert (Hk0' : (0 < keep)%Q).
  { apply Qnot_le_lt. intros H. apply Qle_bool_iff in H. congruence. }
  assert (Hu1' : (u < 1)%Q).
  { apply Qnot_le_lt. intros H. apply Qle_bool_iff in H. congruence. }
  set (s := this (keep + u)%Qc).
  assert (Hs : (s == keep + u)%Q).
  { unfold s. cbn [this Qcplus Q2Qc]. apply Qred_correct. }
  assert (Hlo : (0 < s)%Q).
  { rewrite Hs. apply Qlt_le_trans with (y := (keep + 0)%Q).
    - rewrite Qplus_0_r. exact Hk0'.
    - apply Qplus_le_r. exact Hu0. }
  assert (Hhi : (s < 2)%Q).
  { rewrite Hs. apply Qle_lt_trans with (y := (1 + u)%Q).
    - apply Qplus_le_l. exact Hk1.
    - change 2%Q with (1 + 1)%Q. apply Qplus_lt_r. exact Hu1'. }
  pose proof (Qfloor_le s) as Hfl. pose proof (Qlt_floor s) as Hfu.
  assert (Hf2 : (Qfloor s < 2)%Z).
  { rewrite Zlt_Qlt. eapply Qle_lt_trans; [exact Hfl|exact Hhi]. }
  assert (Hf0 : (0 <= Qfloor s)%Z).
  { assert (H : (0 < Qfloor s + 1)%Z).
    { rewrite Zlt_Qlt. eapply Qlt_trans; [exact Hlo|exact Hfu]. }
    lia. }
  change (Qle_bool (of_int 1) s) with (Qle_bool 1 s).
  destruct (Qle_bool 1 s) eqn:E.
  - apply Qle_bool_iff in E.
    assert (H : (1 < Qfloor s + 1)%Z).
    { rewrite Zlt_Qlt. eapply Qle_lt_trans; [exact E|exact Hfu]. }
    replace (Qfloor s) with 1%Z by lia. reflexivity.
  - assert (H : (Qfloor s < 1)%Z).
    { rewrite Zlt_Qlt. eapply Qle_lt_trans; [exact Hfl|].
      apply Qnot_le_lt. intros H. apply Qle_bool_iff in H.
      change (Qle_bool 1 s = true) in H. congruence. }
    replace (Qfloor s) with 0%Z by lia. reflexivity.
Qed.

#[export] Instance laws : ScalarLaws scalar.
Proof.
  constructor;
    cbn [F fzero fone fadd fsub fmul feqb fltb fleb ffloor ftruediv ftrunc scalar].
  - rewrite of_int_1. apply Qcmult_1_l.
  - rewrite of_int_1. apply Qcmult_1_r.
  - intros x _. rewrite of_int_0, Qcmult_0_l. apply eqb_eq. reflexivity.
  - intros x _. rewrite of_int_0, Qcmult_0_r. apply eqb_eq. reflexivity.
  - intros x _. rewrite of_int_0. apply Qcplus_0_l.
  - intros x z _ Hz. apply eqb_eq in Hz. subst z. rewrite of_int_0. apply Qcplus_0_r.
  - apply eqb_eq. reflexivity.
  - reflexivity.
  - rewrite of_int_0, of_int_1. unfold Qcminus. apply Qcplus_opp_r.
  - reflexivity.
  - intros keep u Hk0 Hk1 _ Hu0 Hu1. apply floor_sum; assumption.
  - intros n q Hn _. eexists. split; [reflexivity|].
    rewrite of_int_mul, Qcmult_comm, Qcdiv_mult_l by (apply of_int_neq_0; exact Hn).
    rewrite of_int_this. cbn. apply Z.quot_1_r.
Qed.

#[export] Instance sampler_laws : SamplerLaws scalar sampler.
Proof. constructor. intros node off. split; reflexivity. Qed.

(** Every rational is regular. *)
Lemma all_regular (x : Qc) : regular (S := scalar) x.
Proof.
  split.
  - unfold finite. cbn [F fsub feqb fzero scalar]. apply eqb_eq.
    rewrite of_int_0. unfold Qcminus. apply Qcplus_opp_r.
  - intros H. apply eqb_eq in H. exact H.
Qed.

End RationalFacts.

(* ===================================================================== *)
(** ** Attention scores *)
(* ===================================================================== *)

Section AttentionScores.
Context {S : Scalar}.

Lemma dot_ext k (a a' b b' : nat -> F) :
  (forall l, l < k -> a l = a' l /\ b l = b' l) -> dot k a b = dot k a' b'.
Proof.
  unfold dot. generalize fzero.
  induction k as [|k IH]; intros acc H; [reflexivity|].
  rewrite seq_S, !fold_left_app. cbn [fold_left Nat.add].
  rewrite (IH acc) by (intros l Hl; apply H; lia).
  destruct (H k ltac:(lia)) as [-> ->]. reflexivity.
Qed.

Lemma clip_cell d i : i < d -> (if d =? 1 then 0 else i) = i.
Proof. intros H. destruct (Nat.eqb_spec d 1); lia. Qed.

Lemma clip_index_in_bounds sh idx : in_bounds idx sh -> clip_index sh idx = idx.
Proof.
  induction 1 as [|i d idx sh Hlt _ IH]; [reflexivity|].
  cbn [clip_index]. rewrite clip_cell by exact Hlt. rewrite IH. reflexivity.
Qed.

Lemma in_bounds_4 b n f t B N Fr T :
  b < B -> n < N -> f < Fr -> t < T -> in_bounds [b; n; f; t] [B; N; Fr; T].
Proof. intros. repeat constructor; assumption. Qed.

(** [transpose_for_scores] reads the projection [x] of shape
    [[B * L, N * H]] as the tensor of shape [[B, N, L, H]] whose cell
    [(b, n, l, h)] is [x[b * L + l, n * H + h]]. *)
Lemma transpose_for_scores_cells (x : tensor F) (B N L H : nat) :
  shape x = [B * L; N * H] ->
  transpose_for_scores x (Z.of_nat B) (Z.of_nat N) (Z.of_nat L) (Z.of_nat H)
  = Ok (tabulate [B; N; L; H] (fun idx =>
          fget x [nth 0 idx 0 * L + nth 2 idx 0; nth 1 idx 0 * H + nth 3 idx 0])).
Proof.
  intros Hsh. unfold transpose_for_scores.
  change [Z.of_nat B; Z.of_nat L; Z.of_nat N; Z.of_nat H] with (dims_of [B; L; N; H]).
  rewrite tf_reshape_static
    by (rewrite Hsh; cbn [numel fold_right]; ring).
  cbn [rbind]. unfold tf_transpose, rank. cbn [shape length is_perm].
  cbn. f_equal. apply tabulate_ext. intros idx Hb.
  inversion Hb as [|b ? ? ? _ Hb1]; subst.
  inversion Hb1 as [|n ? ? ? _ Hb2]; subst.
  inversion Hb2 as [|l ? ? ? _ Hb3]; subst.
  inversion Hb3 as [|h ? ? ? _ Hb4]; subst.
  inversion Hb4; subst.
  unfold fget, tget. cbn [shape data nth]. rewrite Hsh.
  f_equal. cbn [ravel numel fold_right]. ring.
Qed.

(** [tf.matmul(q, k, transpose_b=True)] on the per-head layouts. *)
Lemma matmul_transpose_b_cells (fq fk : list nat -> F) (B N L T H : nat) :
  tf_matmul (tabulate [B; N; L; H] fq) (tabulate [B; N; T; H] fk) true
  = Ok (tabulate [B; N; L; T] (fun idx =>
          dot H (fun h => fq [nth 0 idx 0; nth 1 idx 0; nth 2 idx 0; h])
                (fun h => fk [nth 0 idx 0; nth 1 idx 0; nth 3 idx 0; h]))).
Proof.
  unfold tf_matmul, rank. cbn [tabulate shape length Nat.ltb Nat.leb Nat.eqb orb negb
    Nat.sub firstn nth].
  rewrite bool_decide_true by reflexivity. rewrite Nat.eqb_refl. cbn [negb orb app].
  f_equal. apply tabulate_ext. intros idx Hb. invert_bounds Hb.
  cbn [firstn nth app]. apply dot_ext. intros h Hh. split.
  - unfold fget. apply tget_tabulate. repeat constructor; assumption.
  - unfold fget. apply tget_tabulate. repeat constructor; assumption.
Qed.

Lemma inv_sqrt_pos (H : nat) :
  0 < H -> inv_sqrt (Z.of_nat H) = Ok (fdiv fone (fsqrt (of_Z (Z.of_nat H)))).
Proof.
  intros HH. unfold inv_sqrt.
  destruct (Z.ltb_spec (Z.of_nat H) 0); [lia|].
  destruct (Z.eqb_spec (Z.of_nat H) 0); [lia|]. reflexivity.
Qed.

Lemma broadcast_shape_heads (B N L T : nat) :
  broadcast_shape [B; N; L; T] [B; 1; L; T] = Some [B; N; L; T].
Proof.
  unfold broadcast_shape. cbn [rev app broadcast_rev].
  rewrite !Nat.eqb_refl. cbn [option_map].
  destruct (Nat.eqb_spec N 1) as [->|_]; reflexivity.
Qed.

End AttentionScores.

Section AttentionScoresSpec.
Context {S : Scalar}.

Lemma scaled_scores_cell (q k : tensor F) (B N L T H b n f t : nat) :
  b < B -> n < N -> f < L -> t < T ->
  fget (tmap (fun v => fmul v (fdiv fone (fsqrt (of_Z (Z.of_nat H)))))
          (tabulate [B; N; L; T] (fun idx =>
             dot H (fun h => fget q [nth 0 idx 0 * L + nth 2 idx 0;
                                     nth 1 idx 0 * H + h])
                   (fun h => fget k [nth 0 idx 0 * T + nth 3 idx 0;
                                     nth 1 idx 0 * H + h]))))
       [b; n; f; t]
  = scaled_dot q k L T H b n f t.
Proof.
  intros Hb Hn Hf Ht.
  rewrite (fget_tmap _ fzero)
    by (try apply tabulate_wf; apply in_bounds_4; assumption).
  rewrite tget_tabulate by (apply in_bounds_4; assumption).
  reflexivity.
Qed.

Lemma expand_dims_heads (m : tensor F) (B L T : nat) :
  shape m = [B; L; T] ->
  tf_expand_dims m 1 = Ok (mk_tensor [B; 1; L; T] (data m)).
Proof. intros Hsh. unfold tf_expand_dims, rank. rewrite Hsh. reflexivity. Qed.

(** C1. Given the query and key projections (matrices of shape
    [[B*L, N*H]] and [[B*T, N*H]]) and a head width [H > 0],
    [attention_layer] hands to the softmax a tensor of shape [[B, N, L, T]]
    whose cell [(b, n, f, t)] is the dot product of query row [b*L + f] and
    key row [b*T + t] over the columns of head [n], multiplied by
    [1 / sqrt H]; when a mask of shape [[B, L, T]] is supplied, the bias
    [(1 - mask[b, f, t]) * -10000] is added, the same for every head [n];
    without a mask nothing is added. *)
Theorem attention_scores_cells (q k : tensor F) (mask : option (tensor F))
    (B N L T H : nat) :
  shape q = [B * L; N * H] ->
  shape k = [B * T; N * H] ->
  0 < H ->
  (forall m, mask = Some m -> wf m /\ shape m = [B; L; T]) ->
  exists scores,
    attention_scores q k mask (Z.of_nat N) (Z.of_nat H)
      (Z.of_nat B) (Z.of_nat L) (Z.of_nat T) = Ok scores
    /\ shape scores = [B; N; L; T]
    /\ forall b n f t, b < B -> n < N -> f < L -> t < T ->
         fget scores [b; n; f; t] =
           match mask with
           | Some m => fadd (scaled_dot q k L T H b n f t) (mask_bias m b f t)
           | None => scaled_dot q k L T H b n f t
           end.
Proof.
  intros Hq Hk HH Hmask. unfold attention_scores.
  rewrite (transpose_for_scores_cells q B N L H Hq).
  rewrite (transpose_for_scores_cells k B N T H Hk).
  cbn [rbind]. rewrite matmul_transpose_b_cells. cbn [rbind nth].
  rewrite inv_sqrt_pos by exact HH. cbn [rbind].
  destruct mask as [m|].
  - destruct (Hmask m eq_refl) as [Hwf Hsh].
    rewrite (expand_dims_heads m B L T Hsh). cbn [rbind].
    unfold tf_add, tf_binop. cbn [shape tmap tabulate].
    rewrite broadcast_shape_heads.
    eexists. split; [reflexivity|]. split; [reflexivity|].
    intros b n f t Hb Hn Hf Ht.
    unfold fget at 1. rewrite tget_tabulate by (apply in_bounds_4; assumption).
    unfold broadcast_index. cbn [length Nat.sub skipn].
    rewrite clip_index_in_bounds by (apply in_bounds_4; assumption).
    cbn [clip_index]. rewrite Nat.eqb_refl.
    rewrite !clip_cell by assumption.
    f_equal.
    + apply (scaled_scores_cell q k B N L T H); assumption.
    + rewrite (fget_tmap _ fzero).
      * unfold mask_bias, fget, tget. cbn [shape data]. rewrite Hsh.
        do 3 f_equal. cbn [ravel numel fold_right]. ring.
      * unfold wf. cbn [shape data]. rewrite Hwf, Hsh. cbn [numel fold_right]. ring.
      * cbn [shape]. repeat constructor; assumption || lia.
  - eexists. split; [reflexivity|]. split; [reflexivity|].
    intros b n f t Hb Hn Hf Ht.
    apply (scaled_scores_cell q k B N L T H); assumption.
Qed.

End AttentionScoresSpec.

(* ===================================================================== *)
(** ** The attention mask *)
(* ===================================================================== *)

Section AttentionMask.
Context {S : Scalar} {L : ScalarLaws S}.

Lemma assert_rank_2_or_3 {A} (t : tensor A) :
  rank t = 2 \/ rank t = 3 -> assert_rank t (RankList [2; 3]) = Ok tt.
Proof.
  intros H. unfold assert_rank.
  rewrite bool_decide_true; [reflexivity|].
  destruct H as [-> | ->]; set_solver.
Qed.

Lemma assert_rank_int {A} (t : tensor A) r :
  rank t = r -> assert_rank t (RankInt r) = Ok tt.
Proof.
  intros H. unfold assert_rank.
  rewrite bool_decide_true; [reflexivity|]. rewrite H. set_solver.
Qed.

Lemma broadcast_shape_outer (B Lf T : nat) :
  broadcast_shape [B; Lf; 1] [B; 1; T] = Some [B; Lf; T].
Proof.
  unfold broadcast_shape. cbn [rev app broadcast_rev].
  rewrite !Nat.eqb_refl.
  destruct (Nat.eqb_spec 1 T) as [<-|_];
    destruct (Nat.eqb_spec Lf 1) as [->|_]; reflexivity.
Qed.

(** C4. For a from-tensor of rank 2 or 3 with leading extents [[B, Lf]]
    and a to-mask of shape [[B, T]], [create_attention_mask_from_input_mask]
    returns a tensor of shape [[B, Lf, T]] whose cell [(b, f, t)] is the
    to-mask entry [(b, t)] as a float, whatever the from-position [f]: all
    rows of a batch element are the same to-side row, and no from-position
    is masked on its own account. *)
Theorem create_attention_mask_cells {A : Type} (from_tensor : tensor A)
    (to_mask : tensor Z) (B Lf T : nat) (rest : list nat) :
  shape from_tensor = B :: Lf :: rest ->
  length rest <= 1 ->
  wf to_mask ->
  shape to_mask = [B; T] ->
  exists mask,
    create_attention_mask_from_input_mask from_tensor to_mask = Ok mask
    /\ shape mask = [B; Lf; T]
    /\ forall b f t, b < B -> f < Lf -> t < T ->
         fget mask [b; f; t] = of_Z (tget 0%Z to_mask [b; t]).
Proof.
  intros Hfrom Hrest Hwf Hto. unfold create_attention_mask_from_input_mask.
  unfold get_shape_list.
  rewrite assert_rank_2_or_3
    by (unfold rank; rewrite Hfrom; cbn [length];
        destruct rest as [|? [|? ?]]; cbn [length] in *; lia).
  rewrite (assert_rank_int to_mask 2) by (unfold rank; rewrite Hto; reflexivity).
  cbn [rbind]. rewrite Hfrom, Hto. cbn [py_nth nth_error rbind].
  rewrite tf_reshape_static by (rewrite Hto; cbn [numel fold_right]; ring).
  cbn [rbind]. unfold tf_mul, tf_binop, tf_ones, tf_cast_float.
  rewrite shape_tabulate. cbn [shape tmap].
  rewrite broadcast_shape_outer.
  eexists. split; [reflexivity|]. split; [reflexivity|].
  intros b f t Hb Hf Ht.
  unfold fget at 1. rewrite tget_tabulate by (repeat constructor; assumption).
  unfold broadcast_index. cbn [length Nat.sub skipn clip_index].
  rewrite Nat.eqb_refl. rewrite !clip_cell by assumption.
  unfold fget at 1. rewrite tget_tabulate by (repeat constructor; assumption || lia).
  rewrite fmul_1_l.
  change (mk_tensor [B; 1; T] (map of_Z (data to_mask)))
    with (tmap of_Z (mk_tensor [B; 1; T] (data to_mask))).
  rewrite (fget_tmap _ 0%Z).
  - unfold tget. cbn [shape data]. rewrite Hto.
    do 2 f_equal. cbn [ravel numel fold_right]. ring.
  - unfold wf. cbn [shape data]. rewrite Hwf, Hto. cbn [numel fold_right]. ring.
  - cbn [shape]. repeat constructor; assumption || lia.
Qed.

End AttentionMask.

(* ===================================================================== *)
(** ** The two embedding lookup strategies *)
(* ===================================================================== *)

Section Reshaped.
Context {A : Type}.

Lemma tf_reshape_ok (t r : tensor A) dims :
  tf_reshape t dims = Ok r ->
  data r = data t /\ numel (shape r) = numel (shape t)
  /\ length (shape r) = length dims.
Proof.
  unfold tf_reshape. intros H.
  repeat match type of H with
         | (if ?c then _ else _) = _ => destruct c eqn:?; try discriminate
         end.
  injection H as <-. cbn [data shape]. split; [reflexivity|].
  split; [apply Nat.eqb_eq; assumption|].
  unfold fill_dims. apply length_map.
Qed.

Lemma tf_expand_dims_ok (t r : tensor A) axis :
  tf_expand_dims t axis = Ok r ->
  data r = data t /\ numel (shape r) = numel (shape t).
Proof.
  unfold tf_expand_dims. intros H.
  destruct (_ || _)%bool; [discriminate|].
  injection H as <-. cbn [data shape]. split; [reflexivity|].
  rewrite numel_app, numel_cons, Nat.mul_1_l, <- numel_app, firstn_skipn.
  reflexivity.
Qed.

End Reshaped.

Section Embedding.
Context {S : Scalar} {L : ScalarLaws S} {R : Sampler S}.

Lemma dot_S k (a b : nat -> F) :
  dot (Datatypes.S k) a b = fadd (dot k a b) (fmul (a k) (b k)).
Proof. unfold dot. rewrite seq_S, fold_left_app. reflexivity. Qed.

Lemma not_negative_zero_0 : not_negative_zero fzero.
Proof. intros _. reflexivity. Qed.

(** A row of zeros times a column of finite numbers: every product is a
    zero, and the sum stays at [0.0]. *)
Lemma dot_zeros k (a b : nat -> F) :
  (forall l, l < k -> a l = fzero) -> (forall l, l < k -> finite (b l)) ->
  dot k a b = fzero.
Proof.
  induction k as [|k IH]; intros Ha Hb; [reflexivity|].
  rewrite dot_S, IH; [|intros l Hl; apply Ha; lia|intros l Hl; apply Hb; lia].
  rewrite Ha by lia. apply fadd_0_r.
  - apply not_negative_zero_0.
  - apply fmul_0_l, Hb. lia.
Qed.

(** A one-hot row times a column of regular numbers picks the entry at
    the hot position. *)
Lemma dot_one_hot (k : nat) (i : Z) (b : nat -> F) :
  (0 <= i < Z.of_nat k)%Z -> (forall l, l < k -> regular (b l)) ->
  dot k (fun l => if (i =? Z.of_nat l)%Z then fone else fzero) b = b (Z.to_nat i).
Proof.
  induction k as [|k IH]; intros Hi Hb; [lia|].
  rewrite dot_S.
  destruct (Z.eqb_spec i (Z.of_nat k)) as [->|Hne].
  - rewrite dot_zeros.
    + rewrite fmul_1_l, Nat2Z.id. apply fadd_0_l. apply Hb. lia.
    + intros l Hl. destruct (Z.eqb_spec (Z.of_nat k) (Z.of_nat l)); [lia|reflexivity].
    + intros l Hl. apply Hb. lia.
  - rewrite IH; [|lia|intros l Hl; apply Hb; lia].
    apply fadd_0_r.
    + apply Hb. lia.
    + apply fmul_0_l, Hb. lia.
Qed.

(** On a flat grid of valid ids and a table of regular numbers,
    multiplying the one-hot encoding by the table and gathering the rows
    of the table give the same tensor. *)
Lemma one_hot_matmul_gather (flat : tensor Z) (table : tensor F)
    (vocab_size : Z) (n E : nat) :
  wf flat -> shape flat = [n] ->
  (0 <= vocab_size)%Z ->
  shape table = [Z.to_nat vocab_size; E] ->
  Forall (fun id => (0 <= id < vocab_size)%Z) (data flat) ->
  (forall l e, l < Z.to_nat vocab_size -> e < E -> regular (fget table [l; e])) ->
  (one_hot_input_ids <- tf_one_hot flat vocab_size ;;
   tf_matmul one_hot_input_ids table false)%res
  = tf_gather table flat.
Proof.
  intros Hwf Hflat Hvocab Htable Hids Hreg.
  assert (Hcell : forall i, i < n -> (0 <= tget 0%Z flat [i] < vocab_size)%Z).
  { intros i Hi. unfold tget. rewrite Hflat. cbn [ravel numel fold_right].
    rewrite List.Forall_forall in Hids. apply Hids. apply nth_In.
    rewrite Hwf, Hflat. cbn [numel fold_right]. lia. }
  unfold tf_gather. rewrite Htable.
  replace (forallb _ (data flat)) with true.
  2:{ symmetry. apply forallb_forall. intros id Hin.
      rewrite List.Forall_forall in Hids. specialize (Hids id Hin).
      apply andb_true_iff. split; [apply Z.leb_le|apply Z.ltb_lt]; lia. }
  unfold tf_one_hot.
  destruct (Z.ltb_spec vocab_size 0) as [Hneg|_]; [lia|].
  cbn [rbind]. unfold tf_matmul, rank. rewrite Hflat, Htable.
  cbn [shape tabulate app length Nat.ltb Nat.leb Nat.eqb orb negb Nat.sub firstn nth].
  rewrite bool_decide_true by reflexivity. rewrite Nat.eqb_refl. cbn [negb orb app].
  f_equal. apply tabulate_ext. intros idx Hb. invert_bounds Hb.
  cbn [firstn skipn nth app length].
  rewrite (dot_ext _ _ (fun l => if (tget 0%Z flat [i] =? Z.of_nat l)%Z then fone else fzero)
             _ (fun l => fget table [l; i0])).
  - rewrite dot_one_hot; [reflexivity| |].
    + specialize (Hcell i Hi). lia.
    + intros l Hl. apply Hreg; assumption.
  - intros l Hl. split; [|reflexivity].
    change (mk_tensor [n; Z.to_nat vocab_size] ?d) with
      (tabulate [n; Z.to_nat vocab_size] (fun idx =>
         if (tget 0%Z flat (py_init idx) =? Z.of_nat (List.last idx 0))%Z
         then fone else fzero)).
    unfold fget. rewrite tget_tabulate by (repeat constructor; assumption).
    reflexivity.
Qed.

End Embedding.

Section EmbeddingLookup.
Context {S : Scalar} {L : ScalarLaws S} {R : Sampler S}.

Lemma get_variable_ok name dims i (g g' : graph) v :
  get_variable name dims i g = (Ok v, g') ->
  exists sh, static_shape dims = Ok sh /\ shape v = sh.
Proof.
  unfold get_variable. destruct (static_shape dims) as [sh|e]; [|discriminate].
  destruct (existsb _ _); [discriminate|].
  intros [= <- _]. exists sh. split; [reflexivity|].
  destruct i; reflexivity.
Qed.

(** What [get_variable] returns and leaves when it returns. *)
Lemma get_variable_returns name dims i (g g' : graph) v :
  get_variable name dims i g = (Ok v, g') ->
  exists sh, static_shape dims = Ok sh
             /\ v = initial_value i (scoped_name (scope g) name) sh
             /\ g' = with_variables [(scoped_name (scope g) name, v)] g.
Proof.
  unfold get_variable. destruct (static_shape dims) as [sh|e]; [|discriminate].
  destruct (existsb _ _); [discriminate|].
  intros [= <- <-]. exists sh. repeat split.
Qed.

(** A free name and non-negative extents are all [get_variable] asks
    for. *)
Lemma get_variable_free name (sh : list nat) i (g : graph) :
  is_free (scoped_name (scope g) name) g ->
  let v := initial_value i (scoped_name (scope g) name) sh in
  get_variable name (dims_of sh) i g
  = (Ok v, with_variables [(scoped_name (scope g) name, v)] g).
Proof.
  intros Hfree v. unfold get_variable, static_shape.
  replace (existsb (fun d => (d <? 0)%Z) (dims_of sh)) with false.
  2:{ symmetry. unfold dims_of. induction sh as [|d sh IH]; [reflexivity|].
      cbn [map existsb]. destruct (Z.ltb_spec (Z.of_nat d) 0); [lia|exact IH]. }
  replace (map Z.to_nat (dims_of sh)) with sh.
  2:{ unfold dims_of. rewrite map_map. rewrite <- (map_id sh) at 1.
      apply map_ext. intros d. symmetry. apply Nat2Z.id. }
  replace (existsb _ (map fst (variables g))) with false; [reflexivity|].
  symmetry. apply not_true_is_false. intros H.
  apply existsb_exists in H as (x & Hin & Hx). apply String.eqb_eq in Hx. subst x.
  exact (Hfree Hin).
Qed.

Lemma static_shape_2 (a b : Z) sh :
  static_shape [a; b] = Ok sh -> sh = [Z.to_nat a; Z.to_nat b] /\ (0 <= a)%Z.
Proof.
  unfold static_shape. cbn [existsb List.existsb].
  destruct (Z.ltb_spec a 0); [discriminate|].
  destruct (_ || _)%bool; [discriminate|].
  intros [= <-]. split; [reflexivity|assumption].
Qed.

(** Running a computation after another that has succeeded. *)
Lemma bind_ok {A B} (m : build A) (k : A -> build B) (g g' : graph) a :
  m g = (Ok a, g') -> bind m k g = k a g'.
Proof. intros H. unfold bind. rewrite H. reflexivity. Qed.

Lemma bind_raise {A B} (m : build A) (k : A -> build B) (g g' : graph) e :
  m g = (Raise e, g') -> bind m k g = (Raise e, g').
Proof. intros H. unfold bind. rewrite H. reflexivity. Qed.

(** The cells of a table drawn cell by cell. *)
Lemma truncated_normal_cells (stddev : F) (name : string) (V E l e : nat) :
  l < V -> e < E ->
  fget (initial_value (TruncatedNormal stddev) name [V; E]) [l; e]
  = truncated_normal stddev name (l * E + e).
Proof.
  intros Hl He. unfold fget, tget, initial_value. cbn [shape data ravel numel fold_right].
  replace (l * (E * 1) + (e * 1 + 0)) with (l * E + e) by lia.
  assert (Hlt : l * E + e < V * (E * 1)) by nia.
  rewrite (nth_indep _ fzero (truncated_normal stddev name 0))
    by (rewrite length_map, length_seq; exact Hlt).
  rewrite map_nth, seq_nth by exact Hlt. reflexivity.
Qed.

(** Flattening: [tf.reshape(t, [-1])]. *)
Lemma tf_reshape_flat {A} (t : tensor A) :
  tf_reshape t [(-1)%Z] = Ok (mk_tensor [numel (shape t)] (data t)).
Proof.
  unfold tf_reshape. cbn [existsb List.existsb].
  destruct (Z.ltb_spec (-1) (-1)) as [?|_]; [lia|].
  cbn [orb]. unfold count_infer. cbn [List.filter].
  destruct (Z.eqb_spec (-1) (-1)) as [_|?]; [|lia].
  cbn [length Nat.ltb Nat.leb Nat.eqb andb].
  unfold sizes_product, fill_dims. cbn [fold_right map].
  destruct (Z.eqb_spec (-1) (-1)) as [_|?]; [|lia].
  cbn [Nat.eqb andb]. rewrite Nat.div_1_r, Nat.mul_1_l, Nat.eqb_refl.
  cbn [negb numel fold_right]. rewrite Nat.mul_1_r, Nat.eqb_refl. reflexivity.
Qed.

(** C3, as the code has it.  Let the table [embedding_lookup] creates
    hold regular numbers only: finite, and no negative zero.  Then for a
    well-formed id grid all of whose entries lie in [0, vocab_size), the
    run with [use_one_hot_embeddings] set (one-hot encoding times the
    table) and the run with it cleared (rows gathered from the table)
    give the same result and leave the same state.  For a grid of shape
    [[B, L]], non-negative sizes and a name that is free, both return:
    the table, of shape [[vocab_size, embedding_size]], is the new
    variable and the only one created, and the output has shape
    [[B, L, embedding_size]] with cell [(b, l, e)] equal to cell
    [(input_ids[b, l], e)] of the table.  The range of the ids is
    assumed, not checked. *)
Theorem embedding_lookup_strategies (input_ids : tensor Z)
    (vocab_size embedding_size : Z) (initializer_range : F)
    (word_embedding_name : string) (g : graph) :
  let name := scoped_name (scope g) word_embedding_name in
  let table :=
    initial_value (create_initializer initializer_range) name
      [Z.to_nat vocab_size; Z.to_nat embedding_size] in
  wf input_ids ->
  Forall (fun id => (0 <= id < vocab_size)%Z) (data input_ids) ->
  (forall off, regular (truncated_normal initializer_range name off)) ->
  embedding_lookup input_ids vocab_size embedding_size initializer_range
    word_embedding_name true g
  = embedding_lookup input_ids vocab_size embedding_size initializer_range
      word_embedding_name false g
  /\ forall B L : nat,
       shape input_ids = [B; L] ->
       (0 <= vocab_size)%Z -> (0 <= embedding_size)%Z -> is_free name g ->
       exists output,
         embedding_lookup input_ids vocab_size embedding_size initializer_range
           word_embedding_name false g
         = (Ok (output, table), with_variables [(name, table)] g)
         /\ shape output = [B; L; Z.to_nat embedding_size]
         /\ forall b l e, b < B -> l < L -> e < Z.to_nat embedding_size ->
              fget output [b; l; e]
              = fget table [Z.to_nat (tget 0%Z input_ids [b; l]); e].
Proof.
  intros name table Hwf Hids Hreg. split.
  - unfold embedding_lookup.
    set (expanded := if rank input_ids =? 2 then tf_expand_dims input_ids (-1)
                     else Ok input_ids).
    destruct expanded as [ids'|e] eqn:Hexp; [|reflexivity].
    assert (Hids' : data ids' = data input_ids
                    /\ numel (shape ids') = numel (shape input_ids)).
    { subst expanded. destruct (rank input_ids =? 2).
      - apply (tf_expand_dims_ok _ _ _ Hexp).
      - injection Hexp as <-. split; reflexivity. }
    destruct Hids' as [Hd' Hn'].
    rewrite !(bind_ok (lift (Ok ids')) _ g g ids' eq_refl).
    destruct (get_variable word_embedding_name [vocab_size; embedding_size]
                (create_initializer initializer_range) g) as [[tbl|e] g1] eqn:Hvar.
    2:{ rewrite !(bind_raise _ _ _ _ _ Hvar). reflexivity. }
    rewrite !(bind_ok _ _ _ _ _ Hvar).
    destruct (get_variable_returns _ _ _ _ _ _ Hvar) as (sh & Hst & Htbl & _).
    destruct (static_shape_2 _ _ _ Hst) as [-> Hvocab].
    destruct (tf_reshape ids' [(-1)%Z]) as [flat|e] eqn:Hflat; [|reflexivity].
    destruct (tf_reshape_ok _ _ _ Hflat) as (Hfd & Hfn & Hfl).
    rewrite !(bind_ok (lift (Ok flat)) _ g1 g1 flat eq_refl).
    destruct (shape flat) as [|n [|? ?]] eqn:Hfs; try discriminate Hfl.
    rewrite (one_hot_matmul_gather flat tbl vocab_size n (Z.to_nat embedding_size)).
    + reflexivity.
    + unfold wf. rewrite Hfs, Hfd, Hd', Hwf, <- Hn', <- Hfn. reflexivity.
    + exact Hfs.
    + exact Hvocab.
    + rewrite Htbl. destruct (create_initializer initializer_range); reflexivity.
    + rewrite Hfd, Hd'. exact Hids.
    + intros l e Hl He. rewrite Htbl. unfold create_initializer.
      rewrite truncated_normal_cells by assumption. apply Hreg.
  - intros B Ln Hshape Hvocab Hemb Hfree.
    set (E := Z.to_nat embedding_size). set (V := Z.to_nat vocab_size).
    unfold embedding_lookup, rank. rewrite Hshape. cbn [length Nat.eqb].
    assert (Hexp : tf_expand_dims input_ids (-1)
                   = Ok (mk_tensor [B; Ln; 1] (data input_ids))).
    { unfold tf_expand_dims, rank. rewrite Hshape. reflexivity. }
    rewrite Hexp. rewrite (bind_ok (lift (Ok _)) _ g g _ eq_refl).
    assert (Hvar : get_variable word_embedding_name [vocab_size; embedding_size]
                     (create_initializer initializer_range) g
                   = (Ok table, with_variables [(name, table)] g)).
    { replace [vocab_size; embedding_size] with (dims_of [V; E])
        by (unfold dims_of, V, E; cbn [map]; rewrite !Z2Nat.id by assumption;
            reflexivity).
      apply get_variable_free. exact Hfree. }
    rewrite (bind_ok _ _ _ _ _ Hvar).
    set (g1 := with_variables [(name, table)] g).
    rewrite tf_reshape_flat. cbn [shape data numel fold_right].
    rewrite (bind_ok (lift (Ok _)) _ g1 g1 _ eq_refl).
    set (flat := mk_tensor [B * (Ln * (1 * 1))] (data input_ids)).
    assert (Hgather : tf_gather table flat
                      = Ok (tabulate [B * (Ln * (1 * 1)); E] (fun idx =>
                              fget table (Z.to_nat (tget 0%Z flat (firstn 1 idx))
                                          :: skipn 1 idx)))).
    { unfold tf_gather. unfold table at 1, create_initializer, initial_value.
      cbn [shape]. fold V E.
      replace (forallb _ (data flat)) with true; [reflexivity|].
      symmetry. apply forallb_forall. intros id Hin.
      rewrite List.Forall_forall in Hids. specialize (Hids id Hin).
      apply andb_true_iff. unfold V.
      split; [apply Z.leb_le|apply Z.ltb_lt]; lia. }
    rewrite Hgather. rewrite (bind_ok (lift (Ok _)) _ g1 g1 _ eq_refl).
    cbn [get_shape_list rbind shape].
    rewrite (bind_ok (lift (Ok _)) _ g1 g1 [B; Ln; 1] eq_refl).
    cbn [py_last List.last].
    rewrite (bind_ok (lift (Ok _)) _ g1 g1 1 eq_refl).
    replace (dims_of (py_init [B; Ln; 1]) ++ [(Z.of_nat 1 * embedding_size)%Z])
      with (dims_of [B; Ln; E]).
    2:{ unfold dims_of, E. cbn [py_init removelast map app].
        rewrite Z2Nat.id by assumption. repeat f_equal. lia. }
    rewrite tf_reshape_static
      by (rewrite shape_tabulate; cbn [numel fold_right]; lia).
    rewrite (bind_ok (lift (Ok _)) _ g1 g1 _ eq_refl).
    eexists. split; [reflexivity|]. split; [reflexivity|].
    intros b l e Hb Hl He.
    unfold fget at 1. unfold tget. cbn [shape data ravel numel fold_right].
    replace (b * (Ln * (E * 1)) + (l * (E * 1) + (e * 1 + 0)))
      with (ravel [B * (Ln * (1 * 1)); E] [b * Ln + l; e])
      by (cbn [ravel numel fold_right]; lia).
    change (nth (ravel [B * (Ln * (1 * 1)); E] [b * Ln + l; e])
              (data (tabulate [B * (Ln * (1 * 1)); E] ?f)) fzero)
      with (tget fzero (tabulate [B * (Ln * (1 * 1)); E] f) [b * Ln + l; e]).
    rewrite tget_tabulate by (repeat constructor; nia).
    cbn [firstn skipn]. do 3 f_equal.
    unfold tget, flat. cbn [shape data ravel numel fold_right]. rewrite Hshape.
    cbn [ravel numel fold_right]. f_equal. lia.
Qed.

End EmbeddingLookup.

(* ===================================================================== *)
(** ** Dropout *)
(* ===================================================================== *)

Section Dropout.
Context {S : Scalar} {L : ScalarLaws S} {R : Sampler S}.

Lemma bind_ret_r {A} (m : build A) (g : graph) :
  bind m (fun a => ret a) g = m g.
Proof. unfold bind, ret. destruct (m g) as [[a|e] g']; reflexivity. Qed.

(** With probability [1.0] the keep probability handed to
    [tf.nn.dropout] is [0.0], which it rejects. *)
Lemma dropout_probability_one (x : tensor F) (g : graph) :
  dropout x (Some fone) g = (Raise (ValueError tf_nn_dropout_msg), g).
Proof.
  unfold dropout. rewrite feqb_1_0, bind_ret_r.
  unfold tf_nn_dropout. rewrite fsub_1_1, fltb_0_0. reflexivity.
Qed.

(** One cell of a dropout node: the floor is 1 for a cell that is kept
    and 0 for one that is dropped. *)
Lemma dropout_cell_cases {SL : SamplerLaws S R} (keep xi : F) (node off : nat) :
  fltb fzero keep = true -> fleb keep fone = true -> feqb keep fone = false ->
  let cell :=
    fmul (fdiv xi keep) (ffloor (fadd keep (random_uniform node off))) in
  (survives keep node off = true -> cell = fdiv xi keep)
  /\ (survives keep node off = false ->
      cell = fmul (fdiv xi keep) fzero
      /\ (finite (fdiv xi keep) -> feqb cell fzero = true)).
Proof.
  intros Hlo Hhi Hne cell. subst cell.
  destruct (random_uniform_range node off) as [Hu0 Hu1].
  rewrite (ffloor_sum keep _ Hlo Hhi Hne Hu0 Hu1). unfold survives.
  split; intros ->.
  - apply fmul_1_r.
  - split; [reflexivity|]. apply fmul_0_r.
Qed.

(** C5, as the code has it.  [dropout] returns its input unchanged, and
    adds no node, when the probability is [None] or equal to [0.0].  For
    any other probability [p] it calls [tf.nn.dropout] with keep
    probability [1 - p]: when that lies in (0, 1) one node is added, the
    output has the shape of the input, a cell that is kept is the input
    cell divided by [1 - p], and a cell that is dropped is that quotient
    times [0.0], which is a zero whenever the quotient is finite.  With
    probability [1.0] the keep probability is [0.0], which
    [tf.nn.dropout] rejects with [ValueError]: no all-zero tensor is
    returned.  The uniform draws lie in [0, 1). *)
Theorem dropout_cases {SL : SamplerLaws S R} (x : tensor F) (g : graph) :
  dropout x None g = (Ok x, g)
  /\ (forall p, feqb p fzero = true -> dropout x (Some p) g = (Ok x, g))
  /\ dropout x (Some fone) g = (Raise (ValueError tf_nn_dropout_msg), g)
  /\ (forall p,
        let keep := fsub fone p in
        feqb p fzero = false ->
        fltb fzero keep = true -> fleb keep fone = true -> feqb keep fone = false ->
        exists output,
          dropout x (Some p) g = (Ok output, set_dropouts (dropouts g ++ [keep]) g)
          /\ shape output = shape x
          /\ length (data output) = length (data x)
          /\ forall off xi, data x !! off = Some xi ->
               exists cell,
                 data output !! off = Some cell
                 /\ (survives keep (length (dropouts g)) off = true ->
                     cell = fdiv xi keep)
                 /\ (survives keep (length (dropouts g)) off = false ->
                     cell = fmul (fdiv xi keep) fzero
                     /\ (finite (fdiv xi keep) -> feqb cell fzero = true))).
Proof.
  split; [reflexivity|]. split; [|split].
  - intros p Hp. unfold dropout. rewrite Hp. reflexivity.
  - apply dropout_probability_one.
  - intros p keep Hp Hlo Hhi Hne. unfold dropout. rewrite Hp, bind_ret_r.
    unfold tf_nn_dropout. fold keep. rewrite Hlo, Hhi, Hne. cbn [andb negb].
    eexists. split; [reflexivity|]. split; [reflexivity|].
    split; [cbn [data]; apply length_imap|].
    intros off xi Hx. cbn [data]. rewrite list_lookup_imap, Hx. cbn.
    eexists. split; [reflexivity|].
    apply (dropout_cell_cases keep xi _ off Hlo Hhi Hne).
Qed.

End Dropout.

(* ===================================================================== *)
(** ** Activations *)
(* ===================================================================== *)

Section Activation.
Context {S : Scalar}.

Lemma lower_ascii_idempotent c : lower_ascii (lower_ascii c) = lower_ascii c.
Proof.
  destruct c as [[] [] [] [] [] [] [] []]; reflexivity.
Qed.

Lemma lower_idempotent s : lower (lower s) = lower s.
Proof.
  induction s as [|c s IH]; [reflexivity|].
  cbn [lower]. rewrite lower_ascii_idempotent, IH. reflexivity.
Qed.

Lemma lower_empty s : lower s = EmptyString <-> s = EmptyString.
Proof. destruct s; cbn [lower]; split; intros H; congruence. Qed.

Lemma eqb_empty s : String.eqb s "" = true <-> s = EmptyString.
Proof. apply String.eqb_eq. Qed.

(** C7, as the code has it.  [get_activation] returns [None] for [None],
    for the empty string and for "linear"; [tf.nn.relu] (cell-wise maximum
    with zero) for "relu"; [tf.tanh] for "tanh"; [gelu], which computes
    [x * 0.5 * (1 + tanh (sqrt (2 / pi) * (x + 0.044715 * x^3)))] cell by
    cell, for "gelu".  Names are compared after lower-casing.  Every other
    non-empty string raises [ValueError]; a callable is returned as it is. *)
Theorem get_activation_cases :
  get_activation PyNone = Ok PyNone
  /\ get_activation (PyStr "") = Ok PyNone
  /\ get_activation (PyStr "linear") = Ok PyNone
  /\ get_activation (PyStr "relu") = Ok (PyCallable tf_nn_relu)
  /\ get_activation (PyStr "tanh") = Ok (PyCallable tf_tanh)
  /\ get_activation (PyStr "gelu") = Ok (PyCallable gelu)
  /\ (forall x, shape (tf_nn_relu x) = shape x
                /\ data (tf_nn_relu x) = map (fun v => fmax v fzero) (data x))
  /\ (forall x, shape (tf_tanh x) = shape x /\ data (tf_tanh x) = map ftanh (data x))
  /\ (forall x, shape (gelu x) = shape x
                /\ data (gelu x)
                   = map (fun v =>
                            fmul v (fmul (of_dec 5 1)
                              (fadd fone
                                (ftanh (fmul (fsqrt (fdiv (of_Z 2) fpi))
                                   (fadd v (fmul (of_dec 44715 6)
                                                 (fpow v (of_Z 3)))))))))
                         (data x))
  /\ (forall s, get_activation (PyStr s) = get_activation (PyStr (lower s)))
  /\ (forall s, s <> EmptyString -> ~ In (lower s) activation_names ->
        get_activation (PyStr s) = Raise (ValueError unsupported_activation_msg))
  /\ (forall f, get_activation (PyCallable f) = Ok (PyCallable f)).
Proof.
  repeat split; try reflexivity.
  - intros s. unfold get_activation. rewrite lower_idempotent.
    destruct (String.eqb_spec s "") as [->|Hne]; [reflexivity|].
    destruct (String.eqb_spec (lower s) "") as [E|_]; [|reflexivity].
    apply (proj1 (lower_empty s)) in E. congruence.
  - intros s Hne Hnot. unfold get_activation.
    destruct (String.eqb_spec s "") as [E|_]; [congruence|].
    unfold activation_names in Hnot. cbn [In] in Hnot.
    repeat match goal with
           | |- context [String.eqb (lower s) ?n] =>
               destruct (String.eqb_spec (lower s) n); [exfalso; intuition congruence|]
           end.
    reflexivity.
Qed.

End Activation.

(* ===================================================================== *)
(** ** The head-count check of [transformer_model] *)
(* ===================================================================== *)

Section HeadCheck.
Context {S : Scalar} {R : Sampler S}.


(** C6 at a head count of zero: the remainder [hidden_size %
    num_attention_heads] is what raises, with [ZeroDivisionError] and not
    the [ValueError] of the check; the state is the one the function was
    called in. *)
Theorem transformer_model_zero_heads (input_tensor : tensor F)
    (attention_mask : option (tensor F))
    (hidden_size num_hidden_layers intermediate_size : Z)
    (intermediate_act_fn : pyval)
    (hidden_dropout_prob attention_probs_dropout_prob : option F)
    (initializer_range : F) (do_return_all_layers : bool) (g : graph) :
  transformer_model input_tensor attention_mask hidden_size num_hidden_layers
    0 intermediate_size intermediate_act_fn
    hidden_dropout_prob attention_probs_dropout_prob initializer_range
    do_return_all_layers g
  = (Raise ZeroDivisionError, g).
Proof. reflexivity. Qed.

End HeadCheck.

(* ===================================================================== *)
(** ** What a computation leaves of the state *)
(* ===================================================================== *)

Section Keeps.
Context {S : Scalar} {R : Sampler S}.
Context (Rel : graph -> graph -> Prop) {Fr : Frame Rel}.

Lemma keeps_ret {A} (a : A) : keeps Rel (ret a).
Proof. intros g. apply rel_refl. Qed.

Lemma keeps_raise {A} e : keeps Rel (raise (A:=A) e).
Proof. intros g. apply rel_refl. Qed.

Lemma keeps_lift {A} (r : res A) : keeps Rel (lift r).
Proof. intros g. apply rel_refl. Qed.

Lemma keeps_bind {A B} (m : build A) (k : A -> build B) :
  keeps Rel m -> (forall a, keeps Rel (k a)) -> keeps Rel (bind m k).
Proof.
  intros Hm Hk g. unfold bind. specialize (Hm g).
  destruct (m g) as [[a|e] g']; cbn [snd] in *.
  - eapply rel_trans; [exact Hm|apply Hk].
  - exact Hm.
Qed.

Lemma keeps_variable_scope {A} name (body : build A) :
  keeps Rel body -> keeps Rel (variable_scope name body).
Proof.
  intros Hb g. unfold variable_scope.
  specialize (Hb (set_scope (scope g ++ [name]) g)).
  destruct (body _) as [r g']; cbn [snd] in *.
  eapply rel_trans; [apply rel_scope|].
  eapply rel_trans; [exact Hb|apply rel_scope].
Qed.

Lemma keeps_get_variable name dims i : keeps Rel (get_variable name dims i).
Proof.
  intros g. unfold get_variable.
  destruct (static_shape dims); [|apply rel_refl].
  destruct (existsb _ _); [apply rel_refl|]. apply rel_variables.
Qed.

Lemma keeps_dropout ok {D : DropoutFrame Rel ok} x p : ok p -> keeps Rel (dropout x p).
Proof. intros Hp g. apply rel_dropout. exact Hp. Qed.

End Keeps.

(** Decompose a [keeps] goal along the structure of the computation. *)
Ltac keeps_step :=
  lazymatch goal with
  | |- Frame _ => exact _
  | |- DropoutFrame _ _ => exact _
  | |- forall _, _ => intros ?
  | |- keeps _ (bind _ _) => apply keeps_bind
  | |- keeps _ (ret _) => apply keeps_ret
  | |- keeps _ (raise _) => apply keeps_raise
  | |- keeps _ (lift _) => apply keeps_lift
  | |- keeps _ (variable_scope _ _) => apply keeps_variable_scope
  | |- keeps _ (get_variable _ _ _) => apply keeps_get_variable
  | |- keeps _ (dropout _ _) => eapply keeps_dropout; try exact _; eassumption
  | |- keeps _ (if ?c then _ else _) => destruct c
  | |- keeps _ (match ?x with _ => _ end) => destruct x
  end.

Ltac keeps_auto := repeat keeps_step.

(** [m ;; k]: prove the first computation with [tac], then go on under
    the binder. *)
Tactic Notation "keeps_bind" "by" tactic(tac) :=
  apply keeps_bind; [exact _ | tac | intros ?].

Section KeepsLayers.
Context {S : Scalar} {R : Sampler S}.
Context (Rel : graph -> graph -> Prop) (ok : option F -> Prop).
Context {Fr : Frame Rel} {D : DropoutFrame Rel ok}.

Lemma keeps_dense inputs units activation name init :
  keeps Rel (tf_layers_dense inputs units activation name init).
Proof. unfold tf_layers_dense. keeps_auto. Qed.

Lemma keeps_layer_norm x name : keeps Rel (layer_norm x name).
Proof. unfold layer_norm. keeps_auto. Qed.

Lemma keeps_layer_norm_and_dropout x p name :
  ok p -> keeps Rel (layer_norm_and_dropout x p name).
Proof.
  intros Hp. unfold layer_norm_and_dropout.
  keeps_bind by (apply keeps_layer_norm). keeps_auto.
Qed.

Lemma keeps_embedding_lookup ids v e r name b :
  keeps Rel (embedding_lookup ids v e r name b).
Proof. unfold embedding_lookup. keeps_auto. Qed.

Lemma keeps_embedding_postprocessor x utt tti ttv ttn upe pen r mpe p :
  ok p -> keeps Rel (embedding_postprocessor x utt tti ttv ttn upe pen r mpe p).
Proof.
  intros Hp. unfold embedding_postprocessor.
  do 6 (keeps_bind by keeps_auto).
  apply keeps_layer_norm_and_dropout. exact Hp.
Qed.

Lemma keeps_attention_layer from to mask n h qa ka va p r two bs fl tl :
  ok p -> keeps Rel (attention_layer from to mask n h qa ka va p r two bs fl tl).
Proof.
  intros Hp. unfold attention_layer.
  do 4 (keeps_bind by keeps_auto).
  destruct a2 as [[? ?] ?].
  do 2 (keeps_bind by keeps_auto).
  do 3 (keeps_bind by (apply keeps_dense)).
  keeps_auto.
Qed.

Lemma keeps_transformer_layer idx prev mask hs n ah inter act ph pa r b s :
  ok ph -> ok pa ->
  keeps Rel (transformer_layer idx prev mask hs n ah inter act ph pa r b s).
Proof.
  intros Hph Hpa. unfold transformer_layer.
  apply keeps_variable_scope; [exact _|].
  keeps_bind by idtac.
  { apply keeps_variable_scope; [exact _|]. keeps_bind by idtac.
    - apply keeps_variable_scope; [exact _|].
      keeps_bind by (apply keeps_attention_layer; exact Hpa). keeps_auto.
    - keeps_bind by keeps_auto.
      apply keeps_variable_scope; [exact _|].
      keeps_bind by (apply keeps_dense).
      keeps_bind by keeps_auto.
      keeps_bind by keeps_auto.
      apply keeps_layer_norm. }
  keeps_bind by (apply keeps_variable_scope; [exact _|apply keeps_dense]).
  apply keeps_variable_scope; [exact _|].
  keeps_bind by (apply keeps_dense).
  keeps_bind by keeps_auto.
  keeps_bind by keeps_auto.
  apply keeps_layer_norm.
Qed.

Lemma keeps_transformer_layers idxs prev outs mask hs n ah inter act ph pa r b s :
  ok ph -> ok pa ->
  keeps Rel (transformer_layers idxs prev outs mask hs n ah inter act ph pa r b s).
Proof.
  intros Hph Hpa. revert prev outs.
  induction idxs as [|idx idxs IH]; intros prev outs; cbn [transformer_layers].
  - apply keeps_ret. exact _.
  - keeps_bind by (apply keeps_transformer_layer; assumption). apply IH.
Qed.

Lemma keeps_transformer_model_body ah x mask hs nl n inter act ph pa r all :
  ok ph -> ok pa ->
  keeps Rel (transformer_model_body ah x mask hs nl n inter act ph pa r all).
Proof.
  intros Hph Hpa. unfold transformer_model_body.
  do 6 (keeps_bind by keeps_auto).
  keeps_bind by (apply keeps_transformer_layers; assumption).
  destruct a5 as [? ?]. keeps_auto.
Qed.

Lemma keeps_transformer_model x mask hs nl n inter act ph pa r all :
  ok ph -> ok pa ->
  keeps Rel (transformer_model x mask hs nl n inter act ph pa r all).
Proof.
  intros Hph Hpa. unfold transformer_model.
  do 3 (keeps_bind by keeps_auto).
  apply keeps_transformer_model_body; assumption.
Qed.

End KeepsLayers.

(* ===================================================================== *)
(** ** The constructor of [BertModel]: configuration and dropout *)
(* ===================================================================== *)

Section Constructor.
Context {S : Scalar} {R : Sampler S}.

Lemma steady_refl P g : steady P g g.
Proof. split; [reflexivity|]. exists []. rewrite app_nil_r. split; [reflexivity|constructor]. Qed.

#[export] Instance steady_frame (P : F -> Prop) : Frame (steady P).
Proof.
  constructor.
  - apply steady_refl.
  - intros g1 g2 g3 [Hh1 (n1 & Hd1 & HP1)] [Hh2 (n2 & Hd2 & HP2)]. split.
    + congruence.
    + exists (n1 ++ n2). rewrite Hd2, Hd1, app_assoc. split; [reflexivity|].
      apply Forall_app. split; assumption.
  - intros g sc. apply (steady_refl P (set_scope sc g)).
  - intros g v. apply (steady_refl P (set_variables v g)).
Qed.

#[export] Instance steady_dropout (P : F -> Prop) : DropoutFrame (steady P) (allows P).
Proof.
  constructor. intros x p g Hp. unfold dropout.
  destruct p as [p|]; [|apply steady_refl].
  destruct (feqb p fzero) eqn:E; [apply steady_refl|].
  destruct Hp as [Hp|Hp]; [congruence|].
  unfold bind, ret, tf_nn_dropout.
  destruct (negb _); [apply steady_refl|].
  destruct (feqb (fsub fone p) fone); [apply steady_refl|].
  cbn [snd]. split; [reflexivity|].
  exists [fsub fone p]. split; [reflexivity|]. constructor; [exact Hp|constructor].
Qed.

(** What the first statements of the constructor do: the working
    configuration is a new object, a copy of the caller's, with both rates
    at [0.0] outside training and as the caller has them in training. *)
Lemma working_config_spec (config : nat) (is_training : bool) (g : graph) c :
  heap g !! config = Some c ->
  let l := fresh (dom (heap g)) in
  let c' := if is_training then c else without_dropout c in
  heap g !! l = None
  /\ working_config config is_training g
     = (Ok l, set_heap (<[l := c']> (heap g)) g).
Proof.
  intros Hc l c'.
  assert (Hfresh : heap g !! l = None).
  { apply not_elem_of_dom. apply is_fresh. }
  split; [exact Hfresh|].
  unfold working_config, deepcopy, update, bind, ret. rewrite Hc. fold l.
  destruct is_training; cbn [negb heap set_heap].
  - reflexivity.
  - rewrite lookup_insert_eq. cbn [heap set_heap].
    rewrite lookup_insert_eq. cbn [heap set_heap variables dropouts scope].
    rewrite !insert_insert_eq. reflexivity.
Qed.

Lemma working_config_dangling (config : nat) (is_training : bool) (g : graph) :
  heap g !! config = None ->
  working_config config is_training g = (Raise TypeError, g).
Proof.
  intros Hc. unfold working_config, deepcopy, bind. rewrite Hc. reflexivity.
Qed.

Section From.
Context (P : F -> Prop) (g1 : graph).

Lemma from_keeps {A} (m : build A) : keeps (steady P) m -> from P g1 m.
Proof. intros H g Hg. eapply rel_trans; [exact Hg|apply H]. Qed.

Lemma from_bind {A B} (m : build A) (k : A -> build B) :
  from P g1 m -> (forall a, from P g1 (k a)) -> from P g1 (bind m k).
Proof.
  intros Hm Hk g Hg. unfold bind. specialize (Hm g Hg).
  destruct (m g) as [[a|e] g']; cbn [snd] in *.
  - apply Hk. exact Hm.
  - exact Hm.
Qed.

Lemma from_variable_scope {A} name (body : build A) :
  from P g1 body -> from P g1 (variable_scope name body).
Proof.
  intros Hb g Hg. unfold variable_scope.
  assert (Hin : steady P g1 (set_scope (scope g ++ [name]) g))
    by (eapply rel_trans; [exact Hg|apply rel_scope]).
  specialize (Hb _ Hin). destruct (body _) as [r g']; cbn [snd] in *.
  eapply rel_trans; [exact Hb|apply rel_scope].
Qed.

(** Reading the working configuration gives the object [g1] holds. *)
Lemma from_read {B} (l : nat) (c : BertConfig) (k : BertConfig -> build B) :
  heap g1 !! l = Some c -> from P g1 (k c) -> from P g1 (bind (read l) k).
Proof.
  intros Hl Hk g Hg. unfold bind, read.
  destruct Hg as [Hh Hd]. rewrite Hh, Hl. apply Hk. split; assumption.
Qed.

End From.

(** The constructor after the working configuration [l] has been set up,
    when [P] allows the rates of that configuration. *)
Lemma BertModel_init_steady (P : F -> Prop) (config : nat) (is_training : bool)
    (input_ids : tensor Z) (input_mask token_type_ids : option (tensor Z))
    (use_one_hot_embeddings : bool) (scope : option string)
    (g g1 : graph) (l : nat) (c : BertConfig) :
  working_config config is_training g = (Ok l, g1) ->
  heap g1 !! l = Some c ->
  allows P (hidden_dropout_prob c) ->
  allows P (attention_probs_dropout_prob c) ->
  steady P g1 (snd (BertModel_init config is_training input_ids input_mask
                      token_type_ids use_one_hot_embeddings scope g)).
Proof.
  intros Hwc Hl Hph Hpa. unfold BertModel_init.
  rewrite (bind_ok _ _ _ _ _ Hwc).
  match goal with |- steady P g1 (snd (?m g1)) => enough (from P g1 m) as Hfrom end.
  { apply Hfrom. apply steady_refl. }
  do 3 (apply from_bind; [apply from_keeps; keeps_auto|intros ?]).
  apply from_variable_scope.
  apply from_bind.
  { apply from_variable_scope. apply (from_read P g1 l c _ Hl).
    apply from_bind; [apply from_keeps, keeps_embedding_lookup; exact _|intros [? ?]].
    apply (from_read P g1 l c _ Hl).
    apply from_bind; [|intros ?; apply from_keeps; keeps_auto].
    apply from_keeps. eapply keeps_embedding_postprocessor; [exact _|exact _|exact Hph]. }
  intros [? ?]. apply from_bind.
  { apply from_variable_scope.
    apply from_bind; [apply from_keeps; keeps_auto|intros ?].
    apply (from_read P g1 l c _ Hl).
    apply from_bind; [apply from_keeps; keeps_auto|intros ?].
    apply from_bind; [|intros ?; apply from_keeps; keeps_auto].
    apply from_keeps. eapply keeps_transformer_model; [exact _|exact _|exact Hph|exact Hpa]. }
  intros ?. apply from_bind; [apply from_keeps; keeps_auto|intros ?].
  apply from_bind; [|intros ?; apply from_keeps; keeps_auto].
  apply from_variable_scope.
  apply from_bind; [apply from_keeps; keeps_auto|intros ?].
  apply (from_read P g1 l c _ Hl).
  apply from_keeps. apply keeps_dense. exact _.
Qed.

End Constructor.

Section Logs.
Context {S : Scalar} {R : Sampler S}.

#[export] Instance same_frame : Frame same.
Proof.
  constructor.
  - intros g. split; reflexivity.
  - intros g1 g2 g3 [H1 H2] [H3 H4]. split; congruence.
  - intros g sc. split; reflexivity.
  - intros g v. split; reflexivity.
Qed.

#[export] Instance same_dropout : DropoutFrame same (fun p => dropout_node p = []).
Proof.
  constructor. intros x p g Hp. unfold dropout_node in Hp. unfold dropout.
  destruct p as [p|]; [|split; reflexivity].
  destruct (feqb p fzero); [split; reflexivity|].
  unfold bind, ret, tf_nn_dropout.
  destruct (negb _); [split; reflexivity|].
  destruct (feqb (fsub fone p) fone); [split; reflexivity|discriminate Hp].
Qed.

Section From.
Context (g1 : graph).

Lemma logs_keeps {A} (m : build A) : keeps same m -> logs g1 [] m.
Proof.
  intros H g a g' Hg E. destruct (H g) as [Hh Hd]. rewrite E in Hh, Hd.
  cbn [snd] in Hh, Hd. rewrite app_nil_r. split; congruence.
Qed.

Lemma logs_bind {A B} (n1 n2 new : list F) (m : build A) (k : A -> build B) :
  new = n1 ++ n2 ->
  logs g1 n1 m -> (forall a, logs g1 n2 (k a)) -> logs g1 new (bind m k).
Proof.
  intros -> Hm Hk g b g' Hg. unfold bind.
  destruct (m g) as [[a|e] g2] eqn:E; [|discriminate].
  destruct (Hm g a g2 Hg E) as [Hh Hd]. intros E2.
  destruct (Hk a g2 b g' Hh E2) as [Hh' Hd'].
  split; [exact Hh'|]. rewrite Hd', Hd, app_assoc. reflexivity.
Qed.

(** A computation that leaves the log as it is, and then another. *)
Lemma logs_after {A B} (new : list F) (m : build A) (k : A -> build B) :
  keeps same m -> (forall a, logs g1 new (k a)) -> logs g1 new (bind m k).
Proof.
  intros Hm Hk. apply (logs_bind [] new); [reflexivity|apply logs_keeps; exact Hm|exact Hk].
Qed.

(** A computation, and then another that leaves the log as it is. *)
Lemma logs_before {A B} (new : list F) (m : build A) (k : A -> build B) :
  logs g1 new m -> (forall a, keeps same (k a)) -> logs g1 new (bind m k).
Proof.
  intros Hm Hk. apply (logs_bind new []); [symmetry; apply app_nil_r|exact Hm|].
  intros a. apply logs_keeps, Hk.
Qed.

Lemma logs_variable_scope {A} new name (body : build A) :
  logs g1 new body -> logs g1 new (variable_scope name body).
Proof.
  intros Hb g a g' Hg. unfold variable_scope.
  destruct (body _) as [r g2] eqn:E. intros [= -> <-].
  destruct (Hb (set_scope (scope g ++ [name]) g) a g2 Hg E) as [Hh Hd].
  split; [exact Hh|exact Hd].
Qed.

Lemma logs_dropout x p : logs g1 (dropout_node p) (dropout x p).
Proof.
  intros g a g' Hg. unfold dropout, dropout_node.
  destruct p as [p|]; [|intros [= _ <-]; rewrite app_nil_r; auto].
  destruct (feqb p fzero); [intros [= _ <-]; rewrite app_nil_r; auto|].
  unfold bind, ret, tf_nn_dropout.
  destruct (negb _); [discriminate|].
  destruct (feqb (fsub fone p) fone); intros [= _ <-].
  - rewrite app_nil_r. auto.
  - cbn [heap dropouts set_dropouts]. auto.
Qed.

(** Reading the working configuration gives the object [g1] holds. *)
Lemma logs_read {B} new (l : nat) (c : BertConfig) (k : BertConfig -> build B) :
  heap g1 !! l = Some c -> logs g1 new (k c) -> logs g1 new (bind (read l) k).
Proof.
  intros Hl Hk g b g' Hg. unfold bind, read. rewrite Hg, Hl. apply Hk. exact Hg.
Qed.

Lemma logs_layer_norm_and_dropout x p name :
  logs g1 (dropout_node p) (layer_norm_and_dropout x p name).
Proof.
  unfold layer_norm_and_dropout.
  apply logs_after; [apply keeps_layer_norm; exact _|intros y].
  apply logs_before; [apply logs_dropout|intros z; keeps_auto].
Qed.

Lemma logs_embedding_postprocessor x utt tti ttv ttn upe pen r mpe p :
  logs g1 (dropout_node p) (embedding_postprocessor x utt tti ttv ttn upe pen r mpe p).
Proof.
  unfold embedding_postprocessor.
  do 6 (apply logs_after; [keeps_auto|intros ?]).
  apply logs_layer_norm_and_dropout.
Qed.

Lemma logs_attention_layer from to mask n h qa ka va p r two bs fl tl :
  logs g1 (dropout_node p)
    (attention_layer from to mask n h qa ka va p r two bs fl tl).
Proof.
  unfold attention_layer.
  do 4 (apply logs_after; [keeps_auto|intros ?]).
  destruct a2 as [[? ?] ?].
  do 2 (apply logs_after; [keeps_auto|intros ?]).
  do 3 (apply logs_after; [apply keeps_dense; exact _|intros ?]).
  do 4 (apply logs_after; [keeps_auto|intros ?]).
  apply logs_before; [apply logs_dropout|intros ?; keeps_auto].
Qed.

(** The block that ends both halves of a layer adds the node of the
    hidden rate. *)
Lemma logs_output_block (x other : tensor F) (hidden_size : Z) (p : option F)
    (init : initializer) :
  logs g1 (dropout_node p)
    (out <- tf_layers_dense x hidden_size PyNone None init ;;
     out <- dropout out p ;;
     residual <- lift (tf_add out other) ;;
     layer_norm residual None)%build.
Proof.
  apply logs_after; [apply keeps_dense; exact _|intros a].
  apply logs_before; [apply logs_dropout|intros b].
  apply keeps_bind; [exact _|keeps_auto|intros c]. apply keeps_layer_norm. exact _.
Qed.

Lemma logs_transformer_layer idx prev mask hs n ah inter act ph pa r b s :
  logs g1 (layer_dropout_nodes ph pa)
    (transformer_layer idx prev mask hs n ah inter act ph pa r b s).
Proof.
  unfold transformer_layer, layer_dropout_nodes.
  apply logs_variable_scope.
  apply (logs_bind (dropout_node pa ++ dropout_node ph) (dropout_node ph));
    [apply app_assoc| |intros attention_output].
  - apply logs_variable_scope.
    apply (logs_bind (dropout_node pa) (dropout_node ph));
      [reflexivity| |intros heads].
    + apply logs_variable_scope.
      apply logs_before; [apply logs_attention_layer|intros ?; keeps_auto].
    + apply logs_after; [keeps_auto|intros attention_output].
      apply logs_variable_scope. apply logs_output_block.
  - apply logs_after;
      [apply keeps_variable_scope; [exact _|apply keeps_dense; exact _]|intros inter_out].
    apply logs_variable_scope. apply logs_output_block.
Qed.

Lemma logs_transformer_layers idxs prev outs mask hs n ah inter act ph pa r b s :
  logs g1 (concat (repeat (layer_dropout_nodes ph pa) (length idxs)))
    (transformer_layers idxs prev outs mask hs n ah inter act ph pa r b s).
Proof.
  revert prev outs. induction idxs as [|idx idxs IH]; intros prev outs;
    cbn [transformer_layers length repeat concat].
  - apply logs_keeps. keeps_auto.
  - apply (logs_bind (layer_dropout_nodes ph pa)
             (concat (repeat (layer_dropout_nodes ph pa) (length idxs))));
      [reflexivity|apply logs_transformer_layer|intros out; apply IH].
Qed.

Lemma logs_transformer_model x mask hs nl n inter act ph pa r all :
  logs g1 (concat (repeat (layer_dropout_nodes ph pa) (Z.to_nat nl)))
    (transformer_model x mask hs nl n inter act ph pa r all).
Proof.
  unfold transformer_model.
  do 3 (apply logs_after; [keeps_auto|intros ?]).
  unfold transformer_model_body.
  do 6 (apply logs_after; [keeps_auto|intros ?]).
  apply logs_before.
  - match goal with
    | |- logs _ _ (transformer_layers ?idxs ?p ?o ?m ?h ?k ?w ?i ?f ?d1 ?d2 ?ir ?bs ?sl) =>
        pose proof (logs_transformer_layers idxs p o m h k w i f d1 d2 ir bs sl) as H
    end.
    rewrite length_seq in H. exact H.
  - intros [? ?]. keeps_auto.
Qed.

End From.

(** The constructor, when it returns, has added the dropout nodes of the
    working configuration, in the order of the model. *)
Lemma BertModel_init_logs (config : nat) (is_training : bool)
    (input_ids : tensor Z) (input_mask token_type_ids : option (tensor Z))
    (use_one_hot_embeddings : bool) (scope : option string)
    (g g1 g' : graph) (l : nat) (c : BertConfig) (model : BertModel) :
  working_config config is_training g = (Ok l, g1) ->
  heap g1 !! l = Some c ->
  BertModel_init config is_training input_ids input_mask token_type_ids
    use_one_hot_embeddings scope g = (Ok model, g') ->
  dropouts g'
  = dropouts g1
    ++ model_dropout_nodes (hidden_dropout_prob c) (attention_probs_dropout_prob c)
         (Z.to_nat (num_hidden_layers c)).
Proof.
  intros Hwc Hl. unfold BertModel_init.
  rewrite (bind_ok _ _ _ _ _ Hwc).
  match goal with
  | |- ?m g1 = _ -> _ =>
      enough (logs g1 (model_dropout_nodes (hidden_dropout_prob c)
                         (attention_probs_dropout_prob c)
                         (Z.to_nat (num_hidden_layers c))) m) as Hlogs
  end.
  { intros E. exact (proj2 (Hlogs g1 model g' eq_refl E)). }
  unfold model_dropout_nodes.
  do 3 (apply logs_after; [keeps_auto|intros ?]).
  apply logs_variable_scope.
  apply (logs_bind g1 (dropout_node (hidden_dropout_prob c))
           (concat (repeat (layer_dropout_nodes (hidden_dropout_prob c)
                              (attention_probs_dropout_prob c))
                      (Z.to_nat (num_hidden_layers c)))));
    [reflexivity| |intros [? ?]].
  - apply logs_variable_scope. apply (logs_read g1 _ l c _ Hl).
    apply logs_after; [apply keeps_embedding_lookup; exact _|intros [? ?]].
    apply (logs_read g1 _ l c _ Hl).
    apply logs_before; [apply logs_embedding_postprocessor|intros ?; keeps_auto].
  - apply logs_before.
    + apply logs_variable_scope.
      apply logs_after; [keeps_auto|intros ?].
      apply (logs_read g1 _ l c _ Hl).
      apply logs_after; [keeps_auto|intros ?].
      apply logs_before; [apply logs_transformer_model|intros ?; keeps_auto].
    + intros ?. apply keeps_bind; [exact _|keeps_auto|intros ?].
      apply keeps_bind; [exact _| |intros ?; keeps_auto].
      apply keeps_variable_scope; [exact _|].
      apply keeps_bind; [exact _|keeps_auto|intros ?].
      apply keeps_bind; [exact _| |intros ?].
      * intros g0. unfold read. destruct (heap g0 !! l); split; reflexivity.
      * apply keeps_dense. exact _.
Qed.

End Logs.

Section ConstructorClaims.
Context {S : Scalar} {R : Sampler S}.

(** C9.  Let the caller's configuration be the object [c].  Built with
    [is_training = false], the model works on a configuration whose two
    dropout rates are [0.0] from the first statements of the constructor
    on, and the whole constructor adds no dropout node to the graph,
    whether it returns or raises.  Built with [is_training = true], it
    works on a copy equal to [c]; every dropout node it adds has the keep
    probability [1 - hidden_dropout_prob] or
    [1 - attention_probs_dropout_prob] of [c], and when it returns it has
    added exactly the nodes of these two rates, each in its place: the
    hidden rate on the embeddings, and in every layer the attention rate
    on the attention probabilities and the hidden rate on the attention
    output and on the layer output.  The arithmetic is required to have
    [0.0 == 0.0]. *)
Theorem inference_disables_dropout {L : ScalarLaws S}
    (config : nat) (c : BertConfig) (input_ids : tensor Z)
    (input_mask token_type_ids : option (tensor Z))
    (use_one_hot_embeddings : bool) (scope : option string) (g : graph) :
  heap g !! config = Some c ->
  let l := fresh (dom (heap g)) in
  (working_config config false g
   = (Ok l, set_heap (<[l := without_dropout c]> (heap g)) g)
   /\ hidden_dropout_prob (without_dropout c) = Some fzero
   /\ attention_probs_dropout_prob (without_dropout c) = Some fzero
   /\ dropouts (snd (BertModel_init config false input_ids input_mask
                       token_type_ids use_one_hot_embeddings scope g))
      = dropouts g)
  /\ (working_config config true g = (Ok l, set_heap (<[l := c]> (heap g)) g)
      /\ (exists new,
            dropouts (snd (BertModel_init config true input_ids input_mask
                             token_type_ids use_one_hot_embeddings scope g))
            = dropouts g ++ new
            /\ Forall (fun keep =>
                         (exists p, hidden_dropout_prob c = Some p
                                    /\ keep = fsub fone p)
                         \/ (exists p, attention_probs_dropout_prob c = Some p
                                       /\ keep = fsub fone p)) new)
      /\ (forall model g',
            BertModel_init config true input_ids input_mask token_type_ids
              use_one_hot_embeddings scope g = (Ok model, g') ->
            dropouts g'
            = dropouts g
              ++ model_dropout_nodes (hidden_dropout_prob c)
                   (attention_probs_dropout_prob c)
                   (Z.to_nat (num_hidden_layers c)))).
Proof.
  intros Hc l.
  destruct (working_config_spec config false g c Hc) as [Hfresh Hoff].
  destruct (working_config_spec config true g c Hc) as [_ Hon].
  cbn zeta in Hoff, Hon. fold l in Hoff, Hon, Hfresh.
  split.
  - split; [exact Hoff|]. split; [reflexivity|]. split; [reflexivity|].
    pose proof (BertModel_init_steady (fun _ => False) config false input_ids
                  input_mask token_type_ids use_one_hot_embeddings scope
                  g _ l (without_dropout c) Hoff) as Hst.
    destruct Hst as [_ (new & Hnew & Hall)].
    + cbn [heap set_heap]. apply lookup_insert_eq.
    + left. apply feqb_0_0.
    + left. apply feqb_0_0.
    + destruct new as [|k new]; [|inversion Hall; contradiction].
      rewrite Hnew, app_nil_r. reflexivity.
  - split; [exact Hon|]. split.
    + pose proof (BertModel_init_steady
                    (fun keep =>
                       (exists p, hidden_dropout_prob c = Some p /\ keep = fsub fone p)
                       \/ (exists p, attention_probs_dropout_prob c = Some p
                                     /\ keep = fsub fone p))
                    config true input_ids
                    input_mask token_type_ids use_one_hot_embeddings scope
                    g _ l c Hon) as Hst.
      destruct Hst as [_ (new & Hnew & Hall)].
      * cbn [heap set_heap]. apply lookup_insert_eq.
      * unfold allows. destruct (hidden_dropout_prob c) as [p|]; [|exact I].
        right. left. exists p. split; reflexivity.
      * unfold allows. destruct (attention_probs_dropout_prob c) as [p|]; [|exact I].
        right. right. exists p. split; reflexivity.
      * exists new. split; [exact Hnew|exact Hall].
    + intros model g' Hrun.
      apply (BertModel_init_logs config true input_ids input_mask token_type_ids
               use_one_hot_embeddings scope g _ g' l c model Hon);
        [cbn [heap set_heap]; apply lookup_insert_eq|exact Hrun].
Qed.

(** C10. The constructor leaves the caller's configuration as it found
    it: the working configuration is another object, created by the copy,
    and the assignments made outside training go to that object.  After
    the constructor has run, with either value of [is_training] and
    whether it returned or raised, the reference the caller passed, like
    every other reference that existed before, points to the object it
    pointed to before. *)
Theorem BertModel_init_keeps_config
    (config : nat) (c : BertConfig) (is_training : bool) (input_ids : tensor Z)
    (input_mask token_type_ids : option (tensor Z))
    (use_one_hot_embeddings : bool) (scope : option string) (g : graph) :
  heap g !! config = Some c ->
  let g' := snd (BertModel_init config is_training input_ids input_mask
                   token_type_ids use_one_hot_embeddings scope g) in
  heap g' !! config = Some c
  /\ (forall l c0, heap g !! l = Some c0 -> heap g' !! l = Some c0)
  /\ fst (working_config config is_training g) = Ok (fresh (dom (heap g)))
  /\ fresh (dom (heap g)) <> config.
Proof.
  intros Hc g'.
  destruct (working_config_spec config is_training g c Hc) as [Hfresh Hwc].
  cbn zeta in Hwc.
  set (l := fresh (dom (heap g))) in *.
  set (c' := if is_training then c else without_dropout c) in *.
  assert (Hkept : forall l0 c0, heap g !! l0 = Some c0 -> heap g' !! l0 = Some c0).
  { intros l0 c0 Hl0.
    pose proof (BertModel_init_steady (fun _ => True) config is_training input_ids
                  input_mask token_type_ids use_one_hot_embeddings scope
                  g _ l c' Hwc) as Hst.
    destruct Hst as [Hheap _].
    - cbn [heap set_heap]. apply lookup_insert_eq.
    - unfold allows. destruct (hidden_dropout_prob c'); [right|]; exact I.
    - unfold allows. destruct (attention_probs_dropout_prob c'); [right|]; exact I.
    - fold g' in Hheap. rewrite Hheap. cbn [heap set_heap].
      rewrite lookup_insert_ne; [exact Hl0|]. intros ->. congruence. }
  split; [apply Hkept; exact Hc|]. split; [exact Hkept|].
  split; [rewrite Hwc; reflexivity|]. intros E. rewrite E in Hfresh. congruence.
Qed.

End ConstructorClaims.

(* ===================================================================== *)
(** ** The shape checks of [attention_layer] *)
(* ===================================================================== *)

Lemma clean_ok {A} (a : A) : clean (Ok a).
Proof. intros e He. discriminate. Qed.

Lemma clean_raise {A} (e : exn) :
  is_rank_or_hint_error e = false -> clean (Raise (A:=A) e).
Proof. intros H e' [= <-]. exact H. Qed.

Lemma clean_rbind {A B} (m : res A) (k : A -> res B) :
  clean m -> (forall a, clean (k a)) -> clean (rbind m k).
Proof.
  intros Hm Hk. destruct m as [a|e]; cbn [rbind]; [apply Hk|].
  intros e' [= <-]. apply (Hm e). reflexivity.
Qed.

Ltac clean_step :=
  lazymatch goal with
  | |- forall _, _ => intros ?
  | |- clean (Ok _) => apply clean_ok
  | |- clean (Raise _) => apply clean_raise; reflexivity
  | |- clean (rbind _ _) => apply clean_rbind
  | |- clean (if ?c then _ else _) => destruct c
  | |- clean (match ?x with _ => _ end) => destruct x
  end.

Ltac clean_auto := repeat clean_step.

Section CleanPrimitives.
Context {S : Scalar}.

Lemma clean_py_last l : clean (py_last l).
Proof. unfold py_last. clean_auto. Qed.

Lemma clean_py_nth l i : clean (py_nth l i).
Proof. unfold py_nth. clean_auto. Qed.

Lemma clean_tf_reshape {A} (t : tensor A) dims : clean (tf_reshape t dims).
Proof. unfold tf_reshape. clean_auto. Qed.

Lemma clean_tf_transpose {A} (d : A) t perm : clean (tf_transpose d t perm).
Proof. unfold tf_transpose. clean_auto. Qed.

Lemma clean_tf_expand_dims {A} (t : tensor A) axis : clean (tf_expand_dims t axis).
Proof. unfold tf_expand_dims. clean_auto. Qed.

Lemma clean_tf_matmul a b tb : clean (tf_matmul a b tb).
Proof. unfold tf_matmul. clean_auto. Qed.

Lemma clean_tf_add a b : clean (tf_add a b).
Proof. unfold tf_add, tf_binop. clean_auto. Qed.

Lemma clean_apply_activation act x : clean (apply_activation act x).
Proof. unfold apply_activation. clean_auto. Qed.

Lemma clean_need hint : clean (need hint).
Proof. unfold need. clean_auto. Qed.

Lemma clean_inv_sqrt n : clean (inv_sqrt n).
Proof. unfold inv_sqrt. clean_auto. Qed.

Lemma clean_get_shape_list {A} (t : tensor A) expected : clean (get_shape_list t expected).
Proof. unfold get_shape_list, assert_rank. clean_auto. Qed.

Lemma clean_reshape_to_matrix {A} (t : tensor A) : clean (reshape_to_matrix t).
Proof.
  unfold reshape_to_matrix. clean_auto;
    first [apply clean_py_last | apply clean_tf_reshape].
Qed.

Lemma clean_transpose_for_scores x b n s w : clean (transpose_for_scores x b n s w).
Proof.
  unfold transpose_for_scores. clean_auto;
    first [apply clean_tf_reshape | apply clean_tf_transpose].
Qed.

Lemma clean_attention_scores q k mask n h b f t :
  clean (attention_scores q k mask n h b f t).
Proof.
  unfold attention_scores. clean_auto;
    first [apply clean_transpose_for_scores | apply clean_tf_matmul
          | apply clean_inv_sqrt | apply clean_tf_expand_dims | apply clean_tf_add].
Qed.

End CleanPrimitives.

Section CleanBuild.
Context {S : Scalar} {R : Sampler S}.

Lemma cleanb_ret {A} (a : A) : cleanb (ret a).
Proof. intros g. apply clean_ok. Qed.

Lemma cleanb_lift {A} (r : res A) : clean r -> cleanb (lift r).
Proof. intros H g. exact H. Qed.

Lemma cleanb_raise {A} e : is_rank_or_hint_error e = false -> cleanb (raise (A:=A) e).
Proof. intros H g. apply clean_raise. exact H. Qed.

Lemma cleanb_bind {A B} (m : build A) (k : A -> build B) :
  cleanb m -> (forall a, cleanb (k a)) -> cleanb (bind m k).
Proof.
  intros Hm Hk g. unfold bind. specialize (Hm g).
  destruct (m g) as [[a|e] g']; cbn [fst] in *; [apply Hk|].
  intros e' [= <-]. apply (Hm e). reflexivity.
Qed.

Lemma cleanb_variable_scope {A} name (body : build A) :
  cleanb body -> cleanb (variable_scope name body).
Proof.
  intros Hb g. unfold variable_scope.
  specialize (Hb (set_scope (scope g ++ [name]) g)).
  destruct (body _) as [r g']. exact Hb.
Qed.

Lemma cleanb_get_variable name dims i : cleanb (get_variable name dims i).
Proof.
  intros g. unfold get_variable, static_shape.
  destruct (existsb _ dims); [apply clean_raise; reflexivity|].
  destruct (existsb _ _); [apply clean_raise; reflexivity|apply clean_ok].
Qed.

Lemma cleanb_tf_nn_dropout x keep : cleanb (tf_nn_dropout x keep).
Proof.
  intros g. unfold tf_nn_dropout.
  destruct (negb _); [apply clean_raise; reflexivity|].
  destruct (feqb _ _); apply clean_ok.
Qed.

Lemma cleanb_dropout x p : cleanb (dropout x p).
Proof.
  unfold dropout. destruct p as [p|]; [|apply cleanb_ret].
  destruct (feqb p fzero); [apply cleanb_ret|].
  apply cleanb_bind; [apply cleanb_tf_nn_dropout|intros ?; apply cleanb_ret].
Qed.

Lemma cleanb_dense inputs units act name init :
  cleanb (tf_layers_dense inputs units act name init).
Proof.
  unfold tf_layers_dense. apply cleanb_variable_scope.
  apply cleanb_bind; [apply cleanb_lift, clean_py_last|intros ?].
  do 2 (apply cleanb_bind; [apply cleanb_get_variable|intros ?]).
  apply cleanb_bind; [apply cleanb_lift, clean_tf_matmul|intros ?].
  apply cleanb_bind; [apply cleanb_lift, clean_tf_add|intros ?].
  apply cleanb_lift, clean_apply_activation.
Qed.

(** The statements of [attention_layer] after its checks raise neither
    of the two exceptions. *)
Lemma cleanb_attention_layer_rest (from_tensor to_tensor : tensor F) mask n h qa ka va
    p r two (bs fl tl : option Z) :
  cleanb (from_tensor_2d <- lift (reshape_to_matrix from_tensor) ;;
          to_tensor_2d <- lift (reshape_to_matrix to_tensor) ;;
          query_layer <- tf_layers_dense from_tensor_2d (n * h) qa (Some "query")
                           (create_initializer r) ;;
          key_layer <- tf_layers_dense to_tensor_2d (n * h) ka (Some "key")
                         (create_initializer r) ;;
          value_layer <- tf_layers_dense to_tensor_2d (n * h) va (Some "value")
                           (create_initializer r) ;;
          batch_size <- lift (need bs) ;;
          from_seq_length <- lift (need fl) ;;
          to_seq_length <- lift (need tl) ;;
          scores <- lift (attention_scores query_layer key_layer mask n h
                            batch_size from_seq_length to_seq_length) ;;
          let attention_probs := tf_nn_softmax scores in
          attention_probs <- dropout attention_probs p ;;
          value_layer <- lift (tf_reshape value_layer
                                 [batch_size; to_seq_length; n; h]) ;;
          value_layer <- lift (tf_transpose fzero value_layer [0; 2; 1; 3]) ;;
          context_layer <- lift (tf_matmul attention_probs value_layer false) ;;
          context_layer <- lift (tf_transpose fzero context_layer [0; 2; 1; 3]) ;;
          context_layer <-
            lift (if two : bool then
                    tf_reshape context_layer
                      [(batch_size * from_seq_length)%Z; (n * h)%Z]
                  else
                    tf_reshape context_layer
                      [batch_size; from_seq_length; (n * h)%Z]) ;;
          ret context_layer)%build.
Proof.
  do 2 (apply cleanb_bind; [apply cleanb_lift, clean_reshape_to_matrix|intros ?]).
  do 3 (apply cleanb_bind; [apply cleanb_dense|intros ?]).
  do 3 (apply cleanb_bind; [apply cleanb_lift, clean_need|intros ?]).
  apply cleanb_bind; [apply cleanb_lift, clean_attention_scores|intros ?].
  apply cleanb_bind; [apply cleanb_dropout|intros ?].
  apply cleanb_bind; [apply cleanb_lift, clean_tf_reshape|intros ?].
  apply cleanb_bind; [apply cleanb_lift, clean_tf_transpose|intros ?].
  apply cleanb_bind; [apply cleanb_lift, clean_tf_matmul|intros ?].
  apply cleanb_bind; [apply cleanb_lift, clean_tf_transpose|intros ?].
  apply cleanb_bind; [|intros ?; apply cleanb_ret].
  apply cleanb_lift. destruct two; apply clean_tf_reshape.
Qed.

End CleanBuild.

Section AttentionChecks.
Context {S : Scalar} {R : Sampler S}.

Lemma get_shape_list_2_or_3 {A} (t : tensor A) :
  rank t = 2 \/ rank t = 3 ->
  get_shape_list t (Some (RankList [2; 3])) = Ok (shape t).
Proof.
  intros H. unfold get_shape_list.
  assert (E : assert_rank t (RankList [2; 3]) = Ok tt).
  { unfold assert_rank. rewrite bool_decide_true; [reflexivity|].
    destruct H as [-> | ->]; set_solver. }
  rewrite E. reflexivity.
Qed.

Lemma not_rank_or_hint_error e :
  is_rank_or_hint_error e = false ->
  e <> ValueError rank_mismatch_msg /\ e <> ValueError missing_hints_msg.
Proof. intros H. split; intros ->; discriminate H. Qed.

(** C8. [attention_layer] raises [ValueError], before anything is added
    to the graph, whenever the ranks of [from_tensor] and [to_tensor]
    differ, and whenever both have rank 2 and one of [batch_size],
    [from_seq_length], [to_seq_length] is [None].  When both have rank 3,
    or both have rank 2 and the three values are given, whatever the call
    raises is neither of these two errors. *)
Theorem attention_layer_shape_errors (from_tensor to_tensor : tensor F)
    (attention_mask : option (tensor F)) (num_attention_heads size_per_head : Z)
    (query_act key_act value_act : pyval)
    (attention_probs_dropout_prob : option F) (initializer_range : F)
    (do_return_2d_tensor : bool)
    (batch_size from_seq_length to_seq_length : option Z) (g : graph) :
  let run :=
    attention_layer from_tensor to_tensor attention_mask num_attention_heads
      size_per_head query_act key_act value_act attention_probs_dropout_prob
      initializer_range do_return_2d_tensor batch_size from_seq_length
      to_seq_length g in
  (rank from_tensor <> rank to_tensor ->
     exists msg, run = (Raise (ValueError msg), g))
  /\ (rank from_tensor = 2 -> rank to_tensor = 2 ->
      batch_size = None \/ from_seq_length = None \/ to_seq_length = None ->
      run = (Raise (ValueError missing_hints_msg), g))
  /\ ((rank from_tensor = 3 /\ rank to_tensor = 3)
      \/ (rank from_tensor = 2 /\ rank to_tensor = 2
          /\ batch_size <> None /\ from_seq_length <> None
          /\ to_seq_length <> None) ->
      forall e, fst run = Raise e ->
        e <> ValueError rank_mismatch_msg /\ e <> ValueError missing_hints_msg).
Proof.
  intros run. subst run. unfold attention_layer. split; [|split].
  - intros Hne. unfold bind at 1, lift at 1, get_shape_list, assert_rank.
    destruct (bool_decide (rank from_tensor ∈ _)); cbn [rbind];
      [|eexists; reflexivity].
    unfold bind at 1, lift at 1.
    destruct (bool_decide (rank to_tensor ∈ _)); cbn [rbind];
      [|eexists; reflexivity].
    unfold bind at 1. unfold rank in Hne.
    destruct (Nat.eqb_spec (length (shape from_tensor)) (length (shape to_tensor)));
      [contradiction|].
    eexists. reflexivity.
  - intros Hf Ht Hnone.
    rewrite (bind_ok _ _ g g (shape from_tensor))
      by (unfold lift; rewrite get_shape_list_2_or_3 by (left; exact Hf); reflexivity).
    rewrite (bind_ok _ _ g g (shape to_tensor))
      by (unfold lift; rewrite get_shape_list_2_or_3 by (left; exact Ht); reflexivity).
    unfold rank in Hf, Ht. rewrite Hf, Ht. cbn [Nat.eqb negb].
    rewrite (bind_ok (ret tt) _ g g tt eq_refl).
    apply bind_raise.
    destruct batch_size, from_seq_length, to_seq_length;
      try reflexivity.
    destruct Hnone as [?|[?|?]]; discriminate.
  - intros Hranks e He. apply not_rank_or_hint_error. revert e He.
    assert (Hf : rank from_tensor = 2 \/ rank from_tensor = 3)
      by (destruct Hranks as [[? _]|[? _]]; [right|left]; assumption).
    assert (Ht : rank to_tensor = 2 \/ rank to_tensor = 3)
      by (destruct Hranks as [[_ ?]|[_ [? _]]]; [right|left]; assumption).
    rewrite (bind_ok _ _ g g (shape from_tensor))
      by (unfold lift; rewrite get_shape_list_2_or_3 by exact Hf; reflexivity).
    rewrite (bind_ok _ _ g g (shape to_tensor))
      by (unfold lift; rewrite get_shape_list_2_or_3 by exact Ht; reflexivity).
    unfold rank in Hranks.
    replace (length (shape from_tensor) =? length (shape to_tensor)) with true
      by (symmetry; apply Nat.eqb_eq;
          destruct Hranks as [[-> ->]|[-> [-> _]]]; reflexivity).
    cbn [negb]. rewrite (bind_ok (ret tt) _ g g tt eq_refl).
    match goal with
    | |- forall e, fst (bind ?m ?k g) = Raise e -> _ =>
        change (clean (fst (bind m k g))); revert g;
        change (cleanb (bind m k))
    end.
    apply cleanb_bind.
    + destruct Hranks as [[-> _]|[-> [_ (Hb & Hfl & Htl)]]]; cbn [Nat.eqb].
      * do 3 (apply cleanb_bind; [apply cleanb_lift, clean_py_nth|intros ?]).
        apply cleanb_ret.
      * destruct batch_size, from_seq_length, to_seq_length;
          try contradiction; apply cleanb_ret.
    + intros [[bs fl] tl]. apply cleanb_attention_layer_rest.
Qed.

End AttentionChecks.

(* ===================================================================== *)
(** ** The shape utilities at every rank *)
(* ===================================================================== *)

Lemma py_last_ok (l : list nat) : l <> [] -> py_last l = Ok (List.last l 0).
Proof. destruct l; [congruence|reflexivity]. Qed.

(** X1. [get_shape_list] returns the shape of the tensor when no rank is
    expected, when the rank is the expected integer, and when it occurs
    in the expected list; in every other case it raises the [ValueError]
    of [assert_rank]. *)
Theorem get_shape_list_cases {A : Type} (t : tensor A)
    (expected_rank : option rank_spec) :
  (rank_expected (rank t) expected_rank ->
     get_shape_list t expected_rank = Ok (shape t))
  /\ (~ rank_expected (rank t) expected_rank ->
        get_shape_list t expected_rank = Raise (ValueError assert_rank_msg)).
Proof.
  unfold get_shape_list, assert_rank.
  destruct expected_rank as [[n|rs]|]; cbn [rank_expected].
  - split; intros H.
    + rewrite bool_decide_true by set_solver. reflexivity.
    + rewrite bool_decide_false by set_solver. reflexivity.
  - split; intros H.
    + rewrite bool_decide_true; [reflexivity|].
      apply elem_of_list_to_set, list_elem_of_In. exact H.
    + rewrite bool_decide_false; [reflexivity|].
      intros Hin. apply H. apply list_elem_of_In. apply elem_of_list_to_set in Hin. exact Hin.
  - split; [reflexivity|tauto].
Qed.

(** X2. [reshape_to_matrix] at every rank: below rank 2 it raises
    [ValueError]; at rank 2 it returns its argument; above rank 2 it
    returns, for a last extent that is not zero, the matrix over the same
    buffer whose width is that extent and whose number of rows is the
    product of the other extents, and for a last extent of zero it fails
    in [tf.reshape]. *)
Theorem reshape_to_matrix_cases {A : Type} (t : tensor A) :
  (rank t < 2 -> reshape_to_matrix t = Raise (ValueError reshape_to_matrix_msg))
  /\ (rank t = 2 -> reshape_to_matrix t = Ok t)
  /\ (2 < rank t -> 0 < List.last (shape t) 0 ->
      reshape_to_matrix t
      = Ok (mk_tensor [numel (py_init (shape t)); List.last (shape t) 0] (data t)))
  /\ (2 < rank t -> List.last (shape t) 0 = 0 ->
      exists msg, reshape_to_matrix t = Raise (InvalidArgumentError msg)).
Proof.
  split; [|split; [|split]]; intros Hr.
  - unfold reshape_to_matrix.
    destruct (Nat.ltb_spec (rank t) 2); [reflexivity|lia].
  - unfold reshape_to_matrix. rewrite Hr. reflexivity.
  - intros Hw. unfold rank in Hr.
    pose proof (shape_snoc (shape t) ltac:(lia)) as Hsh.
    exact (reshape_to_matrix_last t _ _ Hsh Hr Hw).
  - intros Hz. unfold rank in Hr.
    pose proof (shape_snoc (shape t) ltac:(lia)) as Hsh. rewrite Hz in Hsh.
    eexists. exact (reshape_to_matrix_zero_width t _ Hsh Hr).
Qed.

(** X3. [reshape_from_matrix] returns its argument, whatever its shape,
    when the original shape has two entries.  Otherwise the last entry of
    the original shape is not used: the target is the original shape
    without its last entry followed by the width of the argument, and the
    call succeeds exactly when that target has as many cells as the
    argument; an argument of rank 0 has no width, which is an
    [IndexError]. *)
Theorem reshape_from_matrix_cases {A : Type} (output_tensor : tensor A)
    (orig_shape_list : list nat) :
  (length orig_shape_list = 2 ->
     reshape_from_matrix output_tensor orig_shape_list = Ok output_tensor)
  /\ (length orig_shape_list <> 2 -> shape output_tensor <> [] ->
      let target := py_init orig_shape_list ++ [List.last (shape output_tensor) 0] in
      reshape_from_matrix output_tensor orig_shape_list
      = if numel target =? numel (shape output_tensor)
        then Ok (mk_tensor target (data output_tensor))
        else Raise (InvalidArgumentError
                      "Input to reshape has a different number of values"))
  /\ (length orig_shape_list <> 2 -> shape output_tensor = [] ->
      reshape_from_matrix output_tensor orig_shape_list = Raise IndexError).
Proof.
  unfold reshape_from_matrix. split; [|split].
  - intros ->. reflexivity.
  - intros Hl Hs. cbv zeta.
    destruct (Nat.eqb_spec (length orig_shape_list) 2) as [?|_]; [contradiction|].
    cbn [get_shape_list rbind]. rewrite (py_last_ok _ Hs). cbn [rbind].
    apply tf_reshape_dims_of.
  - intros Hl Hs.
    destruct (Nat.eqb_spec (length orig_shape_list) 2) as [?|_]; [contradiction|].
    cbn [get_shape_list rbind]. rewrite Hs. reflexivity.
Qed.

(** X4. Flattening undoes unflattening: for a matrix of positive width
    and an original shape of two or more entries whose leading extents
    multiply to the number of rows, [reshape_to_matrix] applied to the
    result of [reshape_from_matrix] gives the matrix back.  The last
    entry of the original shape plays no part. *)
Theorem reshape_to_matrix_inverts_reshape_from_matrix {A : Type}
    (output_tensor : tensor A) (orig_shape_list : list nat) (rows width : nat) :
  shape output_tensor = [rows; width] -> 0 < width ->
  2 <= length orig_shape_list ->
  numel (py_init orig_shape_list) = rows ->
  (x <- reshape_from_matrix output_tensor orig_shape_list ;;
   reshape_to_matrix x)%res = Ok output_tensor.
Proof.
  intros Hs Hw Hl Hn.
  destruct (Nat.eq_dec (length orig_shape_list) 2) as [E2|N2].
  - unfold reshape_from_matrix. rewrite E2. cbn.
    unfold reshape_to_matrix, rank. rewrite Hs. reflexivity.
  - unfold reshape_from_matrix.
    destruct (Nat.eqb_spec (length orig_shape_list) 2) as [?|_]; [contradiction|].
    cbn [get_shape_list rbind]. rewrite Hs. cbn [py_last List.last rbind].
    rewrite tf_reshape_dims_of, Hs, numel_app, Hn.
    replace (rows * numel [width] =? numel [rows; width]) with true
      by (symmetry; apply Nat.eqb_eq; cbn; lia).
    cbn [rbind].
    set (x := mk_tensor (py_init orig_shape_list ++ [width]) (data output_tensor)).
    assert (Hlen : 2 < length (shape x)).
    { cbn [x shape]. rewrite length_app. unfold py_init.
      rewrite removelast_firstn_len, length_firstn. cbn. lia. }
    rewrite (reshape_to_matrix_last x _ _ eq_refl Hlen Hw).
    cbn [x shape data]. rewrite Hn.
    destruct output_tensor as [s d]. cbn in *. rewrite Hs. reflexivity.
Qed.

(* ===================================================================== *)
(** ** [get_assignment_map_from_checkpoint] *)
(* ===================================================================== *)

Section IndexSuffix.

Lemma list_ascii_of_string_app (s1 s2 : string) :
  list_ascii_of_string (s1 ++ s2)
  = list_ascii_of_string s1 ++ list_ascii_of_string s2.
Proof.
  induction s1 as [|c s1 IH]; [reflexivity|].
  change (c :: list_ascii_of_string (s1 ++ s2)
          = c :: (list_ascii_of_string s1 ++ list_ascii_of_string s2)).
  rewrite IH. reflexivity.
Qed.

Lemma string_of_list_ascii_app (l1 l2 : list ascii) :
  string_of_list_ascii (l1 ++ l2)
  = (string_of_list_ascii l1 ++ string_of_list_ascii l2)%string.
Proof.
  induction l1 as [|c l1 IH]; [reflexivity|].
  change (String c (string_of_list_ascii (l1 ++ l2))
          = String c (string_of_list_ascii l1 ++ string_of_list_ascii l2)%string).
  rewrite IH. reflexivity.
Qed.

Lemma list_ascii_of_string_inj (s1 s2 : string) :
  list_ascii_of_string s1 = list_ascii_of_string s2 -> s1 = s2.
Proof.
  intros H. rewrite <- (string_of_list_ascii_of_string s1), H.
  apply string_of_list_ascii_of_string.
Qed.

Lemma existsb_rev {A} (f : A -> bool) (l : list A) :
  existsb f (rev l) = existsb f l.
Proof.
  induction l as [|a l IH]; [reflexivity|].
  cbn [rev List.rev]. rewrite existsb_app, IH. cbn. rewrite orb_false_r. apply orb_comm.
Qed.

Lemma forallb_rev {A} (f : A -> bool) (l : list A) :
  forallb f (rev l) = forallb f l.
Proof.
  induction l as [|a l IH]; [reflexivity|].
  cbn [rev List.rev]. rewrite forallb_app, IH. cbn. rewrite andb_true_r. apply andb_comm.
Qed.

Lemma digit_not_newline c : is_digit c = true -> is_newline c = false.
Proof.
  unfold is_digit, is_newline. intros H.
  destruct (Ascii.eqb_spec c newline) as [->|_]; [discriminate H|reflexivity].
Qed.

Lemma colon_not_digit : is_digit colon = false.
Proof. reflexivity. Qed.

(** [span_digits] splits off the longest run of digits at the front. *)
Lemma span_digits_spec l ds rest :
  span_digits l = (ds, rest) ->
  l = ds ++ rest /\ forallb is_digit ds = true
  /\ match rest with [] => True | c :: _ => is_digit c = false end.
Proof.
  revert ds rest. induction l as [|c l IH]; intros ds rest; cbn [span_digits].
  - intros [= <- <-]. repeat split.
  - destruct (is_digit c) eqn:Hc.
    + destruct (span_digits l) as [ds' rest'] eqn:Hs. intros [= <- <-].
      destruct (IH _ _ eq_refl) as (-> & Hd & Hr).
      repeat split; [cbn; rewrite Hc, Hd; reflexivity|exact Hr].
    + intros [= <- <-]. repeat split. exact Hc.
Qed.

Lemma span_digits_app ds c rest :
  forallb is_digit ds = true -> is_digit c = false ->
  span_digits (ds ++ c :: rest) = (ds, c :: rest).
Proof.
  intros Hd Hc. induction ds as [|d ds IH]; cbn [span_digits app].
  - rewrite Hc. reflexivity.
  - cbn in Hd. apply andb_prop in Hd as [Hd1 Hd2].
    rewrite Hd1, (IH Hd2). reflexivity.
Qed.

(** The pattern matches exactly the indexed names, and the group is the
    prefix. *)
Lemma match_index_suffix_indexed name prefix :
  match_index_suffix name = Some prefix <-> indexed name prefix.
Proof.
  unfold match_index_suffix, indexed, single_line, digits.
  set (rev_name := rev (list_ascii_of_string name)).
  assert (Hname : name = string_of_list_ascii (rev rev_name)).
  { subst rev_name. rewrite rev_involutive, string_of_list_ascii_of_string.
    reflexivity. }
  split.
  - set (rev_body := match rev_name with
                     | c :: rest => if is_newline c then rest else rev_name
                     | [] => rev_name
                     end).
    assert (Hbody : rev_name = rev_body \/ rev_name = newline :: rev_body).
    { subst rev_body. destruct rev_name as [|c rest]; [left; reflexivity|].
      unfold is_newline. destruct (Ascii.eqb_spec c newline) as [->|_];
        [right|left]; reflexivity. }
    destruct (span_digits rev_body) as [ds rest] eqn:Hspan.
    destruct (span_digits_spec _ _ _ Hspan) as (Hb & Hds & _).
    destruct ds as [|d ds]; [discriminate|].
    destruct rest as [|c rev_prefix]; [discriminate|].
    destruct (Ascii.eqb_spec c colon) as [->|_]; [|discriminate].
    destruct (existsb is_newline rev_prefix) eqn:Hnl; [discriminate|].
    cbn [andb negb]. intros [= <-].
    rewrite list_ascii_of_string_of_list_ascii, existsb_rev.
    split; [exact Hnl|].
    exists (string_of_list_ascii (rev (d :: ds))).
    rewrite list_ascii_of_string_of_list_ascii, forallb_rev.
    split; [split; [|exact Hds]|].
    + cbn [rev List.rev]. rewrite string_of_list_ascii_app. cbn.
      destruct (string_of_list_ascii (rev ds)); discriminate.
    + destruct Hbody as [Hrev | Hrev]; [left|right];
        apply list_ascii_of_string_inj;
        rewrite Hname, !list_ascii_of_string_app,
          !list_ascii_of_string_of_list_ascii, Hrev, Hb;
        cbn [rev List.rev list_ascii_of_string]; rewrite ?rev_app_distr;
        cbn [rev List.rev app]; rewrite <- ?app_assoc; reflexivity.
  - intros (Hnl & ds & (Hne & Hds) & Hn).
    set (lp := list_ascii_of_string prefix) in *.
    set (ld := list_ascii_of_string ds) in *.
    assert (Hld : ld <> []).
    { subst ld. destruct ds; [congruence|discriminate]. }
    assert (Hrev : rev_name = rev ld ++ colon :: rev lp
                   \/ rev_name = newline :: rev ld ++ colon :: rev lp).
    { subst rev_name.
      destruct Hn as [-> | ->]; [left|right];
        rewrite !list_ascii_of_string_app; fold lp ld; cbn [list_ascii_of_string];
        rewrite ?rev_app_distr; cbn [rev List.rev app];
        rewrite <- ?app_assoc; reflexivity. }
    assert (Hbody : match rev_name with
                    | c :: rest => if is_newline c then rest else rev_name
                    | [] => rev_name
                    end = rev ld ++ colon :: rev lp).
    { destruct Hrev as [-> | ->]; [|reflexivity].
      destruct (rev ld) as [|d rd] eqn:Hrd.
      - apply (f_equal (@rev ascii)) in Hrd. rewrite rev_involutive in Hrd.
        contradiction.
      - cbn [app]. rewrite digit_not_newline; [reflexivity|].
        assert (Hall : forallb is_digit (rev ld) = true)
          by (rewrite forallb_rev; exact Hds).
        rewrite Hrd in Hall. cbn in Hall. apply andb_prop in Hall. tauto. }
    rewrite Hbody.
    rewrite span_digits_app;
      [|rewrite forallb_rev; exact Hds|exact colon_not_digit].
    destruct (rev ld) as [|d rd] eqn:Hrd.
    { apply (f_equal (@rev ascii)) in Hrd. rewrite rev_involutive in Hrd.
      contradiction. }
    rewrite Ascii.eqb_refl, existsb_rev. fold lp in Hnl. rewrite Hnl.
    cbn [andb negb]. rewrite rev_involutive. subst lp.
    rewrite string_of_list_ascii_of_string. reflexivity.
Qed.

End IndexSuffix.

Section OrderedDict.
Context {V : Type}.

Lemma od_mem_In (k : string) (d : list (string * V)) :
  od_mem k d = true <-> In k (map fst d).
Proof.
  unfold od_mem. rewrite existsb_exists, in_map_iff. split.
  - intros ([k' v] & Hin & He). apply String.eqb_eq in He. cbn in He. subst k'.
    exists (k, v). split; [reflexivity|exact Hin].
  - intros ([k' v] & He & Hin). cbn in He. subst k'.
    exists (k, v). split; [exact Hin|apply String.eqb_refl].
Qed.

Lemma od_set_keys (k : string) (v : V) (d : list (string * V)) k' :
  In k' (map fst (od_set k v d)) <-> k' = k \/ In k' (map fst d).
Proof.
  induction d as [|[k0 v0] d IH]; cbn [od_set map fst In].
  - intuition congruence.
  - destruct (String.eqb_spec k0 k) as [->|Hne]; cbn [map fst In].
    + intuition congruence.
    + rewrite IH. intuition congruence.
Qed.

Lemma od_set_NoDup (k : string) (v : V) (d : list (string * V)) :
  List.NoDup (map fst d) -> List.NoDup (map fst (od_set k v d)).
Proof.
  induction d as [|[k0 v0] d IH]; cbn [od_set map fst]; intros Hnd.
  - constructor; [intros []|constructor].
  - apply List.NoDup_cons_iff in Hnd as [Hnotin Hnd].
    destruct (String.eqb_spec k0 k) as [->|Hne]; cbn [map fst].
    + apply List.NoDup_cons_iff. split; assumption.
    + apply List.NoDup_cons_iff. split; [|apply IH; exact Hnd].
      rewrite od_set_keys. intros [->|Hin]; [congruence|contradiction].
Qed.

Lemma od_set_In (k : string) (v : V) (d : list (string * V)) a b :
  List.NoDup (map fst d) ->
  (In (a, b) (od_set k v d) <-> (a = k /\ b = v) \/ (a <> k /\ In (a, b) d)).
Proof.
  induction d as [|[k0 v0] d IH]; cbn [od_set map fst In]; intros Hnd.
  - intuition congruence.
  - apply List.NoDup_cons_iff in Hnd as [Hnotin Hnd].
    destruct (String.eqb_spec k0 k) as [->|Hne]; cbn [In].
    + split.
      * intros [[= <- <-]|Hin]; [left; tauto|].
        right. split; [|right; exact Hin].
        intros ->. apply Hnotin. apply in_map_iff. exists (k, b). tauto.
      * intros [[-> ->]|[Hne [[= -> ->]|Hin]]]; [left; reflexivity|congruence|].
        right. exact Hin.
    + rewrite (IH Hnd). split.
      * intros [[= <- <-]|[H|H]]; [right; split; [congruence|left; reflexivity]|tauto|].
        right. split; [tauto|right; tauto].
      * intros [H|[Hak [[= <- <-]|Hin]]]; [right; left; exact H|left; reflexivity|].
        right. right. tauto.
Qed.

End OrderedDict.

Lemma name_to_variable_keys (tvars : list variable) k :
  In k (map fst (name_to_variable tvars)) <-> In k (map checkpoint_name tvars).
Proof.
  unfold name_to_variable.
  assert (H : forall d,
             In k (map fst (fold_left (fun d var => od_set (checkpoint_name var) var d)
                                      tvars d))
             <-> In k (map fst d) \/ In k (map checkpoint_name tvars)).
  { induction tvars as [|var tvars IH]; intros d; cbn [fold_left map In].
    - tauto.
    - rewrite IH, od_set_keys. intuition congruence. }
  rewrite H. cbn. tauto.
Qed.

(** The loop over the variables of the checkpoint, from any point on:
    the keys of the map stay distinct, an entry maps a name to itself,
    the names entered are those of the checkpoint the model knows, and
    the second dictionary holds each of them with and without the suffix
    of the first output. *)
Lemma assignment_loop (known : string -> bool) (init_vars passed : list (string * list nat))
    (assignment_map : list (string * string)) (initialized : gmap string Z) :
  List.NoDup (map fst assignment_map) ->
  (forall k v, In (k, v) assignment_map
               <-> v = k /\ In k (map fst passed) /\ known k = true) ->
  (forall s v, initialized !! s = Some v
               <-> v = 1%Z /\ exists n, In (n, n) assignment_map
                                        /\ (s = n \/ s = (n ++ ":0")%string)) ->
  let r := fold_left
             (fun '(assignment_map, initialized_variable_names) x =>
                let name := fst x in
                if negb (known name)
                then (assignment_map, initialized_variable_names)
                else (od_set name name assignment_map,
                      <[ (name ++ ":0")%string := 1%Z ]>
                        (<[ name := 1%Z ]> initialized_variable_names)))
             init_vars (assignment_map, initialized) in
  List.NoDup (map fst (fst r))
  /\ (forall k v, In (k, v) (fst r)
                  <-> v = k /\ In k (map fst (passed ++ init_vars)) /\ known k = true)
  /\ (forall s v, snd r !! s = Some v
                  <-> v = 1%Z /\ exists n, In (n, n) (fst r)
                                           /\ (s = n \/ s = (n ++ ":0")%string)).
Proof.
  revert passed assignment_map initialized.
  induction init_vars as [|[name sh] init_vars IH];
    intros passed am ivn Hnd Ham Hivn; cbn [fold_left].
  - rewrite app_nil_r. cbn [fst snd]. auto.
  - cbn [fst].
    replace (passed ++ (name, sh) :: init_vars)
      with ((passed ++ [(name, sh)]) ++ init_vars) by (rewrite <- app_assoc; reflexivity).
    destruct (known name) eqn:Hk; cbn [negb].
    + apply IH.
      * apply od_set_NoDup. exact Hnd.
      * intros k v. rewrite (od_set_In _ _ _ _ _ Hnd), Ham, map_app, in_app_iff.
        cbn [map fst In]. split.
        -- intros [[-> ->]|[Hne (-> & Hin & Hkn)]]; auto.
        -- intros (-> & [Hin|[<-|[]]] & Hkn).
           ++ destruct (String.eqb_spec k name) as [->|Hne]; auto.
           ++ auto.
      * intros s v. rewrite !lookup_insert_Some, Hivn. split.
        -- intros [[<- <-]|[Hne1 [[<- <-]|[Hne2 (-> & n & Hin & Hs)]]]].
           ++ split; [reflexivity|]. exists name. split; [|auto].
              apply od_set_In; auto.
           ++ split; [reflexivity|]. exists name. split; [|auto].
              apply od_set_In; auto.
           ++ split; [reflexivity|]. exists n. split; [|exact Hs].
              apply od_set_In; [exact Hnd|].
              destruct (String.eqb_spec n name) as [->|Hne]; auto.
        -- intros (-> & n & Hin & Hs).
           apply (od_set_In _ _ _ _ _ Hnd) in Hin as [[-> _]|[Hne Hin]].
           ++ destruct Hs as [->| ->].
              ** destruct (String.eqb_spec (name ++ ":0") name) as [E|Hne]; auto.
              ** auto.
           ++ destruct (String.eqb_spec (name ++ ":0") s) as [E|Hne1]; auto.
              right. split; [exact Hne1|].
              destruct (String.eqb_spec name s) as [E|Hne2]; auto.
              right. split; [exact Hne2|]. split; [reflexivity|]. eauto.
    + apply IH; [exact Hnd| |exact Hivn].
      intros k v. rewrite Ham, map_app, in_app_iff. cbn [map fst In]. split.
      * intros (-> & Hin & Hkn). auto.
      * intros (-> & [Hin|[<-|[]]] & Hkn); [auto|congruence].
Qed.

Lemma assignment_map_and_names (tvars : list variable)
    (init_vars : list (string * list nat)) :
  let r := get_assignment_map_from_checkpoint tvars init_vars in
  List.NoDup (map fst (fst r))
  /\ (forall k v, In (k, v) (fst r)
                  <-> v = k /\ In k (map fst init_vars)
                      /\ In k (map checkpoint_name tvars))
  /\ (forall s v, snd r !! s = Some v
                  <-> v = 1%Z /\ exists n, In (n, n) (fst r)
                                           /\ (s = n \/ s = (n ++ ":0")%string)).
Proof.
  unfold get_assignment_map_from_checkpoint.
  pose proof (assignment_loop (fun k => od_mem k (name_to_variable tvars))
                init_vars [] [] ∅) as H.
  cbn beta in H. cbn [app] in H.
  destruct H as (H1 & H2 & H3).
  - constructor.
  - intros k v. cbn. tauto.
  - intros s v. rewrite lookup_empty. split; [discriminate|].
    intros (_ & n & [] & _).
  - split; [exact H1|]. split; [|exact H3].
    intros k v. rewrite H2, od_mem_In, name_to_variable_keys. tauto.
Qed.

(** X5. The name a variable is entered under in [name_to_variable]: the
    prefix, when the name of the variable is a single-line prefix, a
    colon and one or more digits (a newline may follow them); the name
    itself in every other case. *)
Theorem checkpoint_name_cases (var : variable) :
  (forall prefix, indexed (var_name var) prefix -> checkpoint_name var = prefix)
  /\ ((forall prefix, ~ indexed (var_name var) prefix) ->
      checkpoint_name var = var_name var).
Proof.
  unfold checkpoint_name. split.
  - intros prefix H. apply match_index_suffix_indexed in H. rewrite H. reflexivity.
  - intros H. destruct (match_index_suffix (var_name var)) as [p|] eqn:E;
      [|reflexivity].
    apply match_index_suffix_indexed in E. destruct (H p E).
Qed.

(** X6. The assignment map of [get_assignment_map_from_checkpoint] has
    one entry for every name of the checkpoint under which a variable of
    the model is entered, and no other; each entry maps the name to
    itself, and no name occurs twice, however often the checkpoint lists
    it. *)
Theorem assignment_map_entries (tvars : list variable)
    (init_vars : list (string * list nat)) :
  let assignment_map := fst (get_assignment_map_from_checkpoint tvars init_vars) in
  List.NoDup (map fst assignment_map)
  /\ forall k v, In (k, v) assignment_map
                 <-> v = k /\ In k (map fst init_vars)
                     /\ In k (map checkpoint_name tvars).
Proof.
  destruct (assignment_map_and_names tvars init_vars) as (H1 & H2 & _).
  split; assumption.
Qed.

(** X7. The second dictionary of [get_assignment_map_from_checkpoint]
    holds, with the value 1, every name of the assignment map and that
    name followed by [:0], and nothing else. *)
Theorem initialized_variable_names_entries (tvars : list variable)
    (init_vars : list (string * list nat)) (s : string) (v : Z) :
  snd (get_assignment_map_from_checkpoint tvars init_vars) !! s = Some v
  <-> v = 1%Z
      /\ exists n, In n (map fst init_vars) /\ In n (map checkpoint_name tvars)
                   /\ (s = n \/ s = (n ++ ":0")%string).
Proof.
  destruct (assignment_map_and_names tvars init_vars) as (_ & H2 & H3).
  rewrite H3. split.
  - intros (-> & n & Hin & Hs). apply H2 in Hin as (_ & Hi & Hc). eauto 6.
  - intros (-> & n & Hi & Hc & Hs). split; [reflexivity|].
    exists n. split; [|exact Hs]. apply H2. auto.
Qed.

(** X8. A variable of the model whose name is a single-line name of the
    checkpoint followed by [:0] is found in both results: its checkpoint
    name is mapped to itself, and the name of the variable is among the
    initialized names. *)
Theorem checkpoint_variable_is_initialized (tvars : list variable)
    (init_vars : list (string * list nat)) (var : variable) (n : string) :
  In var tvars -> var_name var = (n ++ ":0")%string -> single_line n ->
  In n (map fst init_vars) ->
  In (n, n) (fst (get_assignment_map_from_checkpoint tvars init_vars))
  /\ snd (get_assignment_map_from_checkpoint tvars init_vars) !! var_name var
     = Some 1%Z.
Proof.
  intros Hvar Hname Hline Hn.
  destruct (assignment_map_and_names tvars init_vars) as (_ & H2 & H3).
  assert (Hc : checkpoint_name var = n).
  { unfold checkpoint_name.
    assert (E : match_index_suffix (var_name var) = Some n).
    { apply match_index_suffix_indexed. split; [exact Hline|].
      exists "0"%string. split; [split; [discriminate|reflexivity]|].
      left. exact Hname. }
    rewrite E. reflexivity. }
  assert (Hin : In (n, n) (fst (get_assignment_map_from_checkpoint tvars init_vars))).
  { apply H2. split; [reflexivity|]. split; [exact Hn|].
    rewrite <- Hc. apply in_map. exact Hvar. }
  split; [exact Hin|].
  apply H3. split; [reflexivity|]. exists n. split; [exact Hin|]. right. exact Hname.
Qed.

(* ===================================================================== *)
(** ** [BertConfig.from_dict] and [BertConfig.to_dict] *)
(* ===================================================================== *)

Section ConfigDictFacts.
Context {S : Scalar}.

(** The loop of [from_dict] lays the items of the dictionary over the
    attributes [__init__] has set. *)
Lemma from_dict_union (json_object : gmap string pyobj) :
  from_dict json_object = json_object ∪ BertConfig_defaults ONone.
Proof.
  unfold from_dict.
  apply (map_fold_weak_ind
           (fun r (m : gmap string pyobj) => r = m ∪ BertConfig_defaults ONone)).
  - rewrite (left_id_L ∅ (∪)). reflexivity.
  - intros k v m r _ ->. rewrite insert_union_l. reflexivity.
Qed.

Lemma init_sets_attributes (vs hs nl nh ims ha hd ad mp tv ir : pyobj) (k : string) :
  In k config_attributes ->
  is_Some (BertConfig___init__ vs hs nl nh ims ha hd ad mp tv ir !! k).
Proof.
  unfold config_attributes, BertConfig___init__. cbn [In].
  rewrite !lookup_insert_is_Some'. intuition auto.
Qed.

End ConfigDictFacts.

(** X9. [BertConfig.from_dict] gives every key of the dictionary its
    value, keys that are no parameter of [__init__] included, and every
    attribute the dictionary lacks the default of [__init__], which for
    [vocab_size] is [None]. *)
Theorem from_dict_lookup {S : Scalar} (json_object : gmap string pyobj) (key : string) :
  from_dict json_object !! key
  = match json_object !! key with
    | Some value => Some value
    | None => BertConfig_defaults ONone !! key
    end.
Proof.
  rewrite from_dict_union, lookup_union.
  destruct (json_object !! key) as [v|].
  - destruct (BertConfig_defaults ONone !! key); reflexivity.
  - destruct (BertConfig_defaults ONone !! key); reflexivity.
Qed.

(** X10. [from_dict] undoes [to_dict] on every configuration that has the
    attributes [__init__] sets, whatever further attributes it has. *)
Theorem from_dict_to_dict {S : Scalar} (config : gmap string pyobj) :
  (forall key, In key config_attributes -> is_Some (config !! key)) ->
  from_dict (to_dict config) = config.
Proof.
  intros Hall. unfold to_dict. rewrite from_dict_union.
  apply map_eq. intros k. rewrite lookup_union.
  destruct (config !! k) as [v|] eqn:Hk.
  - destruct (BertConfig_defaults ONone !! k); reflexivity.
  - destruct (BertConfig_defaults ONone !! k) as [d|] eqn:Hd; [|reflexivity].
    exfalso.
    assert (Hin : In k config_attributes).
    { revert Hd. unfold BertConfig_defaults, BertConfig___init__, config_attributes.
      cbn [In]. rewrite !lookup_insert_Some, lookup_empty. intuition (auto; congruence). }
    destruct (Hall k Hin) as [v Hv]. congruence.
Qed.

(* ===================================================================== *)
(** ** What a computation returns *)
(* ===================================================================== *)

Section Yields.
Context {S : Scalar} {R : Sampler S}.

Lemma bind_returns {A B} (m : build A) (k : A -> build B) (g : graph) b :
  fst (bind m k g) = Ok b ->
  exists a, fst (m g) = Ok a /\ fst (k a (snd (m g))) = Ok b.
Proof.
  unfold bind. destruct (m g) as [[a|e] g1]; cbn [fst snd]; [|discriminate].
  intros H. exists a. split; [reflexivity|exact H].
Qed.

Lemma yields_ret {A} (a : A) (Q : A -> Prop) : Q a -> yields (ret a) Q.
Proof. intros H g a' [= <-]. exact H. Qed.

Lemma yields_raise {A} e (Q : A -> Prop) : yields (raise (A:=A) e) Q.
Proof. intros g a H. discriminate H. Qed.

Lemma yields_lift {A} (r : res A) (Q : A -> Prop) :
  (forall a, r = Ok a -> Q a) -> yields (lift r) Q.
Proof. intros H g a E. apply H. exact E. Qed.

Lemma yields_bind {A B} (P : A -> Prop) (m : build A) (k : A -> build B)
    (Q : B -> Prop) :
  yields m P -> (forall a, P a -> yields (k a) Q) -> yields (bind m k) Q.
Proof.
  intros Hm Hk g b H. apply bind_returns in H as (a & Ha & Hb).
  exact (Hk a (Hm g a Ha) _ b Hb).
Qed.

Lemma yields_bind_lift {A B} (r : res A) (k : A -> build B) (Q : B -> Prop) :
  (forall a, r = Ok a -> yields (k a) Q) -> yields (bind (lift r) k) Q.
Proof.
  intros Hk. apply (yields_bind (fun a => r = Ok a)); [|exact Hk].
  apply yields_lift. auto.
Qed.

Lemma yields_bind_any {A B} (m : build A) (k : A -> build B) (Q : B -> Prop) :
  (forall a, yields (k a) Q) -> yields (bind m k) Q.
Proof.
  intros Hk. apply (yields_bind (fun _ => True)); [|auto].
  intros g a _. exact I.
Qed.

Lemma yields_variable_scope {A} name (body : build A) (Q : A -> Prop) :
  yields body Q -> yields (variable_scope name body) Q.
Proof.
  intros Hb g a. unfold variable_scope.
  destruct (body _) as [r g'] eqn:E. cbn [fst]. intros ->.
  apply (Hb (set_scope (scope g ++ [name]) g)). rewrite E. reflexivity.
Qed.

Lemma yields_weaken {A} (m : build A) (P Q : A -> Prop) :
  yields m P -> (forall a, P a -> Q a) -> yields m Q.
Proof. intros Hm H g a E. apply H. exact (Hm g a E). Qed.

Lemma yields_get_variable name dims i :
  yields (get_variable name dims i) (fun v => static_shape dims = Ok (shape v)).
Proof.
  intros g v H. destruct (get_variable name dims i g) as [r g'] eqn:E.
  cbn [fst] in H. subst r.
  destruct (get_variable_ok _ _ _ _ _ _ E) as (sh & Hst & <-). exact Hst.
Qed.

Lemma static_shape_ok dims sh :
  static_shape dims = Ok sh -> sh = map Z.to_nat dims.
Proof.
  unfold static_shape. destruct (existsb _ _); [discriminate|].
  intros [= <-]. reflexivity.
Qed.

Lemma yields_dropout x p : yields (dropout x p) (fun y => shape y = shape x).
Proof.
  intros g y. unfold dropout.
  destruct p as [p|]; [|intros [= <-]; reflexivity].
  destruct (feqb p fzero); [intros [= <-]; reflexivity|].
  unfold bind, tf_nn_dropout, ret.
  destruct (negb _); [discriminate|].
  destruct (feqb _ fone); cbn [fst]; intros [= <-]; reflexivity.
Qed.

Lemma yields_layer_norm x name :
  yields (layer_norm x name) (fun y => shape y = shape x).
Proof.
  unfold layer_norm. apply yields_variable_scope.
  apply yields_bind_any. intros w.
  apply yields_bind_any. intros beta.
  apply yields_bind_any. intros gamma.
  apply yields_ret. reflexivity.
Qed.

Lemma yields_layer_norm_and_dropout x p name :
  yields (layer_norm_and_dropout x p name) (fun y => shape y = shape x).
Proof.
  unfold layer_norm_and_dropout.
  apply (yields_bind (fun y => shape y = shape x)); [apply yields_layer_norm|].
  intros y Hy.
  apply (yields_bind (fun z => shape z = shape y)); [apply yields_dropout|].
  intros z Hz. apply yields_ret. congruence.
Qed.

(** The shapes of products and sums. *)
Lemma tf_matmul_shape (a b c : tensor F) (tb : bool) rows k :
  tf_matmul a b tb = Ok c -> shape a = [rows; k] ->
  shape c = [rows; nth (if tb then 0 else 1) (shape b) 0] /\ rank b = 2.
Proof.
  unfold tf_matmul, rank. intros H Ha. rewrite Ha in H. cbn [length] in H.
  destruct (Nat.eqb_spec 2 (length (shape b))) as [Hb|]; [|discriminate].
  cbn [Nat.ltb Nat.leb negb orb Nat.sub firstn nth app] in H.
  destruct (_ || _)%bool; [discriminate|].
  injection H as <-. rewrite shape_tabulate. split; [|congruence].
  destruct tb; reflexivity.
Qed.

Lemma tf_add_shape (a b c : tensor F) :
  tf_add a b = Ok c -> broadcast_shape (shape a) (shape b) = Some (shape c).
Proof.
  unfold tf_add, tf_binop. destruct (broadcast_shape _ _) as [sh|]; [|discriminate].
  intros [= <-]. rewrite shape_tabulate. reflexivity.
Qed.

Lemma broadcast_shape_bias rows w : broadcast_shape [rows; w] [w] = Some [rows; w].
Proof.
  unfold broadcast_shape. cbn. rewrite Nat.eqb_refl. reflexivity.
Qed.

Lemma broadcast_shape_width a b w sh :
  broadcast_shape [a; w] [b; w] = Some sh -> exists c, sh = [c; w].
Proof.
  unfold broadcast_shape. cbn. rewrite Nat.eqb_refl.
  destruct (a =? b); [|destruct (a =? 1); [|destruct (b =? 1)]];
    cbn; intros [= <-]; eauto.
Qed.

Lemma broadcast_rev_refl sh : broadcast_rev sh sh = Some sh.
Proof.
  induction sh as [|d sh IH]; [reflexivity|].
  cbn. rewrite Nat.eqb_refl, IH. reflexivity.
Qed.

Lemma broadcast_shape_refl sh : broadcast_shape sh sh = Some sh.
Proof.
  unfold broadcast_shape. rewrite broadcast_rev_refl. cbn.
  rewrite rev_involutive. reflexivity.
Qed.

Lemma broadcast_shape_positions b s w :
  broadcast_shape [b; s; w] [1; s; w] = Some [b; s; w].
Proof.
  unfold broadcast_shape. cbn. rewrite !Nat.eqb_refl.
  destruct (Nat.eqb_spec b 1) as [->|_]; reflexivity.
Qed.

(** A dense layer without activation on a matrix gives a matrix with as
    many rows and [units] columns. *)
Lemma yields_dense inputs units name init :
  yields (tf_layers_dense inputs units PyNone name init)
    (fun out => shape out = [nth 0 (shape inputs) 0; Z.to_nat units]
                /\ rank inputs = 2).
Proof.
  unfold tf_layers_dense. apply yields_variable_scope.
  apply yields_bind_lift. intros w Hw.
  apply (yields_bind _ _ _ _ (yields_get_variable _ _ _)). intros kernel Hk.
  apply (yields_bind _ _ _ _ (yields_get_variable _ _ _)). intros bias Hb.
  apply static_shape_ok in Hk, Hb. cbn in Hk, Hb.
  apply yields_bind_lift. intros out1 H1.
  apply yields_bind_lift. intros out2 H2.
  apply yields_lift. intros out [= <-].
  assert (Hr : rank inputs = 2).
  { unfold tf_matmul, rank in H1. rewrite Hk in H1. unfold rank.
    cbn [length] in H1.
    destruct (Nat.ltb_spec (length (shape inputs)) 2); [discriminate|].
    destruct (Nat.eqb_spec (length (shape inputs)) 2); [assumption|discriminate]. }
  unfold rank in Hr.
  destruct (shape inputs) as [|rows [|k [|? ?]]] eqn:Hs; try discriminate Hr.
  destruct (tf_matmul_shape _ _ _ _ _ _ H1 Hs) as [Hs1 _].
  rewrite Hk in Hs1. cbn [nth] in Hs1.
  apply tf_add_shape in H2. rewrite Hs1, Hb, broadcast_shape_bias in H2.
  injection H2 as <-. split; [reflexivity|].
  unfold rank. rewrite Hs. reflexivity.
Qed.

End Yields.

Section EncoderShapes.
Context {S : Scalar} {R : Sampler S}.

(** The block that ends both halves of a layer: projection to the hidden
    size, dropout, residual sum, layer normalisation. *)
Lemma yields_output_block (x other : tensor F) (hidden_size : Z) (p : option F)
    (init : initializer) :
  matrix_of_width (Z.to_nat hidden_size) other ->
  yields (out <- tf_layers_dense x hidden_size PyNone None init ;;
          out <- dropout out p ;;
          residual <- lift (tf_add out other) ;;
          layer_norm residual None)%build
    (matrix_of_width (Z.to_nat hidden_size)).
Proof.
  intros [rows Ho].
  apply (yields_bind _ _ _ _ (yields_dense _ _ _ _)). intros a [Ha _].
  apply (yields_bind _ _ _ _ (yields_dropout _ _)). intros b Hb.
  apply yields_bind_lift. intros residual Hr.
  apply (yields_weaken _ _ _ (yields_layer_norm _ _)). intros y Hy.
  apply tf_add_shape in Hr. rewrite Hb, Ha, Ho in Hr.
  apply broadcast_shape_width in Hr as [c Hc].
  exists c. congruence.
Qed.

Lemma yields_transformer_layer idx prev mask hs n ah inter act ph pa r b s :
  matrix_of_width (Z.to_nat hs) prev ->
  yields (transformer_layer idx prev mask hs n ah inter act ph pa r b s)
    (matrix_of_width (Z.to_nat hs)).
Proof.
  intros Hprev. unfold transformer_layer.
  apply yields_variable_scope.
  apply (yields_bind (matrix_of_width (Z.to_nat hs))).
  - apply yields_variable_scope.
    apply yields_bind_any. intros heads.
    apply yields_bind_any. intros attention_output.
    apply yields_variable_scope.
    apply yields_output_block. exact Hprev.
  - intros attention_output Hao.
    apply yields_bind_any. intros intermediate_output.
    apply yields_variable_scope.
    apply yields_output_block. exact Hao.
Qed.

(** The loop adds one output per layer, each a matrix of the hidden
    width. *)
Lemma yields_transformer_layers idxs prev outs mask hs n ah inter act ph pa r b s :
  matrix_of_width (Z.to_nat hs) prev ->
  Forall (matrix_of_width (Z.to_nat hs)) outs ->
  yields (transformer_layers idxs prev outs mask hs n ah inter act ph pa r b s)
    (fun res => matrix_of_width (Z.to_nat hs) (fst res)
                /\ Forall (matrix_of_width (Z.to_nat hs)) (snd res)
                /\ length (snd res) = length outs + length idxs).
Proof.
  revert prev outs. induction idxs as [|idx idxs IH]; intros prev outs Hp Ho;
    cbn [transformer_layers].
  - apply yields_ret. cbn. auto.
  - apply (yields_bind _ _ _ _ (yields_transformer_layer _ _ _ _ _ _ _ _ _ _ _ _ _ Hp)).
    intros out Hout.
    apply (yields_weaken _ _ _ (IH out (outs ++ [out]) Hout
                                   ltac:(apply Forall_app; split; [exact Ho|auto]))).
    intros res (H1 & H2 & H3). rewrite length_app in H3. cbn in *.
    split; [exact H1|]. split; [exact H2|lia].
Qed.

Lemma map_res_Forall2 {A B} (f : A -> res B) (l : list A) (l' : list B) :
  map_res f l = Ok l' -> Forall2 (fun a b => f a = Ok b) l l'.
Proof.
  revert l'. induction l as [|a l IH]; intros l'; cbn [map_res].
  - intros [= <-]. constructor.
  - destruct (f a) as [b|e] eqn:Hb; [|discriminate]. cbn [rbind].
    destruct (map_res f l) as [bs|e]; [|discriminate]. cbn [rbind].
    intros [= <-]. constructor; [exact Hb|apply IH; reflexivity].
Qed.

(** Unflattening a matrix of width [w] against a shape of rank 3. *)
Lemma reshape_from_matrix_rank_3 (t r : tensor F) (b s w0 w : nat) :
  matrix_of_width w t ->
  reshape_from_matrix t [b; s; w0] = Ok r -> shape r = [b; s; w].
Proof.
  intros [rows Ht]. unfold reshape_from_matrix.
  cbn [length Nat.eqb get_shape_list rbind]. rewrite Ht.
  cbn [py_last List.last rbind py_init removelast app].
  rewrite tf_reshape_dims_of. destruct (_ =? _); [|discriminate].
  intros [= <-]. reflexivity.
Qed.

Lemma yields_transformer_model_body ah x mask hs nl n inter act ph pa r all :
  yields (transformer_model_body ah x mask hs nl n inter act ph pa r all)
    (fun out => match out with
                | AllLayers final_outputs =>
                    all = true /\ length final_outputs = Z.to_nat nl
                    /\ Forall (fun t => shape t = shape x) final_outputs
                | FinalLayer final_output =>
                    all = false /\ shape final_output = shape x
                end).
Proof.
  unfold transformer_model_body.
  apply yields_bind_lift. intros input_shape Hshape.
  apply yields_bind_lift. intros b Hb.
  apply yields_bind_lift. intros s Hs.
  apply yields_bind_lift. intros w Hw.
  assert (Hsh : input_shape = shape x /\ shape x = [b; s; w]).
  { unfold get_shape_list, assert_rank in Hshape.
    destruct (bool_decide _) eqn:Hd; [|discriminate]. injection Hshape as <-.
    apply bool_decide_eq_true in Hd. apply elem_of_singleton in Hd. unfold rank in Hd.
    destruct (shape x) as [|? [|? [|? [|? ?]]]]; try discriminate Hd.
    cbn in Hb, Hs, Hw. split; congruence. }
  destruct Hsh as [-> Hx].
  apply (yields_bind (fun _ : unit => Z.to_nat hs = w)).
  { destruct (Z.eqb_spec (Z.of_nat w) hs) as [<-|_]; cbn [negb].
    - apply yields_ret. apply Nat2Z.id.
    - apply yields_raise. }
  intros _ Hwidth.
  apply yields_bind_lift. intros prev Hprev.
  assert (Hp : matrix_of_width (Z.to_nat hs) prev).
  { assert (Hlen : 2 < length (shape x)) by (rewrite Hx; cbn; lia).
    destruct w as [|w'].
    - rewrite (reshape_to_matrix_zero_width x [b; s] Hx Hlen) in Hprev.
      discriminate Hprev.
    - rewrite (reshape_to_matrix_last x [b; s] (Datatypes.S w') Hx Hlen ltac:(lia)) in Hprev.
      injection Hprev as <-. exists (numel [b; s]). rewrite Hwidth. reflexivity. }
  apply (yields_bind _ _ _ _
           (yields_transformer_layers _ _ [] _ _ _ _ _ _ _ _ _ _ _ Hp ltac:(constructor))).
  intros [prev' outs] (H1 & H2 & H3). cbn [fst snd length] in H1, H2, H3.
  rewrite length_seq in H3. rewrite Hwidth in H1, H2.
  destruct all.
  - apply yields_bind_lift. intros final_outputs Hf.
    apply yields_ret. split; [reflexivity|].
    apply map_res_Forall2 in Hf.
    split; [rewrite <- (Forall2_length _ _ _ Hf); exact H3|].
    rewrite Hx. clear H3. induction Hf as [|t t' outs outs' Ht _ IH]; [constructor|].
    apply Forall_cons_iff in H2 as [Hm H2]. rewrite Hx in Ht.
    constructor; [exact (reshape_from_matrix_rank_3 _ _ _ _ _ _ Hm Ht)|apply IH; exact H2].
  - apply yields_bind_lift. intros final_output Hf.
    apply yields_ret. split; [reflexivity|].
    rewrite Hx in Hf |- *. exact (reshape_from_matrix_rank_3 _ _ _ _ _ _ H1 Hf).
Qed.

Lemma yields_transformer_model x mask hs nl n inter act ph pa r all :
  yields (transformer_model x mask hs nl n inter act ph pa r all)
    (fun out => match out with
                | AllLayers final_outputs =>
                    all = true /\ length final_outputs = Z.to_nat nl
                    /\ Forall (fun t => shape t = shape x) final_outputs
                | FinalLayer final_output =>
                    all = false /\ shape final_output = shape x
                end).
Proof.
  unfold transformer_model.
  apply yields_bind_any. intros remainder.
  apply yields_bind_any. intros _.
  apply yields_bind_any. intros ah.
  apply yields_transformer_model_body.
Qed.

End EncoderShapes.

(** X11. Whatever [transformer_model] returns has the shape of its input:
    with [do_return_all_layers] a list of exactly [num_hidden_layers]
    tensors (none when that number is zero or negative), each of the
    shape of [input_tensor], and without it one tensor of that shape. *)
Theorem transformer_model_shapes {S : Scalar} {R : Sampler S}
    (input_tensor : tensor F) (attention_mask : option (tensor F))
    (hidden_size num_hidden_layers num_attention_heads intermediate_size : Z)
    (intermediate_act_fn : pyval)
    (hidden_dropout_prob attention_probs_dropout_prob : option F)
    (initializer_range : F) (do_return_all_layers : bool) (g : graph)
    (out : encoder_output) :
  fst (transformer_model input_tensor attention_mask hidden_size num_hidden_layers
         num_attention_heads intermediate_size intermediate_act_fn
         hidden_dropout_prob attention_probs_dropout_prob initializer_range
         do_return_all_layers g) = Ok out ->
  match out with
  | AllLayers final_outputs =>
      do_return_all_layers = true
      /\ length final_outputs = Z.to_nat num_hidden_layers
      /\ Forall (fun t => shape t = shape input_tensor) final_outputs
  | FinalLayer final_output =>
      do_return_all_layers = false /\ shape final_output = shape input_tensor
  end.
Proof. apply yields_transformer_model. Qed.

Section EncoderEdges.
Context {S : Scalar} {R : Sampler S}.

Lemma get_shape_list_rank_3 {A} (t : tensor A) b s w :
  shape t = [b; s; w] -> get_shape_list t (Some (RankInt 3)) = Ok [b; s; w].
Proof.
  intros H. unfold get_shape_list, assert_rank, rank. rewrite H.
  rewrite bool_decide_true by (cbn; set_solver). reflexivity.
Qed.

Lemma get_shape_list_not_rank {A} (t : tensor A) r :
  rank t <> r ->
  get_shape_list t (Some (RankInt r)) = Raise (ValueError assert_rank_msg).
Proof.
  intros H. unfold get_shape_list, assert_rank.
  rewrite bool_decide_false by set_solver. reflexivity.
Qed.

End EncoderEdges.



(** X14. [embedding_postprocessor] checks its input before it creates a
    variable: an input whose rank is not 3 raises the [ValueError] of
    [assert_rank], and with [use_token_type] and no [token_type_ids] an
    input of rank 3 raises the [ValueError] about [token_type_ids]; in
    both cases the state is the one the function was called in. *)
Theorem embedding_postprocessor_input_errors {S : Scalar} {R : Sampler S}
    (input_tensor : tensor F) (use_token_type : bool)
    (token_type_ids : option (tensor Z)) (token_type_vocab_size : Z)
    (token_type_embedding_name : string) (use_position_embeddings : bool)
    (position_embedding_name : string) (initializer_range : F)
    (max_position_embeddings : Z) (dropout_prob : option F) (g : graph) :
  (rank input_tensor <> 3 ->
     embedding_postprocessor input_tensor use_token_type token_type_ids
       token_type_vocab_size token_type_embedding_name use_position_embeddings
       position_embedding_name initializer_range max_position_embeddings
       dropout_prob g
     = (Raise (ValueError assert_rank_msg), g))
  /\ (rank input_tensor = 3 -> use_token_type = true -> token_type_ids = None ->
        embedding_postprocessor input_tensor use_token_type token_type_ids
          token_type_vocab_size token_type_embedding_name use_position_embeddings
          position_embedding_name initializer_range max_position_embeddings
          dropout_prob g
        = (Raise (ValueError token_type_ids_msg), g)).
Proof.
  unfold embedding_postprocessor. split.
  - intros Hr. rewrite (get_shape_list_not_rank _ _ Hr). reflexivity.
  - intros Hr -> ->. unfold rank in Hr.
    destruct (shape input_tensor) as [|b [|s [|w [|? ?]]]] eqn:Hs;
      try discriminate Hr.
    rewrite (get_shape_list_rank_3 _ _ _ _ Hs). reflexivity.
Qed.

(* ===================================================================== *)
(** ** The claims on concrete inputs *)
(* ===================================================================== *)

#[local] Existing Instances Rational.scalar RationalFacts.laws Rational.sampler
  RationalFacts.sampler_laws.

Lemma attention_scores_cells_witness :
  exists scores,
    attention_scores (S:=Rational.scalar)
      Examples.q_2x2 Examples.k_3x2 (Some Examples.m_1x2x3)
      (Z.of_nat 2) (Z.of_nat 1) (Z.of_nat 1) (Z.of_nat 2) (Z.of_nat 3) = Ok scores
    /\ shape scores = [1; 2; 2; 3]
    /\ forall b n f t, b < 1 -> n < 2 -> f < 2 -> t < 3 ->
         fget scores [b; n; f; t] =
           fadd (scaled_dot Examples.q_2x2 Examples.k_3x2 2 3 1 b n f t)
                (mask_bias Examples.m_1x2x3 b f t).
Proof.
  apply (attention_scores_cells (S:=Rational.scalar)
           Examples.q_2x2 Examples.k_3x2 (Some Examples.m_1x2x3) 1 2 2 3 1).
  - reflexivity.
  - reflexivity.
  - lia.
  - intros m Hm. injection Hm as <-. split; reflexivity.
Defined.

Lemma embedding_lookup_strategies_witness :
  let name := scoped_name (scope Examples.g0) "word_embeddings" in
  let table :=
    initial_value (create_initializer (Rational.dec 2 2)) name
      [Z.to_nat 100; Z.to_nat 8] in
  embedding_lookup (S:=Rational.scalar) Examples.ids_2x3 100 8 (Rational.dec 2 2)
    "word_embeddings" true Examples.g0
  = embedding_lookup Examples.ids_2x3 100 8 (Rational.dec 2 2)
      "word_embeddings" false Examples.g0
  /\ forall B L : nat,
       shape Examples.ids_2x3 = [B; L] ->
       (0 <= 100)%Z -> (0 <= 8)%Z -> is_free name Examples.g0 ->
       exists output,
         embedding_lookup Examples.ids_2x3 100 8 (Rational.dec 2 2)
           "word_embeddings" false Examples.g0
         = (Ok (output, table), with_variables [(name, table)] Examples.g0)
         /\ shape output = [B; L; Z.to_nat 8]
         /\ forall b l e, b < B -> l < L -> e < Z.to_nat 8 ->
              fget output [b; l; e]
              = fget table [Z.to_nat (tget 0%Z Examples.ids_2x3 [b; l]); e].
Proof.
  apply (embedding_lookup_strategies (S:=Rational.scalar) (L:=RationalFacts.laws)
           Examples.ids_2x3 100 8 (Rational.dec 2 2) "word_embeddings" Examples.g0).
  - reflexivity.
  - repeat constructor; lia.
  - intros off. apply RationalFacts.all_regular.
Defined.

(** A table with infinite cells, as a spread of infinity gives: the rows
    gathered are rows of the table, and the product with the one-hot
    encoding is NaN in every cell. *)
Lemma embedding_lookup_counterexample :
  let run flag :=
    fst (embedding_lookup (S:=Binary64.scalar) (R:=Binary64.sampler)
           Examples.ids_1_2 3 2 PrimFloat.infinity "word_embeddings" flag
           Examples.g0_binary64) in
  Forall (fun id => (0 <= id < 3)%Z) (data Examples.ids_1_2)
  /\ Examples.kinds (Examples.first_of (run true))
     = Ok ([1; 2; 2], [Binary64.NaN; Binary64.NaN; Binary64.NaN; Binary64.NaN])
  /\ Examples.kinds (Examples.first_of (run false))
     = Ok ([1; 2; 2], [Binary64.PlusInfinity; Binary64.MinusInfinity;
                       Binary64.NaN; Binary64.PlusInfinity])
  /\ run true <> run false.
Proof.
  cbv zeta.
  assert (H1 : Examples.kinds
                 (Examples.first_of (fst (embedding_lookup (S:=Binary64.scalar)
                                 (R:=Binary64.sampler) Examples.ids_1_2 3 2
                                 PrimFloat.infinity "word_embeddings" true
                                 Examples.g0_binary64)))
               = Ok ([1; 2; 2],
                     [Binary64.NaN; Binary64.NaN; Binary64.NaN; Binary64.NaN]))
    by (vm_compute; reflexivity).
  assert (H2 : Examples.kinds
                 (Examples.first_of (fst (embedding_lookup (S:=Binary64.scalar)
                                 (R:=Binary64.sampler) Examples.ids_1_2 3 2
                                 PrimFloat.infinity "word_embeddings" false
                                 Examples.g0_binary64)))
               = Ok ([1; 2; 2],
                     [Binary64.PlusInfinity; Binary64.MinusInfinity;
                      Binary64.NaN; Binary64.PlusInfinity]))
    by (vm_compute; reflexivity).
  split; [repeat constructor; lia|]. split; [exact H1|]. split; [exact H2|].
  intros E. rewrite E, H2 in H1. discriminate H1.
Qed.

Lemma create_attention_mask_cells_witness :
  exists mask,
    create_attention_mask_from_input_mask (S:=Rational.scalar)
      Examples.from_1x2 Examples.mask_1x5 = Ok mask
    /\ shape mask = [1; 2; 5]
    /\ forall b f t, b < 1 -> f < 2 -> t < 5 ->
         fget mask [b; f; t] = of_Z (tget 0%Z Examples.mask_1x5 [b; t]).
Proof.
  apply (create_attention_mask_cells (S:=Rational.scalar) (L:=RationalFacts.laws)
           Examples.from_1x2 Examples.mask_1x5 1 2 5 []).
  - reflexivity.
  - simpl. lia.
  - reflexivity.
  - reflexivity.
Defined.

Lemma dropout_cases_witness :
  dropout Examples.x_2 None Examples.g0 = (Ok Examples.x_2, Examples.g0)
  /\ (forall p, feqb p fzero = true ->
        dropout Examples.x_2 (Some p) Examples.g0 = (Ok Examples.x_2, Examples.g0))
  /\ dropout Examples.x_2 (Some fone) Examples.g0
     = (Raise (ValueError tf_nn_dropout_msg), Examples.g0)
  /\ (forall p,
        let keep := fsub fone p in
        feqb p fzero = false ->
        fltb fzero keep = true -> fleb keep fone = true -> feqb keep fone = false ->
        exists output,
          dropout Examples.x_2 (Some p) Examples.g0
          = (Ok output, set_dropouts (dropouts Examples.g0 ++ [keep]) Examples.g0)
          /\ shape output = shape Examples.x_2
          /\ length (data output) = length (data Examples.x_2)
          /\ forall off xi, data Examples.x_2 !! off = Some xi ->
               exists cell,
                 data output !! off = Some cell
                 /\ (survives keep (length (dropouts Examples.g0)) off = true ->
                     cell = fdiv xi keep)
                 /\ (survives keep (length (dropouts Examples.g0)) off = false ->
                     cell = fmul (fdiv xi keep) fzero
                     /\ (finite (fdiv xi keep) -> feqb cell fzero = true))).
Proof.
  apply (dropout_cases (S:=Rational.scalar) (L:=RationalFacts.laws)
           (SL:=RationalFacts.sampler_laws) Examples.x_2 Examples.g0).
Defined.

(** With probability 1 [dropout] raises; it does not return a tensor of
    zeros. *)
Lemma dropout_probability_one_counterexample :
  dropout Examples.x_2 (Some (Rational.of_int 1)) Examples.g0
  = (Raise (ValueError tf_nn_dropout_msg), Examples.g0)
  /\ ~ (exists output,
          fst (dropout Examples.x_2 (Some (Rational.of_int 1)) Examples.g0) = Ok output
          /\ Forall (fun v => v = fzero) (data output)).
Proof.
  assert (E : dropout Examples.x_2 (Some (Rational.of_int 1)) Examples.g0
              = (Raise (ValueError tf_nn_dropout_msg), Examples.g0))
    by reflexivity.
  split; [exact E|].
  intros (output & Hout & _). rewrite E in Hout. discriminate Hout.
Qed.

(** The empty string and "RELU" are not among the four names, and
    [get_activation] accepts both. *)
Lemma get_activation_counterexample :
  ~ In ""%string activation_names
  /\ get_activation (PyStr "") = Ok PyNone
  /\ ~ In "RELU"%string activation_names
  /\ get_activation (PyStr "RELU") = Ok (PyCallable tf_nn_relu).
Proof.
  split; [|split; [reflexivity|split; [|reflexivity]]];
    unfold activation_names; cbn [In]; intros H;
    repeat (destruct H as [H|H]; [discriminate H|]); exact H.
Qed.

Lemma inference_disables_dropout_witness :
  let c := Examples.two_rate_config in
  let g := Examples.g_two_rates in
  let l := fresh (dom (heap g)) in
  (working_config 0 false g
   = (Ok l, set_heap (<[l := without_dropout c]> (heap g)) g)
   /\ hidden_dropout_prob (without_dropout c) = Some fzero
   /\ attention_probs_dropout_prob (without_dropout c) = Some fzero
   /\ dropouts (snd (BertModel_init 0 false Examples.ids_1x2 None None false None g))
      = dropouts g)
  /\ (working_config 0 true g = (Ok l, set_heap (<[l := c]> (heap g)) g)
      /\ (exists new,
            dropouts (snd (BertModel_init 0 true Examples.ids_1x2 None None false
                             None g))
            = dropouts g ++ new
            /\ Forall (fun keep =>
                         (exists p, hidden_dropout_prob c = Some p
                                    /\ keep = fsub fone p)
                         \/ (exists p, attention_probs_dropout_prob c = Some p
                                       /\ keep = fsub fone p)) new)
      /\ (forall model g',
            BertModel_init 0 true Examples.ids_1x2 None None false None g
            = (Ok model, g') ->
            dropouts g'
            = dropouts g
              ++ model_dropout_nodes (hidden_dropout_prob c)
                   (attention_probs_dropout_prob c)
                   (Z.to_nat (num_hidden_layers c)))).
Proof.
  apply (inference_disables_dropout (S:=Rational.scalar) (L:=RationalFacts.laws)
           0 Examples.two_rate_config Examples.ids_1x2 None None false None
           Examples.g_two_rates).
  reflexivity.
Defined.

Lemma BertModel_init_keeps_config_witness :
  let g' := snd (BertModel_init 0 false Examples.ids_1x2 None None false None
                   Examples.g_config) in
  heap g' !! 0 = Some Examples.tiny_config
  /\ (forall l c0, heap Examples.g_config !! l = Some c0 -> heap g' !! l = Some c0)
  /\ fst (working_config 0 false Examples.g_config)
     = Ok (fresh (dom (heap Examples.g_config)))
  /\ fresh (dom (heap Examples.g_config)) <> 0.
Proof.
  apply (BertModel_init_keeps_config (S:=Rational.scalar) 0 Examples.tiny_config
           false Examples.ids_1x2 None None false None Examples.g_config).
  reflexivity.
Defined.

Lemma get_shape_list_cases_witness :
  get_shape_list (mk_tensor [2; 3] [1; 2; 3; 4; 5; 6]%Z) (Some (RankList [3; 2; 2]))
  = Ok [2; 3]
  /\ get_shape_list (mk_tensor [6] [1; 2; 3; 4; 5; 6]%Z) (Some (RankInt 2))
     = Raise (ValueError assert_rank_msg).
Proof.
  split.
  - apply (proj1 (get_shape_list_cases (mk_tensor [2; 3] [1; 2; 3; 4; 5; 6]%Z)
                      (Some (RankList [3; 2; 2])))).
    vm_compute. lia.
  - apply (proj2 (get_shape_list_cases (mk_tensor [6] [1; 2; 3; 4; 5; 6]%Z)
                      (Some (RankInt 2)))).
    vm_compute. lia.
Defined.

Lemma reshape_to_matrix_cases_witness :
  reshape_to_matrix (mk_tensor [3] [1; 2; 3]%Z)
  = Raise (ValueError reshape_to_matrix_msg)
  /\ reshape_to_matrix (mk_tensor [3; 1] [1; 2; 3]%Z) = Ok (mk_tensor [3; 1] [1; 2; 3]%Z)
  /\ reshape_to_matrix (mk_tensor [2; 1; 3; 2] (repeat 7%Z 12))
     = Ok (mk_tensor [6; 2] (repeat 7%Z 12))
  /\ exists msg,
       reshape_to_matrix (mk_tensor [2; 1; 3; 0] (@nil Z))
       = Raise (InvalidArgumentError msg).
Proof.
  split; [|split; [|split]].
  - apply (proj1 (reshape_to_matrix_cases (mk_tensor [3] [1; 2; 3]%Z))).
    vm_compute. lia.
  - apply (proj1 (proj2 (reshape_to_matrix_cases (mk_tensor [3; 1] [1; 2; 3]%Z)))).
    reflexivity.
  - apply (proj1 (proj2 (proj2 (reshape_to_matrix_cases
                                  (mk_tensor [2; 1; 3; 2] (repeat 7%Z 12)))))).
    + vm_compute. lia.
    + vm_compute. lia.
  - apply (proj2 (proj2 (proj2 (reshape_to_matrix_cases
                                  (mk_tensor [2; 1; 3; 0] (@nil Z)))))).
    + vm_compute. lia.
    + reflexivity.
Defined.

Lemma reshape_from_matrix_cases_witness :
  reshape_from_matrix (mk_tensor [3; 1] [1; 2; 3]%Z) [7; 9] = Ok (mk_tensor [3; 1] [1; 2; 3]%Z)
  /\ reshape_from_matrix (mk_tensor [4; 3] (repeat 0%Z 12)) [2; 2; 5]
     = Ok (mk_tensor [2; 2; 3] (repeat 0%Z 12))
  /\ reshape_from_matrix (mk_tensor [] [5%Z]) [1; 1; 1] = Raise IndexError.
Proof.
  split; [|split].
  - apply (proj1 (reshape_from_matrix_cases (mk_tensor [3; 1] [1; 2; 3]%Z) [7; 9])).
    reflexivity.
  - apply (proj1 (proj2 (reshape_from_matrix_cases
                           (mk_tensor [4; 3] (repeat 0%Z 12)) [2; 2; 5]))).
    + vm_compute. lia.
    + simpl. discriminate.
  - apply (proj2 (proj2 (reshape_from_matrix_cases (mk_tensor [] [5%Z]) [1; 1; 1]))).
    + vm_compute. lia.
    + reflexivity.
Defined.

Lemma reshape_to_matrix_inverts_reshape_from_matrix_witness :
  (x <- reshape_from_matrix (mk_tensor [6; 2] (repeat 1%Z 12)) [2; 3; 99] ;;
   reshape_to_matrix x)%res = Ok (mk_tensor [6; 2] (repeat 1%Z 12)).
Proof.
  apply (reshape_to_matrix_inverts_reshape_from_matrix
           (mk_tensor [6; 2] (repeat 1%Z 12)) [2; 3; 99] 6 2).
  - reflexivity.
  - lia.
  - vm_compute. lia.
  - reflexivity.
Defined.

Lemma checkpoint_name_cases_witness :
  checkpoint_name (mk_variable "bert/pooler/dense/kernel:0" [2; 2])
  = "bert/pooler/dense/kernel"%string
  /\ checkpoint_name (mk_variable "global_step" []) = "global_step"%string.
Proof.
  split.
  - apply (proj1 (checkpoint_name_cases
                    (mk_variable "bert/pooler/dense/kernel:0" [2; 2]))).
    split; [reflexivity|]. exists "0"%string.
    split; [split; [discriminate|reflexivity]|]. left. reflexivity.
  - apply (proj2 (checkpoint_name_cases (mk_variable "global_step" []))).
    intros prefix H. apply match_index_suffix_indexed in H. discriminate H.
Defined.

Lemma checkpoint_variable_is_initialized_witness :
  let tvars := [mk_variable "bert/embeddings/word_embeddings:0" [3; 2];
                mk_variable "output_weights:0" [2; 2]] in
  let init_vars := [("bert/embeddings/word_embeddings"%string, [3; 2]);
                    ("cls/predictions/output_bias"%string, [3])] in
  In ("bert/embeddings/word_embeddings"%string, "bert/embeddings/word_embeddings"%string)
     (fst (get_assignment_map_from_checkpoint tvars init_vars))
  /\ snd (get_assignment_map_from_checkpoint tvars init_vars)
       !! "bert/embeddings/word_embeddings:0"%string = Some 1%Z.
Proof.
  intros tvars init_vars.
  apply (checkpoint_variable_is_initialized tvars init_vars
           (mk_variable "bert/embeddings/word_embeddings:0" [3; 2])
           "bert/embeddings/word_embeddings").
  - simpl. tauto.
  - reflexivity.
  - reflexivity.
  - simpl. tauto.
Defined.

Lemma from_dict_to_dict_witness :
  let config :=
    from_dict (S := Rational.scalar)
      {[ "vocab_size"%string := OInt 30522; "hidden_act"%string := OStr "relu";
         "directionality"%string := OStr "bidi" ]} in
  from_dict (to_dict config) = config.
Proof.
  intros config. apply (from_dict_to_dict config).
  intros key Hin. unfold config. rewrite from_dict_union.
  apply lookup_union_is_Some. right. apply init_sets_attributes. exact Hin.
Defined.

Lemma transformer_model_shapes_witness :
  match Examples.encoder_layers with
  | AllLayers final_outputs =>
      true = true
      /\ length final_outputs = Z.to_nat 2
      /\ Forall (fun t => shape t = shape Examples.encoder_input) final_outputs
  | FinalLayer final_output =>
      true = false /\ shape final_output = shape Examples.encoder_input
  end.
Proof.
  apply (transformer_model_shapes (S:=Rational.scalar) Examples.encoder_input None
           2 2 1 2 PyNone None None (Rational.dec 1 0) true Examples.g0).
  unfold Examples.encoder_layers.
  destruct (fst (transformer_model (S:=Rational.scalar) Examples.encoder_input None 2 2 1 2 PyNone
                   None None (Rational.dec 1 0) true Examples.g0)) as [out|e] eqn:E;
    [reflexivity|].
  assert (H : is_ok (fst (transformer_model (S:=Rational.scalar) Examples.encoder_input None 2 2 1 2
                            PyNone None None (Rational.dec 1 0) true Examples.g0))
              = true) by (vm_compute; reflexivity).
  rewrite E in H. discriminate H.
Defined.



Lemma embedding_postprocessor_input_errors_witness :
  embedding_postprocessor (Rational.vec [2; 2] [1; 2; 3; 4]%Z) true None 2
    "token_type_embeddings" true "position_embeddings" (Rational.dec 2 2) 4 None
    Examples.g0
  = (Raise (ValueError assert_rank_msg), Examples.g0)
  /\ embedding_postprocessor (Rational.vec [1; 2; 2] [1; 2; 3; 4]%Z) true None 2
       "token_type_embeddings" true "position_embeddings" (Rational.dec 2 2) 4 None
       Examples.g0
     = (Raise (ValueError token_type_ids_msg), Examples.g0).
Proof.
  split.
  - apply (proj1 (embedding_postprocessor_input_errors (S:=Rational.scalar)
                    (Rational.vec [2; 2] [1; 2; 3; 4]%Z) true None 2
                    "token_type_embeddings" true "position_embeddings"
                    (Rational.dec 2 2) 4 None Examples.g0)).
    vm_compute. lia.
  - apply (proj2 (embedding_postprocessor_input_errors (S:=Rational.scalar)
                    (Rational.vec [1; 2; 2] [1; 2; 3; 4]%Z) true None 2
                    "token_type_embeddings" true "position_embeddings"
                    (Rational.dec 2 2) 4 None Examples.g0)); reflexivity.
Defined.

(* ===================================================================== *)
(** ** The functions run on small inputs *)
(* ===================================================================== *)

(** The to-mask [1, 1, 1, 0, 0] gives, for each of the two from-rows, a
    row with ones in the first three columns and zeros in the last two. *)
Example attention_mask_example :
  Examples.cells
    (create_attention_mask_from_input_mask Examples.from_1x2 Examples.mask_1x5)
  = Ok ([1; 2; 5], [1; 1; 1; 0; 0; 1; 1; 1; 0; 0]%Q).
Proof. vm_compute. reflexivity. Qed.

(** One batch element, two heads of width 1, two from-positions and three
    to-positions: the masked cells carry the bias [-10000]. *)
Example attention_scores_example :
  Examples.cells
    (attention_scores Examples.q_2x2 Examples.k_3x2 (Some Examples.m_1x2x3)
       2 1 1 2 3)
  = Ok ([1; 2; 2; 3],
        [1; 0; -9999; 3; -10000; 3; 0; 2; -9998; 0; -9996; 4]%Q).
Proof. vm_compute. reflexivity. Qed.

(** Both lookup strategies return on a grid of valid ids. *)
Example embedding_lookup_example :
  is_ok (fst (embedding_lookup Examples.ids_2x3 100 8 (Rational.dec 2 2)
                "word_embeddings" true Examples.g0)) = true
  /\ is_ok (fst (embedding_lookup Examples.ids_2x3 100 8 (Rational.dec 2 2)
                   "word_embeddings" false Examples.g0)) = true.
Proof. split; vm_compute; reflexivity. Qed.

(** With probability one half and a uniform draw of one half every cell
    is kept and doubled. *)
Example dropout_example :
  Examples.cells (fst (dropout Examples.x_2 (Some (Rational.dec 5 1)) Examples.g0))
  = Ok ([2], [6; 8]%Q).
Proof. vm_compute. reflexivity. Qed.

(** On binary64 numbers, with a keep probability of one half and draws
    of one quarter and three quarters: the cells at even offsets are
    dropped and those at odd offsets kept and doubled; a dropped infinity
    is not a zero. *)
Example dropout_binary64_example :
  Examples.kinds
    (fst (dropout (S:=Binary64.scalar) (R:=Binary64.sampler)
            (mk_tensor [4] [Binary64.of_int 3; Binary64.of_int 4;
                            PrimFloat.infinity; PrimFloat.infinity])
            (Some (Binary64.dec 5 1)) Examples.g0_binary64))
  = Ok ([4], [Binary64.PlusZero; Binary64.whole 8; Binary64.NaN;
              Binary64.PlusInfinity]).
Proof. vm_compute. reflexivity. Qed.

(** On binary64 numbers a negative zero of the table is gathered as it
    is, and comes out of the product with the one-hot encoding as the
    positive zero. *)
Example negative_zero_example :
  let table : tensor Binary64.float :=
    mk_tensor [2; 1] [PrimFloat.opp (Binary64.of_int 0); Binary64.of_int 1] in
  let flat : tensor Z := mk_tensor [2] [0; 1]%Z in
  Examples.kinds (one_hot <- tf_one_hot (S:=Binary64.scalar) flat 2 ;;
                  tf_matmul one_hot table false)%res
  = Ok ([2; 1], [Binary64.PlusZero; Binary64.whole 1])
  /\ Examples.kinds (tf_gather (S:=Binary64.scalar) table flat)
     = Ok ([2; 1], [Binary64.MinusZero; Binary64.whole 1]).
Proof. split; vm_compute; reflexivity. Qed.

(** [int(a / b)] on binary64 numbers: exact on small quotients, rounded
    beyond 53 bits, and an [OverflowError] out of range. *)
Example int_div_example :
  py_int_div (S:=Binary64.scalar) 768 12 = Ok 64%Z
  /\ py_int_div (S:=Binary64.scalar) (3 * (2 ^ 53 + 1)) 3 = Ok (2 ^ 53)%Z
  /\ py_int_div (S:=Binary64.scalar) (-7) 2 = Ok (-3)%Z
  /\ py_int_div (S:=Binary64.scalar) (10 ^ 400) 1 = Raise OverflowError.
Proof. repeat split; vm_compute; reflexivity. Qed.

(** In training the model of two layers with the rates one half and one
    quarter adds seven nodes: the keep probability one half on the
    embeddings, and in each layer three quarters on the attention
    probabilities and one half twice. *)
Example dropout_log_example :
  let training :=
    BertModel_init 0 true Examples.ids_1x2 None None false None Examples.g_two_rates in
  is_ok (fst training) = true
  /\ map (fun q : Qc => this q) (dropouts (snd training))
     = [1 # 2; 3 # 4; 1 # 2; 1 # 2; 3 # 4; 1 # 2; 1 # 2]%Q.
Proof. cbv zeta. split; vm_compute; reflexivity. Qed.

(** A hidden size of 3 with 2 heads fails the check; with 0 heads the
    remainder itself fails. *)
Example head_check_example :
  fst (transformer_model (Rational.vec [1; 1; 3] [3; 4; 5]%Z) None 3 1 2 4
         PyNone None None (Rational.dec 1 0) true Examples.g0)
  = Raise (ValueError hidden_size_msg)
  /\ fst (transformer_model (Rational.vec [1; 1; 3] [3; 4; 5]%Z) None 3 1 0 4
            PyNone None None (Rational.dec 1 0) true Examples.g0)
     = Raise ZeroDivisionError.
Proof. split; reflexivity. Qed.

(** The constructor on the small configuration: it returns, it creates
    the variables of the encoder under the names of the published
    checkpoints, and it adds no dropout node outside training and four in
    training. *)
Example constructor_example :
  let inference :=
    BertModel_init 0 false Examples.ids_1x2 None None false None Examples.g_config in
  let training :=
    BertModel_init 0 true Examples.ids_1x2 None None false None Examples.g_config in
  is_ok (fst inference) = true
  /\ map fst (variables (snd inference))
     = ["bert/embeddings/word_embeddings";
        "bert/embeddings/token_type_embeddings";
        "bert/embeddings/position_embeddings";
        "bert/embeddings/LayerNorm/beta";
        "bert/embeddings/LayerNorm/gamma";
        "bert/encoder/layer_0/attention/self/query/kernel";
        "bert/encoder/layer_0/attention/self/query/bias";
        "bert/encoder/layer_0/attention/self/key/kernel";
        "bert/encoder/layer_0/attention/self/key/bias";
        "bert/encoder/layer_0/attention/self/value/kernel";
        "bert/encoder/layer_0/attention/self/value/bias";
        "bert/encoder/layer_0/attention/output/dense/kernel";
        "bert/encoder/layer_0/attention/output/dense/bias";
        "bert/encoder/layer_0/attention/output/LayerNorm/beta";
        "bert/encoder/layer_0/attention/output/LayerNorm/gamma";
        "bert/encoder/layer_0/intermediate/dense/kernel";
        "bert/encoder/layer_0/intermediate/dense/bias";
        "bert/encoder/layer_0/output/dense/kernel";
        "bert/encoder/layer_0/output/dense/bias";
        "bert/encoder/layer_0/output/LayerNorm/beta";
        "bert/encoder/layer_0/output/LayerNorm/gamma";
        "bert/pooler/dense/kernel";
        "bert/pooler/dense/bias"]%string
  /\ length (dropouts (snd inference)) = 0
  /\ is_ok (fst training) = true
  /\ length (dropouts (snd training)) = 4.
Proof. cbv zeta. repeat split; vm_compute; reflexivity. Qed.
